(** * India generation dashboard: the aggregation core, embedded and verified

    The development embeds the pure functions and the actions (import,
    export, save, hydration) of the dashboard component
    ([src/App.tsx], module [App]) and of the second, shorter copy of the
    component that the repository also carries (module [Alt]), on top of a
    small model of the JavaScript runtime they call (module [JS]).

    Conventions of the embedding
    - a JavaScript [number] is a finite exact rational or one of the three
      special values.  Arithmetic is exact: the rounding of binary64, the
      overflow and underflow of an arithmetic result and the sign of zero
      are not represented.  A numeral that is read does overflow to an
      infinity and underflow to 0, as [Number] has it ([readValue]);
    - a string is a sequence of 8-bit code units;
    - [null] and [undefined] are the [None] of an [option];
    - a [Map] keyed by strings or numbers is a [gmap]; every place where the
      program iterates a map sorts the keys first, so insertion order is not
      represented;
    - all [Date] objects of the program sit at 00:00:00 UTC, so a time value
      is represented by its day number since 1970-01-01. *)

From Stdlib Require Import ZArith QArith Qcanon Qround Lia Lqa Ascii String.
From stdpp Require Import base decidable option list gmap strings sorting countable.

Local Open Scope string_scope.
Local Open Scope Z_scope.

#[local] Set Warnings "-register-all".

(* ====================================================================== *)
(** * The JavaScript runtime the program relies on *)
(* ====================================================================== *)

Module JS.

(** ** Numbers *)

Inductive number : Type :=
  | Fin (q : Qc)
  | PInf
  | NInf
  | NaN.

#[global] Instance number_eq_dec : EqDecision number.
Proof. solve_decision. Defined.

#[global] Instance number_inhabited : Inhabited number := populate NaN.

Definition number_code (x : number) : Qc + nat :=
  match x with
  | Fin q => inl q
  | PInf => inr 0%nat
  | NInf => inr 1%nat
  | NaN => inr 2%nat
  end.

Definition number_decode (c : Qc + nat) : number :=
  match c with
  | inl q => Fin q
  | inr 0%nat => PInf
  | inr 1%nat => NInf
  | inr _ => NaN
  end.

#[global] Instance number_countable : Countable number.
Proof.
  apply (inj_countable' number_code number_decode).
  intros []; reflexivity.
Defined.

Definition qz (z : Z) : Qc := Q2Qc (inject_Z z).
Definition ofZ (z : Z) : number := Fin (qz z).

Definition qsgn (q : Qc) : Z := Z.sgn (Qnum (this q)).

Definition isZero (q : Qc) : bool := Z.eqb (Qnum (this q)) 0.

Definition nsign (x : number) : Z :=
  match x with
  | Fin q => qsgn q
  | PInf => 1
  | NInf => -1
  | NaN => 0
  end.

(** the infinity of a given sign; sign 0 stands for an undefined form *)
Definition infOfSign (s : Z) : number :=
  match s with
  | Z0 => NaN
  | Zpos _ => PInf
  | Zneg _ => NInf
  end.

Definition nneg (x : number) : number :=
  match x with
  | Fin q => Fin (- q)%Qc
  | PInf => NInf
  | NInf => PInf
  | NaN => NaN
  end.

Definition nadd (x y : number) : number :=
  match x, y with
  | NaN, _ | _, NaN => NaN
  | Fin a, Fin b => Fin (a + b)%Qc
  | PInf, NInf | NInf, PInf => NaN
  | PInf, _ | _, PInf => PInf
  | NInf, _ | _, NInf => NInf
  end.

Definition nsub (x y : number) : number := nadd x (nneg y).

Definition nmul (x y : number) : number :=
  match x, y with
  | NaN, _ | _, NaN => NaN
  | Fin a, Fin b => Fin (a * b)%Qc
  | _, _ => infOfSign (nsign x * nsign y)
  end.

(** [x / y]; a finite non-zero number over zero is an infinity (zero is
    taken as positive), zero over zero is NaN *)
Definition ndiv (x y : number) : number :=
  match x, y with
  | NaN, _ | _, NaN => NaN
  | Fin a, Fin b => if isZero b then infOfSign (qsgn a) else Fin (a / b)%Qc
  | Fin _, _ => Fin (qz 0)
  | _, Fin b => infOfSign (nsign x * (if isZero b then 1 else qsgn b))
  | _, _ => NaN
  end.

Definition qleb (a b : Qc) : bool := Qle_bool (this a) (this b).
Definition qltb (a b : Qc) : bool := negb (Qle_bool (this b) (this a)).

(** [x <= y] and [x < y] on numbers: false as soon as one side is NaN *)
Definition nleb (x y : number) : bool :=
  match x, y with
  | NaN, _ | _, NaN => false
  | Fin a, Fin b => qleb a b
  | NInf, _ | _, PInf => true
  | _, _ => false
  end.

Definition nltb (x y : number) : bool :=
  match x, y with
  | NaN, _ | _, NaN => false
  | Fin a, Fin b => qltb a b
  | PInf, _ | _, NInf => false
  | _, _ => true
  end.

Definition isFinite (x : number) : bool :=
  match x with Fin _ => true | _ => false end.

Definition isNaN (x : number) : bool :=
  match x with NaN => true | _ => false end.

(** [Math.max(a, b)] *)
Definition Math_max (x y : number) : number :=
  match x, y with
  | NaN, _ | _, NaN => NaN
  | _, _ => if nleb x y then y else x
  end.

(** [Math.min(a, b)] *)
Definition Math_min (x y : number) : number :=
  match x, y with
  | NaN, _ | _, NaN => NaN
  | _, _ => if nleb x y then x else y
  end.

(** [x || 0] on a possibly absent number: the left operand unless it is
    absent, zero or NaN *)
Definition orZero (v : option number) : number :=
  match v with
  | Some (Fin q) => Fin q
  | Some PInf => PInf
  | Some NInf => NInf
  | Some NaN | None => ofZ 0
  end.

(** truthiness of a number: everything but zero and NaN *)
Definition truthy (x : number) : bool :=
  match x with
  | Fin q => negb (isZero q)
  | NaN => false
  | _ => true
  end.

Definition qfloor (q : Qc) : Z := Z.div (Qnum (this q)) (Zpos (Qden (this q))).

(** the integer part, as [ToIntegerOrInfinity] takes it (towards zero) *)
Definition qtrunc (q : Qc) : Z := Z.quot (Qnum (this q)) (Zpos (Qden (this q))).

Definition isInteger (q : Qc) : bool := Pos.eqb (Qden (this q)) 1.

(** [Number(x.toFixed(2))] on a finite number: the nearest multiple of
    1/100, the larger magnitude at a tie.  From 10^21 on [toFixed] prints
    the number itself.  The text is read back exactly: the rounding of the
    hundredth to binary64 is not represented. *)
Definition toFixed2 (q : Qc) : Qc :=
  let a := if qltb q (qz 0) then (- q)%Qc else q in
  if qleb (qz (10 ^ 21)) a then q
  else
    let n := qfloor (a * qz 100 + Q2Qc (1 # 2))%Qc in
    let r := (qz n / qz 100)%Qc in
    if qltb q (qz 0) then (- r)%Qc else r.

(** ** Strings *)

Definition code (a : ascii) : Z := Z.of_N (N_of_ascii a).
Definition chr (n : Z) : ascii := ascii_of_N (Z.to_N n).

(** white space and line terminators, as [trim] and [Number] strip them *)
Definition isWhiteSpace (a : ascii) : bool :=
  let n := code a in
  ((9 <=? n) && (n <=? 13)) || (n =? 32) || (n =? 160).

Definition isDigit (a : ascii) : bool :=
  let n := code a in (48 <=? n) && (n <=? 57).

Definition digitVal (a : ascii) : Z := code a - 48.
Definition digitChar (d : Z) : ascii := chr (48 + d).

Fixpoint trimStart (s : string) : string :=
  match s with
  | String a r => if isWhiteSpace a then trimStart r else s
  | EmptyString => EmptyString
  end.

Fixpoint trimEnd (s : string) : string :=
  match s with
  | String a r =>
      match trimEnd r with
      | EmptyString => if isWhiteSpace a then EmptyString else String a EmptyString
      | r' => String a r'
      end
  | EmptyString => EmptyString
  end.

Definition trim (s : string) : string := trimEnd (trimStart s).

Definition lowerChar (a : ascii) : ascii :=
  let n := code a in
  if ((65 <=? n) && (n <=? 90)) || ((192 <=? n) && (n <=? 222) && negb (n =? 215))
  then chr (n + 32) else a.

Fixpoint toLowerCase (s : string) : string :=
  match s with
  | String a r => String (lowerChar a) (toLowerCase r)
  | EmptyString => EmptyString
  end.

(** [s.includes(needle)] *)
Fixpoint includes (s needle : string) : bool :=
  String.prefix needle s ||
  match s with
  | String _ r => includes r needle
  | EmptyString => false
  end.

Definition consHead (a : ascii) (l : list string) : list string :=
  match l with
  | h :: t => String a h :: t
  | [] => [String a EmptyString]
  end.

(** [s.split(c)] for a one-character separator *)
Fixpoint split (c : ascii) (s : string) : list string :=
  match s with
  | EmptyString => [EmptyString]
  | String a r =>
      if Ascii.eqb a c then EmptyString :: split c r else consHead a (split c r)
  end.

Definition LF : ascii := chr 10.
Definition CR : ascii := chr 13.

(** [s.split(/\r?\n/)] *)
Fixpoint splitLines (s : string) : list string :=
  match s with
  | EmptyString => [EmptyString]
  | String a r =>
      if Ascii.eqb a LF then EmptyString :: splitLines r
      else
        match r with
        | String b r' =>
            if Ascii.eqb a CR && Ascii.eqb b LF then EmptyString :: splitLines r'
            else consHead a (splitLines r)
        | EmptyString => consHead a (splitLines r)
        end
  end.

(** [l.join(sep)] *)
Fixpoint join (sep : string) (l : list string) : string :=
  match l with
  | [] => EmptyString
  | x :: rest =>
      match rest with
      | [] => x
      | _ => x +:+ sep +:+ join sep rest
      end
  end.

(** [s.replace(/c/g, "")] for a one-character pattern *)
Fixpoint removeAll (c : ascii) (s : string) : string :=
  match s with
  | String a r => if Ascii.eqb a c then removeAll c r else String a (removeAll c r)
  | EmptyString => EmptyString
  end.

(** [s.slice(i, j)] for indices [0 <= i <= j] *)
Definition slice (i j : nat) (s : string) : string := substring i (j - i) s.

(** [s.slice(i)] *)
Fixpoint sliceFrom (i : nat) (s : string) : string :=
  match i, s with
  | O, _ => s
  | S i', String _ r => sliceFrom i' r
  | S _, EmptyString => EmptyString
  end.

Fixpoint repeatChar (n : nat) (c : ascii) : string :=
  match n with
  | O => EmptyString
  | S n' => String c (repeatChar n' c)
  end.

(** [s.padStart(n, c)] for a one-character filler *)
Definition padStart (n : nat) (c : ascii) (s : string) : string :=
  repeatChar (n - String.length s) c +:+ s.

Fixpoint allDigits (s : string) : bool :=
  match s with
  | String a r => isDigit a && allDigits r
  | EmptyString => true
  end.

(** the value of a run of decimal digits, most significant first *)
Fixpoint digitsValue (acc : Z) (s : string) : Z :=
  match s with
  | String a r => digitsValue (acc * 10 + digitVal a) r
  | EmptyString => acc
  end.

(** the longest prefix of decimal digits, and what follows it *)
Fixpoint spanDigits (s : string) : string * string :=
  match s with
  | String a r =>
      if isDigit a then let '(d, rest) := spanDigits r in (String a d, rest)
      else (EmptyString, s)
  | EmptyString => (EmptyString, EmptyString)
  end.

Fixpoint decimalDigits (fuel : nat) (n : Z) (acc : string) : string :=
  match fuel with
  | O => acc
  | S f =>
      let acc' := String (digitChar (n mod 10)) acc in
      if n / 10 =? 0 then acc' else decimalDigits f (n / 10) acc'
  end.

(** the decimal digits of [n >= 0] *)
Definition natToString (n : Z) : string :=
  decimalDigits (S (Z.to_nat (Z.log2 n))) n EmptyString.

Definition intToString (z : Z) : string :=
  if z <? 0 then String "-" (natToString (- z)) else natToString z.

Fixpoint fractionDigits (fuel : nat) (r d : Z) : string :=
  match fuel with
  | O => EmptyString
  | S f =>
      if r =? 0 then EmptyString
      else String (digitChar (r * 10 / d)) (fractionDigits f ((r * 10) mod d) d)
  end.

(** [String(x)], [`${x}`].  Integers print in full; a fraction prints its
    decimal expansion (the exponent forms of very small and very large
    numbers are not rendered: the results about printed numbers are stated
    for integers). *)
Definition numberToString (x : number) : string :=
  match x with
  | NaN => "NaN"
  | PInf => "Infinity"
  | NInf => "-Infinity"
  | Fin q =>
      let n := Qnum (this q) in
      let d := Zpos (Qden (this q)) in
      if isInteger q then intToString n
      else
        let a := Z.abs n in
        (if n <? 0 then "-" else "") +:+ natToString (a / d) +:+ "." +:+
        fractionDigits (S (Z.to_nat (Z.log2 d))) (a mod d) d
  end.

(** ** [Number(s)] on a string *)

Definition radixDigit (a : ascii) : option Z :=
  let n := code a in
  if (48 <=? n) && (n <=? 57) then Some (n - 48)
  else if (97 <=? n) && (n <=? 102) then Some (n - 87)
  else if (65 <=? n) && (n <=? 70) then Some (n - 55)
  else None.

Fixpoint radixValue (radix acc : Z) (s : string) : option Z :=
  match s with
  | EmptyString => Some acc
  | String a r =>
      match radixDigit a with
      | Some v => if v <? radix then radixValue radix (acc * radix + v) r else None
      | None => None
      end
  end.

(** [0x..], [0o..], [0b..] *)
Definition nonDecimalLiteral (t : string) : option Z :=
  match t with
  | String "0" (String p (String a r)) =>
      let body := String a r in
      if Ascii.eqb p "x" || Ascii.eqb p "X" then radixValue 16 0 body
      else if Ascii.eqb p "o" || Ascii.eqb p "O" then radixValue 8 0 body
      else if Ascii.eqb p "b" || Ascii.eqb p "B" then radixValue 2 0 body
      else None
  | _ => None
  end.

Definition pow10 (e : Z) : Qc := Q2Qc (Qpower (inject_Z 10) e).

(** digits, an optional fraction, an optional exponent *)
Definition unsignedDecimal (u : string) : option Qc :=
  let '(ip, r1) := spanDigits u in
  let '(fp, r2) :=
    match r1 with
    | String "." r => spanDigits r
    | _ => (EmptyString, r1)
    end in
  if String.eqb ip "" && String.eqb fp "" then None
  else
    let mant := digitsValue 0 (ip +:+ fp) in
    let shift := Z.of_nat (String.length fp) in
    match r2 with
    | EmptyString => Some (qz mant * pow10 (- shift))%Qc
    | String c r3 =>
        if Ascii.eqb c "e" || Ascii.eqb c "E" then
          let '(sg, r4) :=
            match r3 with
            | String "+" r => (1, r)
            | String "-" r => (-1, r)
            | _ => (1, r3)
            end in
          let '(ed, r5) := spanDigits r4 in
          if String.eqb ed "" || negb (String.eqb r5 "") then None
          else Some (qz mant * pow10 (sg * digitsValue 0 ed - shift))%Qc
        else None
    end.

(** Reading a numeral as a binary64 number.  A magnitude from
    2^1024 - 2^970 on rounds to an infinity, and a magnitude up to 2^-1075
    rounds to 0; in between the value is kept as it is written. *)
Definition overflowZ : Z := 2 ^ 1024 - 2 ^ 970.

Definition readValue (q : Qc) : number :=
  let a := if qltb q (qz 0) then (- q)%Qc else q in
  if qleb (qz overflowZ) a then (if qltb q (qz 0) then NInf else PInf)
  else if qleb (a * qz (2 ^ 1075))%Qc (qz 1) then ofZ 0
  else Fin q.

Definition strDecimalLiteral (t : string) : number :=
  let '(neg, u) :=
    match t with
    | String "+" r => (false, r)
    | String "-" r => (true, r)
    | _ => (false, t)
    end in
  if String.eqb u "Infinity" then (if neg then NInf else PInf)
  else
    match unsignedDecimal u with
    | Some q => readValue (if neg then (- q)%Qc else q)
    | None => NaN
    end.

(** [Number(s)]: the empty or blank string is 0, a numeric literal is its
    value as [readValue] reads it, everything else is NaN *)
Definition Number (s : string) : number :=
  let t := trim s in
  if String.eqb t "" then ofZ 0
  else
    match nonDecimalLiteral t with
    | Some z => readValue (qz z)
    | None => strDecimalLiteral t
    end.

(** ** Dates: the day-number arithmetic of ECMA-262 *)

Definition DaysInYear (y : Z) : Z :=
  if (y mod 4 =? 0) && (negb (y mod 100 =? 0) || (y mod 400 =? 0)) then 366 else 365.

Definition DayFromYear (y : Z) : Z :=
  365 * (y - 1970) + (y - 1969) / 4 - (y - 1901) / 100 + (y - 1601) / 400.

(** the largest year whose first day is not after day [d] *)
Definition YearFromDay (d : Z) : Z :=
  let y := 1970 + d * 400 / 146097 in
  if DayFromYear (y + 1) <=? d then y + 1
  else if DayFromYear y <=? d then y
  else y - 1.

Definition leapDay (y : Z) : Z := if DaysInYear y =? 366 then 1 else 0.

Definition DayWithinYear (d : Z) : Z := d - DayFromYear (YearFromDay d).

(** the day within the year on which month [m] (0-based) starts *)
Definition monthStart (m L : Z) : Z :=
  match m with
  | 0 => 0
  | 1 => 31
  | 2 => 59 + L
  | 3 => 90 + L
  | 4 => 120 + L
  | 5 => 151 + L
  | 6 => 181 + L
  | 7 => 212 + L
  | 8 => 243 + L
  | 9 => 273 + L
  | 10 => 304 + L
  | _ => 334 + L
  end.

Definition MonthFromDay (d : Z) : Z :=
  let n := DayWithinYear d in
  let L := leapDay (YearFromDay d) in
  if n <? 31 then 0
  else if n <? 59 + L then 1
  else if n <? 90 + L then 2
  else if n <? 120 + L then 3
  else if n <? 151 + L then 4
  else if n <? 181 + L then 5
  else if n <? 212 + L then 6
  else if n <? 243 + L then 7
  else if n <? 273 + L then 8
  else if n <? 304 + L then 9
  else if n <? 334 + L then 10
  else 11.

Definition DateFromDay (d : Z) : Z :=
  DayWithinYear d - monthStart (MonthFromDay d) (leapDay (YearFromDay d)) + 1.

(** [MakeDay(year, month, date)]: months beyond 0..11 carry into the year,
    the date counts on from the first of the month *)
Definition MakeDay (year month date : Z) : Z :=
  let ym := year + month / 12 in
  let mn := month mod 12 in
  DayFromYear ym + monthStart mn (leapDay ym) + date - 1.

(** a time value is kept only within 100,000,000 days of the epoch *)
Definition TimeClip (d : Z) : option Z :=
  if Z.abs d <=? 100000000 then Some d else None.

(** a [Date]: its day number, or [None] for an invalid date *)
Definition Date : Type := option Z.

(** [Date.UTC(year, month, date)]; a year in 0..99 is taken in the 1900s *)
Definition MakeFullYear (y : Z) : Z :=
  if (0 <=? y) && (y <=? 99) then 1900 + y else y.

Definition Date_UTC (year month date : number) : Date :=
  match year, month, date with
  | Fin y, Fin m, Fin dt =>
      TimeClip (MakeDay (MakeFullYear (qtrunc y)) (qtrunc m) (qtrunc dt))
  | _, _, _ => None
  end.

Definition getUTCFullYear (d : Date) : number :=
  match d with Some t => ofZ (YearFromDay t) | None => NaN end.

Definition getUTCMonth (d : Date) : number :=
  match d with Some t => ofZ (MonthFromDay t) | None => NaN end.

Definition getUTCDate (d : Date) : number :=
  match d with Some t => ofZ (DateFromDay t) | None => NaN end.

(** [d.getUTCDay()]: the day of the week, 0 for Sunday *)
Definition getUTCDay (d : Date) : number :=
  match d with Some t => ofZ ((t + 4) mod 7) | None => NaN end.

(** [d.getTime()] is NaN exactly on an invalid date *)
Definition getTimeIsNaN (d : Date) : bool :=
  match d with Some _ => false | None => true end.

(** [d.setUTCDate(n)] *)
Definition setUTCDate (d : Date) (n : number) : Date :=
  match d, n with
  | Some t, Fin q => TimeClip (MakeDay (YearFromDay t) (MonthFromDay t) (qtrunc q))
  | _, _ => None
  end.

(** the length of month [m] (1-based) of year [y] *)
Definition DaysInMonth (y m : Z) : Z :=
  match m with
  | 2 => 28 + leapDay y
  | 4 | 6 | 9 | 11 => 30
  | _ => 31
  end.

(** [/^\d{4}-\d{2}-\d{2}$/.test(s)] *)
Definition isoPattern (s : string) : bool :=
  match s with
  | String y1 (String y2 (String y3 (String y4 (String h1
    (String m1 (String m2 (String h2 (String d1 (String d2 EmptyString))))))))) =>
      isDigit y1 && isDigit y2 && isDigit y3 && isDigit y4 && Ascii.eqb h1 "-" &&
      isDigit m1 && isDigit m2 && Ascii.eqb h2 "-" && isDigit d1 && isDigit d2
  | _ => false
  end.

(** [/^\d{2}-\d{2}-\d{4}$/.test(s)] *)
Definition displayPattern (s : string) : bool :=
  match s with
  | String d1 (String d2 (String h1 (String m1 (String m2
    (String h2 (String y1 (String y2 (String y3 (String y4 EmptyString))))))))) =>
      isDigit d1 && isDigit d2 && Ascii.eqb h1 "-" && isDigit m1 && isDigit m2 &&
      Ascii.eqb h2 "-" && isDigit y1 && isDigit y2 && isDigit y3 && isDigit y4
  | _ => false
  end.

(** Parsing a date-time string is left to the engine when the day exceeds
    the length of its month: some engines reject the string, others accept
    any day up to 31 and roll over into the next month. *)
Inductive engine : Type :=
  | StrictDays
  | RollOver.

Definition lastDay (e : engine) (y m : Z) : Z :=
  match e with
  | StrictDays => DaysInMonth y m
  | RollOver => 31
  end.

(** [new Date(s)] for the only strings the program builds, a date followed
    by [T00:00:00Z].  Anything outside the date-time format is an invalid
    date. *)
Definition Date_parse (e : engine) (s : string) : Date :=
  let dp := slice 0 10 s in
  if isoPattern dp && String.eqb (sliceFrom 10 s) "T00:00:00Z" then
    let y := digitsValue 0 (slice 0 4 dp) in
    let m := digitsValue 0 (slice 5 7 dp) in
    let d := digitsValue 0 (slice 8 10 dp) in
    if (1 <=? m) && (m <=? 12) && (1 <=? d) && (d <=? lastDay e y m)
    then TimeClip (MakeDay y (m - 1) d)
    else None
  else None.

Definition pad (n : nat) (z : Z) : string := padStart n "0" (natToString z).

(** [d.toISOString()]; [None] stands for the RangeError thrown on an
    invalid date *)
Definition toISOString (d : Date) : option string :=
  match d with
  | None => None
  | Some t =>
      let y := YearFromDay t in
      let ys :=
        if (0 <=? y) && (y <=? 9999) then pad 4 y
        else (if y <? 0 then "-" else "+") +:+ pad 6 (Z.abs y) in
      Some (ys +:+ "-" +:+ pad 2 (MonthFromDay t + 1) +:+ "-" +:+
            pad 2 (DateFromDay t) +:+ "T00:00:00.000Z")
  end.

(** ** JSON values, as [JSON.parse] returns them *)

Inductive json : Type :=
  | JNull
  | JBool (b : bool)
  | JNum (n : number)
  | JStr (s : string)
  | JArr (l : list json)
  | JObj (o : list (string * json)).

(** [String(v)]: an array prints its elements joined by commas, with
    nothing for a [null] element *)
Fixpoint jsonToString (v : json) : string :=
  match v with
  | JNull => "null"
  | JBool b => if b then "true" else "false"
  | JNum n => numberToString n
  | JStr s => s
  | JArr l =>
      (fix join (l : list json) : string :=
         match l with
         | [] => EmptyString
         | x :: rest =>
             let sx := match x with JNull => EmptyString | _ => jsonToString x end in
             match rest with
             | [] => sx
             | _ => sx +:+ "," +:+ join rest
             end
         end) l
  | JObj _ => "[object Object]"
  end.

(** [Number(v)] *)
Definition ToNumber (v : json) : number :=
  match v with
  | JNull => ofZ 0
  | JBool b => if b then ofZ 1 else ofZ 0
  | JNum n => n
  | JStr s => Number s
  | JArr _ | JObj _ => Number (jsonToString v)
  end.

(** the own enumerable properties of a value: the members of an object (in
    the order the engine enumerates them), the indexed elements of an array
    or of a string, nothing for the other primitives *)
Definition indexed {A : Type} (f : A -> json) (l : list A) : list (string * json) :=
  imap (fun i x => (natToString (Z.of_nat i), f x)) l.

Definition Object_entries (v : json) : list (string * json) :=
  match v with
  | JObj o => o
  | JArr l => indexed id l
  | JStr s => indexed (fun c => JStr (String c EmptyString)) (list_ascii_of_string s)
  | _ => []
  end.

(** truthiness of a parsed value *)
Definition jsonTruthy (v : json) : bool :=
  match v with
  | JNull => false
  | JBool b => b
  | JNum n => truthy n
  | JStr s => negb (String.eqb s "")
  | _ => true
  end.

(** [x !== y] on numbers *)
Definition strictNeq (x y : number) : bool :=
  match x, y with
  | NaN, _ | _, NaN => true
  | _, _ => negb (bool_decide (x = y))
  end.

End JS.

(* ====================================================================== *)
(** * The dashboard component, [src/App.tsx] *)
(* ====================================================================== *)

Module App.
Import JS.

Definition clamp (n mn mx : number) : number := Math_min mx (Math_max mn n).

Definition parseISOKey (e : engine) (s : string) : option string :=
  let ok := isoPattern s in
  if negb ok then None
  else
    let d := Date_parse e (s +:+ "T00:00:00Z") in
    if getTimeIsNaN d then None else Some s.

(** The argument is typed [unknown] in the source; every caller passes a
    string, so the [typeof] guard is the type of [s] here. *)
Definition parseInputDate (e : engine) (s : string) : option string :=
  let t := trim s in
  if displayPattern t then
    let parts := Number <$> split "-" t in
    let dd := parts !!! 0%nat in
    let mm := parts !!! 1%nat in
    let yyyy := parts !!! 2%nat in
    let d := Date_UTC yyyy (nsub mm (ofZ 1)) dd in
    if getTimeIsNaN d then None
    else if strictNeq (getUTCFullYear d) yyyy
            || strictNeq (getUTCMonth d) (nsub mm (ofZ 1))
            || strictNeq (getUTCDate d) dd then None
    else Some (numberToString yyyy +:+ "-" +:+
               padStart 2 "0" (numberToString mm) +:+ "-" +:+
               padStart 2 "0" (numberToString dd))
  else if isoPattern t then parseISOKey e t
  else None.

(** the marker returned for a malformed key *)
Definition dash : string := "—".

(** a destructured array element that is missing prints as [undefined] *)
Definition part (l : list string) (i : nat) : string :=
  default "undefined" (l !! i).

Definition formatDDMMYYYY (iso : string) : string :=
  if String.eqb iso "" || negb (isoPattern iso) then dash
  else
    let ps := split "-" iso in
    part ps 2 +:+ "-" +:+ part ps 1 +:+ "-" +:+ part ps 0.

Definition isoMinusDays (e : engine) (iso : string) (days : number) : option string :=
  let d := Date_parse e (iso +:+ "T00:00:00Z") in
  let d := setUTCDate d (nsub (getUTCDate d) days) in
  slice 0 10 <$> toISOString d.

Definition isoPlusDays (e : engine) (iso : string) (days : number) : option string :=
  let d := Date_parse e (iso +:+ "T00:00:00Z") in
  let d := setUTCDate d (nadd (getUTCDate d) days) in
  slice 0 10 <$> toISOString d.

Definition round2 (n : option number) : option number :=
  match n with
  | Some (Fin q) => Some (Fin (toFixed2 q))
  | _ => None
  end.

Definition monthKey (isoDate : string) : string := slice 0 7 isoDate.

Definition addMonths (ym : string) (delta : number) : string :=
  let ps := Number <$> split "-" ym in
  let y := ps !!! 0%nat in
  let m := ps !!! 1%nat in
  let d := Date_UTC y (nadd (nsub m (ofZ 1)) delta) (ofZ 1) in
  numberToString (getUTCFullYear d) +:+ "-" +:+
  padStart 2 "0" (numberToString (nadd (getUTCMonth d) (ofZ 1))).

Definition getYear (ym : string) : number := Number (slice 0 4 ym).
Definition getMonth (ym : string) : number := Number (slice 5 7 ym).

Definition safeDiv (n : number) (d : option number) : option number :=
  match d with
  | None => None
  | Some (Fin q) => if isZero q then None else Some (ndiv n (Fin q))
  | Some d' => Some (ndiv n d')
  end.

(** [prev] is typed [number]; the option covers a caller that passes
    [null], which the subtraction reads as 0 *)
Definition growthPct (curr : number) (prev : option number) : option number :=
  let r := safeDiv (nsub curr (default (ofZ 0) prev)) prev in
  match r with
  | None => None
  | Some r' => Some (nmul r' (ofZ 100))
  end.

Definition sortISO (a b : string) : Z :=
  if String.ltb a b then -1 else if String.ltb b a then 1 else 0.

(** [a] may stand before [b] under the comparator *)
Definition isoLe (a b : string) : Prop := sortISO a b <= 0.

#[global] Instance isoLe_dec : RelDecision isoLe.
Proof. intros a b. unfold isoLe. apply _. Defined.

(** [keys.sort(sortISO)]: the keys in the order of the comparator *)
Definition sortKeys (keys : list string) : list string := merge_sort isoLe keys.

(** *** The store and merging

    [Map] objects are mutable and shared by reference, so they live in a
    heap of objects: [new Map(m)] allocates a copy at an unused address and
    [set] updates the object at an address in place. *)

Record DailyPoint : Type := mkPoint { date : string; generation_gwh : number }.

#[global] Instance DailyPoint_eq_dec : EqDecision DailyPoint.
Proof. solve_decision. Defined.

Abbreviation heap := (gmap nat (gmap string number)).

Definition newMapFrom (h : heap) (src : nat) : heap * nat :=
  let l := fresh (dom h) in
  (<[l := default ∅ (h !! src)]> h, l).

Definition mapSet (h : heap) (l : nat) (k : string) (v : number) : heap :=
  match h !! l with
  | Some m => <[l := <[k := v]> m]> h
  | None => h
  end.

Definition mergeRecords (h : heap) (existingMap : nat) (incoming : list DailyPoint)
  : heap * nat :=
  let '(h1, next) := newMapFrom h existingMap in
  (foldl (fun hp r => mapSet hp next (date r) (generation_gwh r)) h1 incoming, next).

(** *** Monthly rollup *)

Record MonthRec : Type :=
  mkMonthRec { total : number; maxDay : number; byDay : gmap number number }.

Definition emptyMonthRec : MonthRec := mkMonthRec (ofZ 0) (ofZ 0) ∅.

Definition addToMonth (map : gmap string MonthRec) (d : DailyPoint) : gmap string MonthRec :=
  let m := monthKey (date d) in
  let day := Number (slice 8 10 (date d)) in
  let rec := default emptyMonthRec (map !! m) in
  <[m := mkMonthRec
           (nadd (total rec) (generation_gwh d))
           (Math_max (maxDay rec) day)
           (<[day := nadd (orZero (byDay rec !! day)) (generation_gwh d)]> (byDay rec))]> map.

Definition buildMonthDayMap (sortedDaily : list DailyPoint) : gmap string MonthRec :=
  foldl addToMonth ∅ sortedDaily.

(** how often [for (day = 1; day <= dayLimit; day++)] runs its body.  The
    limit is a [max_day], at most 99; on an infinite limit the source loop
    would not end, and no body run is counted here. *)
Definition dayIterations (dayLimit : number) : nat :=
  match dayLimit with
  | Fin q => Z.to_nat (qfloor q)
  | _ => 0%nat
  end.

Fixpoint sumDays (days : gmap number number) (n : nat) (day : Z) (s : number) (hasAny : bool)
  : number * bool :=
  match n with
  | O => (s, hasAny)
  | S n' =>
      match days !! ofZ day with
      | Some v => sumDays days n' (day + 1) (nadd s v) true
      | None => sumDays days n' (day + 1) s hasAny
      end
  end.

Definition sumMonthUpToDay (monthRec : option MonthRec) (dayLimit : number) : option number :=
  match monthRec with
  | None => None
  | Some r =>
      let '(s, hasAny) := sumDays (byDay r) (dayIterations dayLimit) 1 (ofZ 0) false in
      if hasAny then Some s else None
  end.

Record MonthlyRecord : Type :=
  mkMonthly {
    month : string;
    total_gwh : number;
    max_day : number;
    yoy_pct : option number;
    mom_pct : option number
  }.

#[global] Instance MonthlyRecord_eq_dec : EqDecision MonthlyRecord.
Proof. solve_decision. Defined.

Definition prevYearKey (m : string) : string :=
  numberToString (nsub (getYear m) (ofZ 1)) +:+ "-" +:+
  padStart 2 "0" (numberToString (getMonth m)).

Definition comparePct (curr : number) (prevComparable : option number) : option number :=
  match prevComparable with
  | Some p => growthPct curr (Some p)
  | None => None
  end.

Definition monthlyRow (monthMap : gmap string MonthRec) (m : string) : MonthlyRecord :=
  let rec := default emptyMonthRec (monthMap !! m) in
  let prevMonth := addMonths m (ofZ (-1)) in
  let prevComparableMoM := sumMonthUpToDay (monthMap !! prevMonth) (maxDay rec) in
  let prevComparableYoY := sumMonthUpToDay (monthMap !! prevYearKey m) (maxDay rec) in
  mkMonthly m (total rec) (maxDay rec)
    (comparePct (total rec) prevComparableYoY)
    (comparePct (total rec) prevComparableMoM).

Definition toMonthly (sortedDaily : list DailyPoint) : list MonthlyRecord :=
  let monthMap := buildMonthDayMap sortedDaily in
  let months := sortKeys (map_to_list monthMap).*1 in
  monthlyRow monthMap <$> months.

(** *** CSV import *)

Definition csvRows (text : string) : list (list string) :=
  let lines := filter (fun l => l <> "") (trim <$> splitLines text) in
  filter (fun cols : list string => (2 <= length cols)%nat)
         ((fun line => trim <$> split "," line) <$> lines).

Definition isHeader (row : list string) : bool :=
  let h0 := toLowerCase (row !!! 0%nat) in
  let h1 := toLowerCase (row !!! 1%nat) in
  includes h0 "date" && (includes h1 "gen" || includes h1 "gwh").

Definition stripHeader (rows : list (list string)) : list (list string) :=
  match rows with
  | r0 :: rest => if isHeader r0 then rest else rows
  | [] => []
  end.

Definition rowNumber (i : nat) : string := numberToString (ofZ (Z.of_nat i + 1)).

Definition dateError (i : nat) (dRaw : string) : string :=
  "Row " +:+ rowNumber i +:+ ": invalid date '" +:+ dRaw +:+ "' (expected DD-MM-YYYY)".

Definition valueError (i : nat) (gRaw : string) : string :=
  "Row " +:+ rowNumber i +:+ ": invalid generation '" +:+ gRaw +:+
  "' (expected non-negative number)".

(** one turn of the row loop: the record or the message the row gives *)
Definition rowOutcome (e : engine) (i : nat) (row : list string) : DailyPoint + string :=
  let dRaw := row !!! 0%nat in
  let gRaw := row !!! 1%nat in
  let date := parseInputDate e dRaw in
  let g := Number (removeAll "," gRaw) in
  match date with
  | None => inr (dateError i dRaw)
  | Some d =>
      if String.eqb d "" then inr (dateError i dRaw)
      else if negb (isFinite g) || nltb g (ofZ 0) then inr (valueError i gRaw)
      else inl (mkPoint d g)
  end.

Fixpoint csvLoop (e : engine) (i : nat) (rows : list (list string))
    (parsed : list DailyPoint) (errors : list string)
  : list DailyPoint * list string :=
  match rows with
  | [] => (parsed, errors)
  | row :: rest =>
      match rowOutcome e i row with
      | inl r => csvLoop e (S i) rest (parsed ++ [r]) errors
      | inr msg => csvLoop e (S i) rest parsed (errors ++ [msg])
      end
  end.

Definition csvParse (e : engine) (text : string) : list DailyPoint * list string :=
  csvLoop e 0 (stripHeader (csvRows text)) [] [].

(** *** Start-up: hydrating the store from the persisted blob

    [raw] is what [localStorage.getItem] returned; [JSON_parse] is the
    engine's parser, [None] standing for the SyntaxError it throws. *)

Section Hydration.
Variable JSON_parse : string -> option json.

Definition loadEntry (e : engine) (m : gmap string number) (kv : string * json)
  : gmap string number :=
  let d := parseISOKey e kv.1 in
  let g := ToNumber kv.2 in
  match d with
  | Some d' =>
      if negb (String.eqb d' "") && isFinite g && nleb (ofZ 0) g
      then <[d' := g]> m else m
  | None => m
  end.

Definition hydrate (e : engine) (raw : option string) : gmap string number :=
  match raw with
  | None => ∅
  | Some r =>
      if String.eqb r "" then ∅
      else
        match JSON_parse r with
        | None => ∅
        | Some obj =>
            let entries := Object_entries (if jsonTruthy obj then obj else JObj []) in
            foldl (loadEntry e) ∅ entries
        end
  end.
End Hydration.

(** *** Chart series *)

Inductive frequency : Type := daily | weekly | monthly | rolling30.

Record ChartPoint : Type :=
  mkChart {
    label : string;
    units : option number;
    prev_year_units : option number;
    c_yoy_pct : option number;
    c_mom_pct : option number
  }.

#[global] Instance ChartPoint_eq_dec : EqDecision ChartPoint.
Proof. solve_decision. Defined.

(** the result of a computation with loops that are not bounded in advance
    and calls that can throw *)
Inductive run (A : Type) : Type :=
  | Ret (a : A)
  | Throw
  | NoFuel.
Arguments Ret {A} a.
Arguments Throw {A}.
Arguments NoFuel {A}.

#[global] Instance run_eq_dec {A : Type} `{EqDecision A} : EqDecision (run A).
Proof. solve_decision. Defined.

Definition bind {A B : Type} (r : run A) (k : A -> run B) : run B :=
  match r with
  | Ret a => k a
  | Throw => Throw
  | NoFuel => NoFuel
  end.

Definition orThrow {A : Type} (o : option A) : run A :=
  match o with
  | Some a => Ret a
  | None => Throw
  end.

Notation "'run!' x <- r ; k" := (bind r (fun x => k))
  (at level 10, x name, r at level 100, k at level 200).

(** [new Map(sortedDaily.map((d) => [d.date, d.generation_gwh]))] *)
Definition lookupOf (sortedDaily : list DailyPoint) : gmap string number :=
  foldl (fun m d => <[date d := generation_gwh d]> m) ∅ sortedDaily.

Fixpoint sumLoop (e : engine) (dailyLookup : gmap string number) (fuel : nat)
    (cur endIso : string) (s : number) (hasAny : bool) : run (option number) :=
  match fuel with
  | O => NoFuel
  | S fuel' =>
      if String.leb cur endIso then
        let '(s', hasAny') :=
          match dailyLookup !! cur with
          | Some v => (nadd s v, true)
          | None => (s, hasAny)
          end in
        run! next <- orThrow (isoPlusDays e cur (ofZ 1)) ;
        sumLoop e dailyLookup fuel' next endIso s' hasAny'
      else Ret (if hasAny then Some s else None)
  end.

Definition sumRangeInclusive (e : engine) (dailyLookup : gmap string number) (fuel : nat)
    (startIso endIso : string) : run (option number) :=
  if String.ltb endIso startIso then Ret None
  else sumLoop e dailyLookup fuel startIso endIso (ofZ 0) false.

Definition sameDayPrevYear (iso : string) : string :=
  numberToString (nsub (Number (slice 0 4 iso)) (ofZ 1)) +:+ sliceFrom 4 iso.

Definition dailyPoint (dailyLookup : gmap string number) (d : DailyPoint) : ChartPoint :=
  let pyDate := sameDayPrevYear (date d) in
  let py := dailyLookup !! pyDate in
  mkChart (formatDDMMYYYY (date d))
          (round2 (Some (generation_gwh d)))
          (match py with Some v => round2 (Some v) | None => None end)
          (match py with Some v => round2 (growthPct (generation_gwh d) (Some v)) | None => None end)
          None.

Definition rollingPoint (e : engine) (dailyLookup : gmap string number) (fuel : nat)
    (cur : string) : run ChartPoint :=
  run! start <- orThrow (isoMinusDays e cur (ofZ 29)) ;
  run! currSum <- sumRangeInclusive e dailyLookup fuel start cur ;
  run! curPrevYear <- orThrow (isoMinusDays e cur (ofZ 365)) ;
  run! startPrevYear <- orThrow (isoMinusDays e curPrevYear (ofZ 29)) ;
  run! prevSum <- sumRangeInclusive e dailyLookup fuel startPrevYear curPrevYear ;
  Ret (mkChart (formatDDMMYYYY cur)
         (round2 (Some (default (ofZ 0) currSum)))
         (match prevSum with Some p => round2 (Some p) | None => None end)
         (match currSum, prevSum with
          | Some c, Some p => round2 (growthPct c (Some p))
          | _, _ => None
          end)
         None).

Fixpoint rollingLoop (e : engine) (dailyLookup : gmap string number) (fuel : nat)
    (cur t : string) (points : list ChartPoint) : run (list ChartPoint) :=
  match fuel with
  | O => NoFuel
  | S fuel' =>
      if String.leb cur t then
        run! pt <- rollingPoint e dailyLookup fuel cur ;
        run! next <- orThrow (isoPlusDays e cur (ofZ 1)) ;
        rollingLoop e dailyLookup fuel' next t (points ++ [pt])
      else Ret points
  end.

Definition plainPoint (d : DailyPoint) : ChartPoint :=
  mkChart (formatDDMMYYYY (date d)) (round2 (Some (generation_gwh d))) None None None.

Definition dailyForChart (e : engine) (fuel : nat) (sortedDaily : list DailyPoint)
    (rangeDays : number) (fromIso toIso : string) (aggFreq : frequency)
  : run (list ChartPoint) :=
  match list.last sortedDaily with
  | None => Ret []
  | Some lastPoint =>
      let lastIso := date lastPoint in
      let effectiveTo := if String.eqb toIso "" then lastIso else toIso in
      run! effectiveFrom <-
        (if String.eqb fromIso ""
         then orThrow (isoMinusDays e lastIso (clamp rangeDays (ofZ 7) (ofZ 3650)))
         else Ret fromIso) ;
      let f := if String.leb effectiveFrom effectiveTo then effectiveFrom else effectiveTo in
      let t := if String.leb effectiveFrom effectiveTo then effectiveTo else effectiveFrom in
      let filtered :=
        filter (fun d => String.leb f (date d) && String.leb (date d) t) sortedDaily in
      let dailyLookup := lookupOf sortedDaily in
      match aggFreq with
      | daily => Ret (dailyPoint dailyLookup <$> filtered)
      | rolling30 => rollingLoop e dailyLookup fuel f t []
      | _ => Ret (plainPoint <$> filtered)
      end
  end.

(** *** The other helpers of the component *)


(** [Number(v)] on a value that may be [undefined] *)
Definition numberOf (v : option json) : number :=
  match v with
  | Some j => ToNumber j
  | None => NaN
  end.

(** The argument is typed [unknown]; it is a value a chart hands over:
    [undefined] or a number, a string, [null], an array, an object. *)
Definition asFiniteNumber (v : option json) : option number :=
  let viaNumber := let n := numberOf v in if isFinite n then Some n else None in
  match v with
  | Some (JNum x) => if isFinite x then Some x else viaNumber
  | _ => viaNumber
  end.

(** *** The state of the component and what derives from it *)

(** [Array.from(dataMap.entries())] as records.  The list is only used
    sorted, and sorting makes the order of insertion immaterial. *)
Definition entries (dataMap : gmap string number) : list DailyPoint :=
  (fun kv => mkPoint kv.1 kv.2) <$> map_to_list dataMap.

(** the comparator [(a, b) => sortISO(a.date, b.date)] *)
Definition byDate (a b : DailyPoint) : Prop := isoLe (date a) (date b).

#[global] Instance byDate_dec : RelDecision byDate.
Proof. intros a b. unfold byDate. apply _. Defined.

Definition sortedDaily (dataMap : gmap string number) : list DailyPoint :=
  merge_sort byDate (entries dataMap).


Record MonthlyChartPoint : Type :=
  mkMonthlyChart {
    mc_month : string;
    total_units : option number;
    mc_yoy_pct : option number;
    mc_mom_pct : option number
  }.

#[global] Instance MonthlyChartPoint_eq_dec : EqDecision MonthlyChartPoint.
Proof. solve_decision. Defined.

(** [monthly.slice(Math.max(0, monthly.length - 24))], each row rounded *)
Definition monthlyForChart (rows : list MonthlyRecord) : list MonthlyChartPoint :=
  match rows with
  | [] => []
  | _ =>
      (fun m => mkMonthlyChart (month m) (round2 (Some (total_gwh m)))
                  (round2 (yoy_pct m)) (round2 (mom_pct m)))
        <$> drop (length rows - 24) rows
  end.

(** the part of the component state that the actions below touch: the
    objects allocated so far, the [Map] the state variable [dataMap] refers
    to, the message and the list of errors *)
Record State : Type :=
  mkState {
    st_heap : heap;
    st_dataMap : nat;
    st_msg : option string;
    st_errors : list string
  }.

(** what [importCSV] is called with: no file, a file whose text cannot be
    read, or a file with its text *)
Inductive fileArg : Type :=
  | NoFile
  | Unreadable
  | Readable (text : string).

Definition importedMessage (parsed : list DailyPoint) (errs : list string) : string :=
  "Imported " +:+ numberToString (ofZ (Z.of_nat (length parsed))) +:+ " rows" +:+
  (match errs with
   | [] => EmptyString
   | _ => " (with " +:+ numberToString (ofZ (Z.of_nat (length errs))) +:+ " issues)"
   end) +:+ ".".

Definition importCSV (e : engine) (st : State) (file : fileArg) : State :=
  let st := mkState (st_heap st) (st_dataMap st) None [] in
  match file with
  | NoFile => st
  | Unreadable => mkState (st_heap st) (st_dataMap st) (st_msg st) ["Could not read CSV."]
  | Readable text =>
      let '(parsed, errs) := csvParse e text in
      let st :=
        match errs with
        | [] => st
        | _ => mkState (st_heap st) (st_dataMap st) (st_msg st) (take 12 errs)
        end in
      match parsed with
      | [] =>
          mkState (st_heap st) (st_dataMap st) (st_msg st)
            (match st_errors st with
             | [] => ["No valid rows found in CSV."]
             | es => es
             end)
      | _ =>
          let '(h, next) := mergeRecords (st_heap st) (st_dataMap st) parsed in
          mkState h next (Some (importedMessage parsed errs)) (st_errors st)
      end
  end.

Definition exportLine (d : DailyPoint) : string :=
  formatDDMMYYYY (date d) +:+ "," +:+ numberToString (generation_gwh d).

(** the file name and the text [exportCSV] hands to [downloadCSV]; [now]
    is the current day *)
Definition exportCSV (now : Z) (sorted : list DailyPoint) : option (string * string) :=
  let header := "date,generation_gwh" in
  let lines := exportLine <$> sorted in
  stampText ← toISOString (Some now);
  Some ("india_generation_" +:+ slice 0 10 stampText +:+ ".csv",
        join (String LF EmptyString) (header :: lines)).

Definition sampleCSV : string :=
  join (String LF EmptyString)
    ["date,generation_gwh"; "18-12-2025,4140"; "19-12-2025,4215"; "20-12-2025,4198"].

Definition loadSample (e : engine) (st : State) : State :=
  let '(parsed, _) := csvParse e sampleCSV in
  let '(h, next) := mergeRecords (st_heap st) (st_dataMap st) parsed in
  mkState h next (Some "Loaded sample data.") (st_errors st).

End App.

(* ====================================================================== *)
(** * The second copy of the component

    The repository carries a shorter variant of the same component.  Its
    [clamp], [parseISOKey], [isoMinusDays] and [isoPlusDays] have the text
    of [src/App.tsx]; the functions below are the ones written differently. *)
(* ====================================================================== *)

Module Alt.
Import JS.

Definition parseISOKey := App.parseISOKey.
Definition isoMinusDays := App.isoMinusDays.
Definition isoPlusDays := App.isoPlusDays.

Definition parseInputDate (e : engine) (s : string) : option string :=
  let t := trim s in
  if displayPattern t then
    let parts := Number <$> split "-" t in
    let dd := parts !!! 0%nat in
    let mm := parts !!! 1%nat in
    let yyyy := parts !!! 2%nat in
    let d := Date_UTC yyyy (nsub mm (ofZ 1)) dd in
    if getTimeIsNaN d
       || strictNeq (getUTCFullYear d) yyyy
       || strictNeq (getUTCMonth d) (nsub mm (ofZ 1))
       || strictNeq (getUTCDate d) dd
    then None
    else Some (numberToString yyyy +:+ "-" +:+
               padStart 2 "0" (numberToString mm) +:+ "-" +:+
               padStart 2 "0" (numberToString dd))
  else if isoPattern t then parseISOKey e t
  else None.

Definition formatDDMMYYYY (iso : string) : string :=
  if String.eqb iso "" then App.dash
  else
    let ps := split "-" iso in
    App.part ps 2 +:+ "-" +:+ App.part ps 1 +:+ "-" +:+ App.part ps 0.

Definition growthPct (curr : number) (prev : option number) : option number :=
  match prev with
  | None => None
  | Some p =>
      if negb (truthy p) then None
      else Some (nmul (ndiv (nsub curr p) p) (ofZ 100))
  end.

Section Hydration.
Variable JSON_parse : string -> option json.

(** [Object.entries(null)] throws, and the [catch] returns an empty map *)
Definition hydrate (raw : option string) : gmap string number :=
  match raw with
  | None => ∅
  | Some r =>
      if String.eqb r "" then ∅
      else
        match JSON_parse r with
        | None | Some JNull => ∅
        | Some obj =>
            foldl (fun m kv => <[kv.1 := ToNumber kv.2]> m) ∅ (Object_entries obj)
        end
  end.
End Hydration.

(** [Number(x.toFixed(2))] on any number *)
Definition fixed2 (x : number) : number :=
  match x with
  | Fin q => Fin (toFixed2 q)
  | _ => x
  end.

(** [Number(r?.toFixed(2))]: an absent [r] gives [Number(undefined)] *)
Definition fixed2Opt (r : option number) : number :=
  match r with
  | Some x => fixed2 x
  | None => NaN
  end.

Definition dailyPoint (lookup : gmap string number) (d : App.DailyPoint) : App.ChartPoint :=
  let pyDate := App.sameDayPrevYear (App.date d) in
  let py := lookup !! pyDate in
  App.mkChart (formatDDMMYYYY (App.date d))
    (Some (fixed2 (App.generation_gwh d)))
    (match py with Some v => Some (fixed2 v) | None => None end)
    (match py with
     | Some v => Some (fixed2Opt (growthPct (App.generation_gwh d) (Some v)))
     | None => None
     end)
    None.

(** [for (let i = 0; i < 30; i++)] over the days [cur - i] *)
Fixpoint windowSum (e : engine) (lookup : gmap string number) (cur : string)
    (offsets : list Z) (sum : number) (cnt : nat) : App.run (number * nat) :=
  match offsets with
  | [] => App.Ret (sum, cnt)
  | i :: rest =>
      App.bind (App.orThrow (isoMinusDays e cur (ofZ i))) (fun d =>
        match lookup !! d with
        | Some v => windowSum e lookup cur rest (nadd sum v) (S cnt)
        | None => windowSum e lookup cur rest sum cnt
        end)
  end.

Definition rollingPoint (e : engine) (lookup : gmap string number) (cur : string)
  : App.run App.ChartPoint :=
  App.bind (windowSum e lookup cur (seqZ 0 30) (ofZ 0) 0%nat) (fun '(sum, cnt) =>
  App.bind (App.orThrow (isoMinusDays e cur (ofZ 365))) (fun prevEnd =>
  App.bind (windowSum e lookup prevEnd (seqZ 0 30) (ofZ 0) 0%nat) (fun '(prevSum, prevCnt) =>
  let has := negb (Nat.eqb cnt 0) in
  let prevHas := negb (Nat.eqb prevCnt 0) in
  App.Ret (App.mkChart (formatDDMMYYYY cur)
    (if has then Some (fixed2 sum) else None)
    (if prevHas then Some (fixed2 prevSum) else None)
    (if has && prevHas then Some (fixed2Opt (growthPct sum (Some prevSum))) else None)
    None)))).

Fixpoint rollingLoop (e : engine) (lookup : gmap string number) (fuel : nat)
    (cur t : string) (out : list App.ChartPoint) : App.run (list App.ChartPoint) :=
  match fuel with
  | O => App.NoFuel
  | S fuel' =>
      if String.leb cur t then
        App.bind (rollingPoint e lookup cur) (fun pt =>
        App.bind (App.orThrow (isoPlusDays e cur (ofZ 1))) (fun next =>
        rollingLoop e lookup fuel' next t (out ++ [pt])))
      else App.Ret out
  end.

Inductive frequency : Type := daily | rolling30.

Definition dailyForChart (e : engine) (fuel : nat) (sortedDaily : list App.DailyPoint)
    (fromIso toIso : string) (aggFreq : frequency) : App.run (list App.ChartPoint) :=
  match sortedDaily with
  | [] => App.Ret []
  | _ =>
      let f := fromIso in
      let t := toIso in
      let lookup := App.lookupOf sortedDaily in
      match aggFreq with
      | daily =>
          App.Ret (dailyPoint lookup <$>
                   filter (fun d => String.leb f (App.date d) && String.leb (App.date d) t)
                          sortedDaily)
      | rolling30 => rollingLoop e lookup fuel f t []
      end
  end.

(** *** The actions of the second copy *)

(** the part of the component state that the actions touch *)
Record State : Type :=
  mkState {
    st_heap : App.heap;
    st_dataMap : nat;
    st_date : string;
    st_gwh : string;
    st_msg : option string;
    st_errors : list string
  }.

(** [new Map(p).set(iso, val)] *)
Definition copyAndSet (h : App.heap) (p : nat) (iso : string) (val : number)
  : App.heap * nat :=
  let '(h1, next) := App.newMapFrom h p in
  (App.mapSet h1 next iso val, next).

Definition saveDay (e : engine) (st : State) : State :=
  let invalid (msgs : list string) :=
    mkState (st_heap st) (st_dataMap st) (st_date st) (st_gwh st) (st_msg st) msgs in
  match parseInputDate e (st_date st) with
  | None => invalid ["Invalid date (DD-MM-YYYY)"]
  | Some iso =>
      if String.eqb iso "" then invalid ["Invalid date (DD-MM-YYYY)"]
      else
        let val := Number (st_gwh st) in
        if negb (isFinite val) || nltb val (ofZ 0) then invalid ["Invalid units"]
        else
          let '(h, next) := copyAndSet (st_heap st) (st_dataMap st) iso val in
          mkState h next (st_date st) EmptyString
            (Some ("Saved " +:+ formatDDMMYYYY iso)) []
  end.

(** one turn of [rows.forEach]: the second column is [undefined] when the
    row has no comma *)
Definition importRow (e : engine) (next : nat) (h : App.heap) (r : string) : App.heap :=
  let cols := split "," r in
  let d := cols !!! 0%nat in
  let iso := parseInputDate e d in
  let num := match cols !! 1%nat with Some v => Number v | None => NaN end in
  match iso with
  | Some k =>
      if negb (String.eqb k "") && isFinite num then App.mapSet h next k num else h
  | None => h
  end.

(** a file whose text cannot be read leaves the state as it is: the
    rejection is not caught *)
Definition importCSV (e : engine) (st : State) (file : App.fileArg) : State :=
  match file with
  | App.Readable text =>
      let rows := drop 1 (splitLines text) in
      let '(h1, next) := App.newMapFrom (st_heap st) (st_dataMap st) in
      mkState (foldl (importRow e next) h1 rows) next
        (st_date st) (st_gwh st) (st_msg st) (st_errors st)
  | _ => st
  end.

End Alt.

(* ====================================================================== *)
(** * Notions used in the statements *)
(* ====================================================================== *)

Import JS.

(** ** Merging *)

(** the value of the last record of a batch that carries date [d] *)
Definition lastFor (d : string) (incoming : list App.DailyPoint) : option number :=
  App.generation_gwh <$> list.last (filter (fun r => App.date r = d) incoming).

(** the contents of a map after every record of a batch has been [set] *)
Definition setAll (m : gmap string number) (incoming : list App.DailyPoint)
  : gmap string number :=
  foldl (fun acc r => <[App.date r := App.generation_gwh r]> acc) m incoming.

(** ** Calendar dates *)

(** [d] is a day of month [m] of year [y] in the Gregorian calendar *)
Definition realDate (y m d : Z) : Prop :=
  1 <= m <= 12 /\ 1 <= d <= DaysInMonth y m.

(** the three fields of a text in display form *)
Definition dayField (t : string) : Z := digitsValue 0 (slice 0 2 t).
Definition monthField (t : string) : Z := digitsValue 0 (slice 3 5 t).
Definition yearField (t : string) : Z := digitsValue 0 (slice 6 10 t).

(** the key the display branch of [parseInputDate] prints *)
Definition isoText (y m d : Z) : string :=
  intToString y +:+ "-" +:+ padStart 2 "0" (intToString m) +:+ "-" +:+
  padStart 2 "0" (intToString d).

(** the display branch of [parseInputDate], on the three fields *)
Definition displayResult (y m d : Z) : option string :=
  match TimeClip (MakeDay (MakeFullYear y) (m - 1) d) with
  | None => None
  | Some x =>
      if Z.eqb (YearFromDay x) y && Z.eqb (MonthFromDay x) (m - 1) && Z.eqb (DateFromDay x) d
      then Some (isoText y m d) else None
  end.

(** characters of a date text: digits and dashes *)
Fixpoint dateChars (s : string) : bool :=
  match s with
  | String a r => (isDigit a || Ascii.eqb a "-") && dateChars r
  | EmptyString => true
  end.

(** ** CSV rows *)

(** the rows the row loop runs over: at least two columns, header removed *)
Definition consideredRows (text : string) : list (list string) :=
  App.stripHeader (App.csvRows text).

(** what each row gives, rows being numbered from [i] *)
Definition outcomesFrom (e : engine) (i : nat) (rows : list (list string))
  : list (App.DailyPoint + string) :=
  imap (fun j row => App.rowOutcome e (i + j) row) rows.





Definition recordsOf (os : list (App.DailyPoint + string)) : list App.DailyPoint :=
  omap (fun o => match o with inl r => Some r | inr _ => None end) os.

Definition messagesOf (os : list (App.DailyPoint + string)) : list string :=
  omap (fun o => match o with inl _ => None | inr m => Some m end) os.



(** ** Hydration *)

(** what hydration requires of an entry *)
Definition validEntry (e : engine) (k : string) (g : number) : Prop :=
  App.parseISOKey e k = Some k /\ isFinite g = true /\ nleb (ofZ 0) g = true.

Definition quote : string := String (chr 34) EmptyString.

(** a blob with one entry, whose key is not a date and whose value is
    negative, and a parser that reads it *)
Definition junkBlob : string := "{" +:+ quote +:+ "junk" +:+ quote +:+ ":-5}".

Definition junkParse (s : string) : option json :=
  if String.eqb s junkBlob then Some (JObj [("junk", JNum (ofZ (-5)))]) else None.

(** ** Stores used as examples *)

Definition ancientStore : list App.DailyPoint :=
  [App.mkPoint "0999-01-05" (ofZ 40); App.mkPoint "0999-02-05" (ofZ 50)].

(** February 2024: days 1-10 sum to 40, days 11-28 sum to 60 *)
Definition february2024 : list App.DailyPoint :=
  ((fun d => App.mkPoint ("2024-02-" +:+ pad 2 d) (ofZ 4)) <$> seqZ 1 10) ++
  ((fun d => App.mkPoint ("2024-02-" +:+ pad 2 d) (if Z.eqb d 11 then ofZ 9 else ofZ 3))
     <$> seqZ 11 18).

(** March 2024: days 1-10 sum to 50 *)
Definition march2024 : list App.DailyPoint :=
  (fun d => App.mkPoint ("2024-03-" +:+ pad 2 d) (ofZ 5)) <$> seqZ 1 10.

Definition januaryOnly : list App.DailyPoint := [App.mkPoint "2024-01-01" (ofZ 10)].


(** ** Digits, keys and months *)

Definition twoDigits (n : Z) : string :=
  String (digitChar (n / 10)) (String (digitChar (n mod 10)) EmptyString).

Definition fourDigits (n : Z) : string :=
  String (digitChar (n / 1000)) (String (digitChar (n / 100 mod 10))
    (String (digitChar (n / 10 mod 10)) (String (digitChar (n mod 10)) EmptyString))).

(** the key of day [d] of the month with key [mk] *)
Definition dayKey (mk : string) (d : Z) : string := mk +:+ "-" +:+ pad 2 d.

(** the day-of-month field of a key *)
Definition dayOf (s : string) : Z := digitsValue 0 (slice 8 10 s).

(** the values the store holds on days 1..k of month [mk], in day order *)
Definition monthValues (store : gmap string number) (mk : string) (d0 : Z) (n : nat)
  : list number :=
  omap (fun d => store !! dayKey mk d) (seqZ d0 (Z.of_nat n)).

(** the month-to-date-comparable sum: absent when none of the days is there *)
Definition comparableSum (store : gmap string number) (mk : string) (k : Z) : option number :=
  match monthValues store mk 1 (Z.to_nat k) with
  | [] => None
  | vs => Some (foldl nadd (ofZ 0) vs)
  end.

(** the points of a month, its total and its highest day *)
Definition inMonth (mk : string) (l : list App.DailyPoint) : list App.DailyPoint :=
  filter (fun p => App.monthKey (App.date p) = mk) l.

Definition monthTotal (mk : string) (l : list App.DailyPoint) : number :=
  foldl nadd (ofZ 0) (App.generation_gwh <$> inMonth mk l).

Definition monthMaxDay (mk : string) (l : list App.DailyPoint) : Z :=
  foldl Z.max 0 (dayOf ∘ App.date <$> inMonth mk l).

Definition bucket (map : gmap string App.MonthRec) (mk : string) (d : Z) : option number :=
  map !! mk ≫= fun r => App.byDay r !! ofZ d.

(** the year and month fields of a key, and the text of a month *)
Definition yearOf (s : string) : Z := digitsValue 0 (slice 0 4 s).
Definition monthOf (s : string) : Z := digitsValue 0 (slice 5 7 s).
Definition monthText (y m : Z) : string := pad 4 y +:+ "-" +:+ pad 2 m.

(** the calendar month before month [m] of year [y] *)
Definition previousMonth (y m : Z) : Z * Z :=
  if Z.eqb m 1 then (y - 1, 12) else (y, m - 1).

(** ** Days, keys and windows *)

(** the ISO key of a day number *)
Definition isoOfDay (x : Z) : string :=
  pad 4 (YearFromDay x) +:+ "-" +:+ pad 2 (MonthFromDay x + 1) +:+ "-" +:+
  pad 2 (DateFromDay x).

(** the day numbers of the years 0000 to 9999 *)
Definition inEra (x : Z) : Prop := DayFromYear 0 <= x < DayFromYear 10000.

(** year, month and day read as one number *)
Definition stamp (x : Z) : Z :=
  YearFromDay x * 10000 + (MonthFromDay x + 1) * 100 + DateFromDay x.

(** the values the store holds in the 30 days that end on day [d] *)
Definition windowValues (store : gmap string number) (d : Z) : list number :=
  omap (fun x => store !! isoOfDay x) (seqZ (d - 29) 30).

(** their sum, absent when the window has no contributing day *)
Definition windowSum (store : gmap string number) (d : Z) : option number :=
  match windowValues store d with
  | [] => None
  | vs => Some (foldl nadd (ofZ 0) vs)
  end.

(** the point of day [d] in [src/App.tsx] *)
Definition appPoint (store : gmap string number) (d : Z) : App.ChartPoint :=
  App.mkChart (App.formatDDMMYYYY (isoOfDay d))
    (App.round2 (Some (default (ofZ 0) (windowSum store d))))
    (match windowSum store (d - 365) with Some p => App.round2 (Some p) | None => None end)
    (match windowSum store d, windowSum store (d - 365) with
     | Some c, Some p => App.round2 (App.growthPct c (Some p))
     | _, _ => None
     end)
    None.

(** the same values from day [d] backwards, as the second copy reads them *)
Definition windowValuesBack (store : gmap string number) (d : Z) : list number :=
  omap (fun i => store !! isoOfDay (d - i)) (seqZ 0 30).

(** their sum in that order, absent when the window has no contributing day *)
Definition windowSumBack (store : gmap string number) (d : Z) : option number :=
  match windowValuesBack store d with
  | [] => None
  | vs => Some (foldl nadd (ofZ 0) vs)
  end.

(** the point of day [d] in the second copy *)
Definition altPoint (store : gmap string number) (d : Z) : App.ChartPoint :=
  App.mkChart (Alt.formatDDMMYYYY (isoOfDay d))
    (Alt.fixed2 <$> windowSumBack store d)
    (Alt.fixed2 <$> windowSumBack store (d - 365))
    (match windowSumBack store d, windowSumBack store (d - 365) with
     | Some c, Some p => Some (Alt.fixed2Opt (Alt.growthPct c (Some p)))
     | _, _ => None
     end)
    None.

(** ** Keys and the days they name *)

(** the day number a key names *)
Definition dayNumber (s : string) : Z := MakeDay (yearOf s) (monthOf s - 1) (dayOf s).

(** a key of the form YYYY-MM-DD that names a day of the calendar *)
Definition realKey (s : string) : Prop :=
  isoPattern s = true /\ realDate (yearOf s) (monthOf s) (dayOf s).

(** ** Rounding to hundredths *)

(** the rounding of a non-negative number below 10^21 *)
Definition hundredths (a : Qc) : Z := qfloor (a * qz 100 + Q2Qc (1 # 2))%Qc.

(** ** The characters of a text *)

(** character [c] occurs in [s] *)
Fixpoint occurs (c : ascii) (s : string) : bool :=
  match s with
  | String a r => Ascii.eqb a c || occurs c r
  | EmptyString => false
  end.

(** no character of [s] is white space *)
Fixpoint noSpace (s : string) : bool :=
  match s with
  | String a r => negb (isWhiteSpace a) && noSpace r
  | EmptyString => true
  end.

(** no character of [s] ends a line *)
Fixpoint noBreak (s : string) : bool :=
  match s with
  | String a r => negb (Ascii.eqb a LF) && negb (Ascii.eqb a CR) && noBreak r
  | EmptyString => true
  end.

(** ** Exported rows *)

(** a record that [exportCSV] prints in a form [csvParse] reads back: its
    key names a real day from the year 1000 on and its value is a whole
    number from 0 to 2^53 - 1 *)
Definition exportable (r : App.DailyPoint) : Prop :=
  realKey (App.date r) /\ 1000 <= yearOf (App.date r) /\
  exists n, 0 <= n <= 9007199254740991 /\ App.generation_gwh r = ofZ n.

(** the two columns of the row of a record *)
Definition exportRow (r : App.DailyPoint) : list string :=
  [App.formatDDMMYYYY (App.date r); numberToString (App.generation_gwh r)].

(** ** Chart rows *)

(** the row of the monthly chart for a row of the rollup *)
Definition chartRow (m : App.MonthlyRecord) : App.MonthlyChartPoint :=
  App.mkMonthlyChart (App.month m) (App.round2 (Some (App.total_gwh m)))
    (App.round2 (App.yoy_pct m)) (App.round2 (App.mom_pct m)).

(** the key of the same day and month one year before the day of key [s] *)
Definition prevYearDay (s : string) : string :=
  dayKey (monthText (yearOf s - 1) (monthOf s)) (dayOf s).

(** the point of a stored day in daily mode, in [src/App.tsx] and in the
    second copy *)
Definition appDaily (store : gmap string number) (r : App.DailyPoint) : App.ChartPoint :=
  let py := store !! prevYearDay (App.date r) in
  App.mkChart (App.formatDDMMYYYY (App.date r))
    (App.round2 (Some (App.generation_gwh r)))
    (py ≫= fun v => App.round2 (Some v))
    (App.round2 (App.growthPct (App.generation_gwh r) py))
    None.

Definition altDaily (store : gmap string number) (r : App.DailyPoint) : App.ChartPoint :=
  let py := store !! prevYearDay (App.date r) in
  App.mkChart (Alt.formatDDMMYYYY (App.date r))
    (Some (Alt.fixed2 (App.generation_gwh r)))
    (Alt.fixed2 <$> py)
    ((fun p => Alt.fixed2Opt (Alt.growthPct (App.generation_gwh r) (Some p))) <$> py)
    None.

(** ** Rows of the second copy's import, and the persisted object *)

(** what a row of the file does to the contents of the store *)
Definition storeRow (e : engine) (m : gmap string number) (r : string) : gmap string number :=
  let cols := split "," r in
  match Alt.parseInputDate e (cols !!! 0%nat) with
  | Some k =>
      let num := match cols !! 1%nat with Some v => Number v | None => NaN end in
      if negb (String.eqb k "") && isFinite num then <[k := num]> m else m
  | None => m
  end.

(** the object that holds the entries of a list *)
Definition objectOf (l : list (string * number)) : json :=
  JObj ((fun kv => (kv.1, JNum kv.2)) <$> l).

(** ** Proof steps used throughout *)

Ltac zlia := Z.div_mod_to_equations; lia.

(** a closed comparison of two character codes *)
Ltac outside := vm_compute; ((left; reflexivity) || (right; reflexivity)).

(** a closed decidable statement, settled by evaluation *)
Ltac by_compute := apply (bool_decide_unpack _); vm_compute; exact I.

(* ====================================================================== *)
(** * Numbers *)
(* ====================================================================== *)

Lemma isZero_true (q : Qc) : isZero q = true <-> q = 0%Qc.
Proof.
  unfold isZero. rewrite Z.eqb_eq. split.
  - intros H. apply Qc_is_canon. destruct q as [[n d] Hc]. simpl in *. subst n.
    reflexivity.
  - intros ->. reflexivity.
Qed.

Lemma isZero_false (q : Qc) : isZero q = false <-> q <> 0%Qc.
Proof.
  rewrite <- isZero_true. destruct (isZero q); split; congruence.
Qed.

Lemma growthPct_App_finite (c p : Qc) :
  p <> 0%Qc ->
  App.growthPct (Fin c) (Some (Fin p)) = Some (Fin ((c - p) / p * qz 100)%Qc).
Proof.
  intros Hp. apply isZero_false in Hp.
  unfold App.growthPct, App.safeDiv. simpl. rewrite Hp. simpl. reflexivity.
Qed.

Lemma growthPct_Alt_finite (c p : Qc) :
  p <> 0%Qc ->
  Alt.growthPct (Fin c) (Some (Fin p)) = Some (Fin ((c - p) / p * qz 100)%Qc).
Proof.
  intros Hp. apply isZero_false in Hp.
  unfold Alt.growthPct. simpl. rewrite Hp. simpl. reflexivity.
Qed.

Lemma this_qz z : this (qz z) = inject_Z z.
Proof.
  unfold qz, Q2Qc. simpl. apply Qred_identity. simpl. apply Z.gcd_1_r.
Qed.

Lemma qz_inj a b : qz a = qz b -> a = b.
Proof.
  intros H. apply (f_equal this) in H. rewrite !this_qz in H.
  by inversion H.
Qed.

Lemma qz_add a b : (qz a + qz b)%Qc = qz (a + b).
Proof.
  apply Qc_is_canon. unfold Qcplus. rewrite !this_qz.
  unfold Q2Qc. simpl this. rewrite Qred_correct.
  rewrite inject_Z_plus. reflexivity.
Qed.

Lemma qz_opp a : (- qz a)%Qc = qz (- a).
Proof.
  apply Qc_is_canon. unfold Qcopp. rewrite !this_qz.
  unfold Q2Qc. simpl this. rewrite Qred_correct. rewrite inject_Z_opp. reflexivity.
Qed.

Lemma qz_sub a b : (qz a - qz b)%Qc = qz (a - b).
Proof. unfold Qcminus. rewrite qz_opp, qz_add. reflexivity. Qed.

Lemma qtrunc_qz z : qtrunc (qz z) = z.
Proof. unfold qtrunc. rewrite this_qz. simpl. apply Z.quot_1_r. Qed.

Lemma isInteger_qz z : isInteger (qz z) = true.
Proof. unfold isInteger. rewrite this_qz. reflexivity. Qed.

Lemma numberToString_ofZ z : numberToString (ofZ z) = intToString z.
Proof.
  unfold numberToString, ofZ. rewrite isInteger_qz, this_qz. reflexivity.
Qed.

Lemma nsub_ofZ a b : nsub (ofZ a) (ofZ b) = ofZ (a - b).
Proof. unfold nsub, ofZ. simpl. f_equal. apply qz_sub. Qed.

Lemma nadd_ofZ a b : nadd (ofZ a) (ofZ b) = ofZ (a + b).
Proof. unfold ofZ. simpl. f_equal. apply qz_add. Qed.

Lemma ofZ_inj a b : ofZ a = ofZ b -> a = b.
Proof. unfold ofZ. intros H. apply qz_inj. congruence. Qed.

Lemma strictNeq_ofZ a b : strictNeq (ofZ a) (ofZ b) = negb (Z.eqb a b).
Proof.
  unfold strictNeq, ofZ. destruct (Z.eqb_spec a b) as [->|Hne]; simpl.
  - by rewrite bool_decide_eq_true_2.
  - rewrite bool_decide_eq_false_2; [done|]. intros E. by apply ofZ_inj in E.
Qed.


Lemma isDigit_code a : isDigit a = true -> 48 <= code a <= 57.
Proof. unfold isDigit. cbv zeta. lia. Qed.

Lemma eqb_code a b : Ascii.eqb a b = true -> code a = code b.
Proof. intros H. apply Ascii.eqb_eq in H. by subst. Qed.

Lemma digit_neq a (c : ascii) :
  isDigit a = true -> (code c < 48 \/ 57 < code c) -> Ascii.eqb a c = false.
Proof.
  intros Hd Hc. apply isDigit_code in Hd.
  destruct (Ascii.eqb a c) eqn:E; [|done]. apply eqb_code in E. lia.
Qed.

Lemma digit_not_space a : isDigit a = true -> isWhiteSpace a = false.
Proof.
  intros Hd. apply isDigit_code in Hd. unfold isWhiteSpace. cbv zeta. lia.
Qed.

Lemma digitVal_range a : isDigit a = true -> 0 <= digitVal a <= 9.
Proof. intros Hd. apply isDigit_code in Hd. unfold digitVal. lia. Qed.

Lemma trimEnd_digits s : allDigits s = true -> trimEnd s = s.
Proof.
  induction s as [|a s IH]; [done|]. simpl. intros [Ha Hs]%andb_true_iff.
  rewrite IH by done. destruct s; [|done]. by rewrite digit_not_space.
Qed.

Lemma trim_digits s : allDigits s = true -> trim s = s.
Proof.
  intros H. unfold trim. destruct s as [|a s]; [done|].
  simpl in H. apply andb_true_iff in H as [Ha Hs].
  simpl trimStart. rewrite digit_not_space by done.
  apply trimEnd_digits. simpl. by rewrite Ha, Hs.
Qed.

Lemma spanDigits_all s : allDigits s = true -> spanDigits s = (s, EmptyString).
Proof.
  induction s as [|a s IH]; [done|]. simpl. intros [Ha Hs]%andb_true_iff.
  by rewrite Ha, IH.
Qed.

Lemma append_empty_r s : s +:+ "" = s.
Proof. induction s; simpl; [done|]. unfold String.app in *. simpl. by f_equal. Qed.

Lemma pow10_0 : pow10 0 = 1%Qc.
Proof. apply Qc_is_canon. reflexivity. Qed.

Lemma nonDecimal_digits a b s :
  isDigit b = true -> nonDecimalLiteral (String a (String b s)) = None.
Proof.
  intros Hb. unfold nonDecimalLiteral.
  assert (forall c, (code c < 48 \/ 57 < code c) -> Ascii.eqb b c = false) as Hn
    by (intros; by apply digit_neq).
  destruct (Ascii.eqb a "0") eqn:E0.
  - apply Ascii.eqb_eq in E0. subst a. destruct s; [done|].
    rewrite !Hn by outside. reflexivity.
  - apply Ascii.eqb_neq in E0.
    destruct a as [[] [] [] [] [] [] [] []]; try reflexivity; try (destruct s; reflexivity).
    by contradiction E0.
Qed.

Lemma digitsValue_acc s : forall a,
  digitsValue a s = a * 10 ^ Z.of_nat (String.length s) + digitsValue 0 s.
Proof.
  induction s as [|c s IH]; intros a; cbn [digitsValue String.length].
  - change (10 ^ Z.of_nat 0) with 1. lia.
  - rewrite IH, (IH (0 * 10 + digitVal c)). rewrite Nat2Z.inj_succ, Z.pow_succ_r by lia. lia.
Qed.

Lemma digitsValue_bound s :
  allDigits s = true -> 0 <= digitsValue 0 s < 10 ^ Z.of_nat (String.length s).
Proof.
  induction s as [|c s IH]; cbn [allDigits digitsValue String.length].
  - intros _. change (10 ^ Z.of_nat 0) with 1. lia.
  - intros [Hc Hs]%andb_true_iff. specialize (IH Hs). apply digitVal_range in Hc.
    rewrite digitsValue_acc, Nat2Z.inj_succ, Z.pow_succ_r by lia. nia.
Qed.

Lemma readValue_nat z : 0 <= z < overflowZ -> readValue (qz z) = ofZ z.
Proof.
  intros Hz. unfold readValue. cbv zeta.
  assert (qltb (qz z) (qz 0) = false) as ->.
  { apply negb_false_iff. apply Qle_bool_iff. rewrite !this_qz. rewrite <- Zle_Qle. lia. }
  assert (qleb (qz overflowZ) (qz z) = false) as ->.
  { apply not_true_iff_false. intros H. apply Qle_bool_iff in H.
    rewrite !this_qz in H. rewrite <- Zle_Qle in H. lia. }
  destruct (qleb (qz z * qz (2 ^ 1075))%Qc (qz 1)) eqn:E; [|reflexivity].
  apply Qle_bool_iff in E. unfold Qcmult, Q2Qc in E. cbn [this] in E.
  rewrite Qred_correct in E. fold (qz 1) in E.
  change (Qred (inject_Z z)) with (this (qz z)) in E.
  change (Qred (inject_Z (2 ^ 1075))) with (this (qz (2 ^ 1075))) in E.
  rewrite !this_qz, <- inject_Z_mult in E.
  rewrite <- Zle_Qle in E. assert (z = 0) as -> by nia. reflexivity.
Qed.

Lemma Number_digits_value s :
  allDigits s = true -> (2 <= String.length s)%nat -> digitsValue 0 s < overflowZ ->
  Number s = ofZ (digitsValue 0 s).
Proof.
  intros Hs Hl Hv. unfold Number. rewrite trim_digits by done.
  destruct s as [|a [|b s]]; simpl in Hl; [lia|lia|].
  pose proof Hs as Hs'. simpl in Hs'. apply andb_true_iff in Hs' as [Ha Hs'].
  apply andb_true_iff in Hs' as [Hb Hs'].
  replace (String.eqb (String a (String b s)) "") with false by done.
  rewrite nonDecimal_digits by done.
  unfold strDecimalLiteral.
  assert ((let '(neg, u) :=
            match String a (String b s) with
            | String "+" r => (false, r)
            | String "-" r => (true, r)
            | _ => (false, String a (String b s))
            end in (neg, u)) = (false, String a (String b s))) as E.
  { pose proof (digit_neq a "+" Ha ltac:(outside)) as H1.
    pose proof (digit_neq a "-" Ha ltac:(outside)) as H2.
    destruct a as [[] [] [] [] [] [] [] []]; try reflexivity; discriminate. }
  revert E.
  destruct (match String a (String b s) with
            | String "+" r => (false, r)
            | String "-" r => (true, r)
            | _ => (false, String a (String b s))
            end) as [neg u].
  intros [= -> ->].
  assert (String.eqb (String a (String b s)) "Infinity" = false) as ->.
  { simpl. by rewrite (digit_neq a "I" Ha ltac:(outside)). }
  unfold unsignedDecimal. rewrite spanDigits_all by done.
  replace (String.eqb (String a (String b s)) "") with false by done.
  cbn [andb]. rewrite append_empty_r. simpl String.length. simpl Z.of_nat. simpl Z.opp.
  change (- Z.of_nat 0) with 0. rewrite pow10_0, Qcmult_1_r.
  apply readValue_nat. pose proof (digitsValue_bound _ Hs). lia.
Qed.

Lemma Number_digits s :
  allDigits s = true -> (2 <= String.length s <= 300)%nat ->
  Number s = ofZ (digitsValue 0 s).
Proof.
  intros Hs [Hl Hu]. apply Number_digits_value; [done|done|].
  pose proof (digitsValue_bound _ Hs) as [_ Hb].
  assert (10 ^ Z.of_nat (String.length s) <= 10 ^ 300)
    by (apply Z.pow_le_mono_r; lia).
  assert (10 ^ 300 < overflowZ) by (vm_compute; reflexivity).
  lia.
Qed.

(** numerals beyond the range of binary64 *)
Lemma Number_out_of_range :
  Number "1e400" = PInf /\ Number "-1e400" = NInf /\ Number "1e-400" = ofZ 0 /\
  isFinite (Number "1e308") = true.
Proof. repeat split; by_compute. Qed.

(* ====================================================================== *)
(** * Growth percentage *)
(* ====================================================================== *)

Lemma growthPct_formula (c p : Qc) :
  p <> 0%Qc ->
  nmul (ndiv (nsub (Fin c) (Fin p)) (Fin p)) (ofZ 100) = Fin ((c - p) / p * qz 100)%Qc.
Proof.
  intros Hp. apply isZero_false in Hp. cbn [nsub nneg nadd ndiv]. rewrite Hp. reflexivity.
Qed.

(** C3, as amended: for a finite [curr], [growthPct] returns null when
    [prev] is absent or zero, and in the second copy, whose guard is
    [!prev], also when [prev] is NaN; in every other case it returns
    [(curr - prev) / prev * 100], so the quotient is only taken by a
    divisor that is not zero.  The statement is about the guard and the
    expression; it says nothing on the size of the quotient. *)
Theorem growthPct_guarded (c : Qc) :
  (forall prev,
     App.growthPct (Fin c) prev = None <-> prev = None \/ prev = Some (Fin 0%Qc)) /\
  (forall prev,
     Alt.growthPct (Fin c) prev = None <->
     prev = None \/ prev = Some (Fin 0%Qc) \/ prev = Some NaN) /\
  (forall prev r,
     App.growthPct (Fin c) prev = Some r \/ Alt.growthPct (Fin c) prev = Some r ->
     exists p, prev = Some p /\ p <> Fin 0%Qc /\
               r = nmul (ndiv (nsub (Fin c) p) p) (ofZ 100)).
Proof.
  split; [|split].
  - intros [[p| | |]|]; try (split; [discriminate|intros [E|E]; discriminate E]);
      [|split; [by left|done]].
    destruct (decide (p = 0%Qc)) as [->|Hp].
    + split; [by right|reflexivity].
    + rewrite growthPct_App_finite by done.
      split; [discriminate|]. intros [E|E]; [discriminate E|]. by injection E.
  - intros [[p| | |]|];
      try (split; [discriminate|intros [E|[E|E]]; discriminate E]).
    + destruct (decide (p = 0%Qc)) as [->|Hp].
      * split; [intros _; right; by left|reflexivity].
      * rewrite growthPct_Alt_finite by done.
        split; [discriminate|]. intros [E|[E|E]]; try discriminate E. by injection E.
    + split; [intros _; right; by right|reflexivity].
    + split; [by left|reflexivity].
  - intros [[p| | |]|] r.
    + destruct (decide (p = 0%Qc)) as [->|Hp]; [intros [H|H]; discriminate H|].
      rewrite growthPct_App_finite, growthPct_Alt_finite by done.
      intros H. exists (Fin p). split; [done|]. split; [congruence|].
      rewrite growthPct_formula by done. destruct H as [H|H]; by injection H.
    + intros H. exists PInf. split; [done|]. split; [discriminate|].
      destruct H as [H|H]; injection H as <-; reflexivity.
    + intros H. exists NInf. split; [done|]. split; [discriminate|].
      destruct H as [H|H]; injection H as <-; reflexivity.
    + intros [H|H]; [|discriminate H]. exists NaN. split; [done|]. split; [discriminate|].
      injection H as <-; reflexivity.
    + intros [H|H]; discriminate H.
Qed.

Lemma growthPct_guarded_witness :
  exists p, Some (ofZ 40) = Some p /\ p <> Fin 0%Qc /\
            Fin ((qz 50 - qz 40) / qz 40 * qz 100)%Qc =
            nmul (ndiv (nsub (Fin (qz 50)) p) p) (ofZ 100).
Proof.
  apply (proj2 (proj2 (growthPct_guarded (qz 50))) (Some (ofZ 40))).
  left. apply growthPct_App_finite. vm_compute. discriminate.
Defined.

(** C3, as stated, fails in the second copy: a NaN [prev] is neither zero
    nor absent, and the copy returns null, not the value of the
    expression. *)
Lemma growthPct_second_copy_refuses_NaN :
  ~ (forall c prev, prev <> None -> prev <> Some (Fin 0%Qc) ->
       exists p, prev = Some p /\
                 Alt.growthPct (Fin c) prev =
                 Some (nmul (ndiv (nsub (Fin c) p) p) (ofZ 100))).
Proof.
  intros H.
  destruct (H (qz 50) (Some NaN)) as (p & _ & E); [discriminate|discriminate|].
  discriminate E.
Qed.

(* ====================================================================== *)
(** * Merging records into the store *)
(* ====================================================================== *)

Lemma lastFor_cons d r inc :
  lastFor d (r :: inc) =
  match lastFor d inc with
  | Some v => Some v
  | None => if decide (App.date r = d) then Some (App.generation_gwh r) else None
  end.
Proof.
  unfold lastFor. rewrite filter_cons. case_decide as Hd.
  - rewrite last_cons. destruct (list.last _); reflexivity.
  - destruct (list.last _); reflexivity.
Qed.

Lemma setAll_lookup inc : forall m d,
  setAll m inc !! d = match lastFor d inc with Some v => Some v | None => m !! d end.
Proof.
  induction inc as [|r inc IH]; intros m d; [reflexivity|].
  unfold setAll in *. simpl. rewrite IH, lastFor_cons.
  destruct (lastFor d inc); [reflexivity|].
  case_decide as Hd.
  - subst d. apply lookup_insert_eq.
  - by apply lookup_insert_ne.
Qed.

Lemma setAll_dom inc : forall m, dom m ⊆ dom (setAll m inc).
Proof.
  induction inc as [|r inc IH]; intros m; [done|].
  unfold setAll in *. simpl. etrans; [|apply IH]. rewrite dom_insert. set_solver.
Qed.

Lemma mapSet_fold (l : nat) inc : forall (h : App.heap) m,
  h !! l = Some m ->
  foldl (fun hp r => App.mapSet hp l (App.date r) (App.generation_gwh r)) h inc =
  <[l := setAll m inc]> h.
Proof.
  induction inc as [|r inc IH]; intros h m Hl; simpl.
  - symmetry. by apply insert_id.
  - assert (App.mapSet h l (App.date r) (App.generation_gwh r) =
            <[l := <[App.date r := App.generation_gwh r]> m]> h) as ->.
    { unfold App.mapSet. by rewrite Hl. }
    rewrite (IH _ (<[App.date r := App.generation_gwh r]> m)) by apply lookup_insert_eq.
    by rewrite insert_insert_eq.
Qed.

Lemma mergeRecords_eq (h : App.heap) existing m inc :
  h !! existing = Some m ->
  App.mergeRecords h existing inc =
  (<[fresh (dom h) := setAll m inc]> h, fresh (dom h)).
Proof.
  intros He. unfold App.mergeRecords, App.newMapFrom. rewrite He. simpl.
  rewrite (mapSet_fold _ _ _ m) by apply lookup_insert_eq.
  by rewrite insert_insert_eq.
Qed.

Lemma fresh_heap (h : App.heap) : h !! fresh (dom h) = None.
Proof. apply not_elem_of_dom, is_fresh. Qed.

(** C6: merging maps every date of the batch to the value of the last batch
    record for that date and every other date to its prior value, removes
    no entry, and returns a newly allocated map: no object of the caller's
    heap, the prior store included, is changed.  Merging a later batch on
    top leaves the later batch's value at each date it sets. *)
Theorem mergeRecords_last_write_wins (h : App.heap) (existing : nat)
    (m : gmap string number) (incoming : list App.DailyPoint) :
  h !! existing = Some m ->
  exists h' next m',
    App.mergeRecords h existing incoming = (h', next) /\
    h !! next = None /\ next <> existing /\
    (forall l v, h !! l = Some v -> h' !! l = Some v) /\
    h' !! existing = Some m /\
    h' !! next = Some m' /\
    (forall d, m' !! d =
               match lastFor d incoming with Some v => Some v | None => m !! d end) /\
    dom m ⊆ dom m' /\
    (forall later d v,
        lastFor d later = Some v ->
        exists h'' next' m'',
          App.mergeRecords h' next later = (h'', next') /\
          h'' !! next' = Some m'' /\ m'' !! d = Some v).
Proof.
  intros He. pose proof (fresh_heap h) as Hf.
  assert (fresh (dom h) <> existing) as Hne by (intros E; rewrite E in Hf; congruence).
  exists (<[fresh (dom h) := setAll m incoming]> h), (fresh (dom h)), (setAll m incoming).
  split; [by apply mergeRecords_eq|].
  split; [done|]. split; [done|].
  split. { intros l v Hl. rewrite lookup_insert_ne; [done|]. intros E. congruence. }
  split. { by rewrite lookup_insert_ne. }
  split. { apply lookup_insert_eq. }
  split. { apply setAll_lookup. }
  split. { apply setAll_dom. }
  intros later d v Hv.
  set (h1 := <[fresh (dom h) := setAll m incoming]> h).
  exists (<[fresh (dom h1) := setAll (setAll m incoming) later]> h1), (fresh (dom h1)),
         (setAll (setAll m incoming) later).
  split. { apply mergeRecords_eq. apply lookup_insert_eq. }
  split. { apply lookup_insert_eq. }
  by rewrite setAll_lookup, Hv.
Qed.

Lemma mergeRecords_last_write_wins_witness :
  exists h' next m',
    App.mergeRecords {[ 0%nat := {[ "2025-01-01" := ofZ 1 ]} ]} 0
      [App.mkPoint "2025-01-01" (ofZ 2); App.mkPoint "2025-01-02" (ofZ 3)] = (h', next) /\
    h' !! 0%nat = Some {[ "2025-01-01" := ofZ 1 ]} /\
    h' !! next = Some m' /\
    m' !! "2025-01-01" = Some (ofZ 2).
Proof.
  destruct (mergeRecords_last_write_wins {[ 0%nat := {[ "2025-01-01" := ofZ 1 ]} ]} 0%nat
              {[ "2025-01-01" := ofZ 1 ]}
              [App.mkPoint "2025-01-01" (ofZ 2); App.mkPoint "2025-01-02" (ofZ 3)])
    as (h' & next & m' & Hm & _ & _ & _ & He & Hn & Hl & _).
  { reflexivity. }
  exists h', next, m'. split; [exact Hm|]. split; [exact He|]. split; [exact Hn|].
  rewrite Hl. reflexivity.
Defined.

(* ====================================================================== *)
(** * The calendar *)
(* ====================================================================== *)

Lemma DayFromYear_step y : DayFromYear (y + 1) = DayFromYear y + DaysInYear y.
Proof.
  unfold DayFromYear, DaysInYear.
  destruct (Z.eqb_spec (y mod 4) 0), (Z.eqb_spec (y mod 100) 0), (Z.eqb_spec (y mod 400) 0);
    cbn [andb orb negb]; zlia.
Qed.

Lemma DaysInYear_cases y : DaysInYear y = 365 \/ DaysInYear y = 366.
Proof. unfold DaysInYear. destruct (_ && _); auto. Qed.

Lemma YearFromDay_spec d :
  DayFromYear (YearFromDay d) <= d < DayFromYear (YearFromDay d + 1).
Proof.
  unfold YearFromDay.
  set (y := 1970 + d * 400 / 146097).
  assert (DayFromYear (y - 1) <= d) as Hlo by (unfold DayFromYear, y; zlia).
  assert (d < DayFromYear (y + 2)) as Hhi by (unfold DayFromYear, y; zlia).
  destruct (Z.leb_spec (DayFromYear (y + 1)) d).
  - replace (y + 1 + 1) with (y + 2) by lia. lia.
  - destruct (Z.leb_spec (DayFromYear y) d).
    + lia.
    + replace (y - 1 + 1) with y by lia. lia.
Qed.

Lemma DayFromYear_mono y y' : y <= y' -> DayFromYear y <= DayFromYear y'.
Proof. unfold DayFromYear. zlia. Qed.

Lemma YearFromDay_unique d y :
  DayFromYear y <= d < DayFromYear (y + 1) -> YearFromDay d = y.
Proof.
  intros H. pose proof (YearFromDay_spec d) as S.
  destruct (Z.lt_trichotomy (YearFromDay d) y) as [Hlt|[->|Hgt]]; [|done|].
  - pose proof (DayFromYear_mono (YearFromDay d + 1) y ltac:(lia)). lia.
  - pose proof (DayFromYear_mono (y + 1) (YearFromDay d) ltac:(lia)). lia.
Qed.

Lemma DayWithinYear_range d :
  0 <= DayWithinYear d < DaysInYear (YearFromDay d).
Proof.
  unfold DayWithinYear. pose proof (YearFromDay_spec d) as S.
  rewrite DayFromYear_step in S. lia.
Qed.

Lemma leapDay_cases y :
  (leapDay y = 0 /\ DaysInYear y = 365) \/ (leapDay y = 1 /\ DaysInYear y = 366).
Proof.
  unfold leapDay. destruct (DaysInYear_cases y) as [-> | ->]; simpl; auto.
Qed.

(** every day number decomposes into a real calendar date *)

Lemma civil_valid d :
  0 <= MonthFromDay d <= 11 /\
  1 <= DateFromDay d <= DaysInMonth (YearFromDay d) (MonthFromDay d + 1).
Proof.
  unfold DateFromDay, MonthFromDay.
  pose proof (DayWithinYear_range d) as R.
  set (n := DayWithinYear d) in *. set (y := YearFromDay d) in *.
  destruct (leapDay_cases y) as [[HL HY] | [HL HY]]; rewrite HY in R;
    unfold DaysInMonth; rewrite HL;
    repeat (match goal with |- context [?a <? ?b] => destruct (Z.ltb_spec a b) end);
    simpl; lia.
Qed.

(** a real calendar date is the decomposition of its day number *)

Lemma MakeDay_civil y m dt :
  1 <= m <= 12 -> 1 <= dt <= DaysInMonth y m ->
  YearFromDay (MakeDay y (m - 1) dt) = y /\
  MonthFromDay (MakeDay y (m - 1) dt) = m - 1 /\
  DateFromDay (MakeDay y (m - 1) dt) = dt.
Proof.
  intros Hm Hd.
  assert (MakeDay y (m - 1) dt = DayFromYear y + monthStart (m - 1) (leapDay y) + dt - 1) as E.
  { unfold MakeDay. replace ((m - 1) / 12) with 0 by zlia.
    replace ((m - 1) mod 12) with (m - 1) by zlia. by rewrite Z.add_0_r. }
  assert (YearFromDay (MakeDay y (m - 1) dt) = y) as HY.
  { apply YearFromDay_unique. rewrite E, DayFromYear_step.
    destruct (leapDay_cases y) as [[HL HD] | [HL HD]]; rewrite HD; unfold DaysInMonth in Hd;
      rewrite HL in *;
      assert (m = 1 \/ m = 2 \/ m = 3 \/ m = 4 \/ m = 5 \/ m = 6 \/ m = 7 \/ m = 8 \/
              m = 9 \/ m = 10 \/ m = 11 \/ m = 12) as Hc by lia;
      destruct Hc as [->|[->|[->|[->|[->|[->|[->|[->|[->|[->|[->| ->]]]]]]]]]]];
      simpl in *; lia. }
  split; [exact HY|].
  unfold DateFromDay, MonthFromDay, DayWithinYear. rewrite HY. rewrite E.
  destruct (leapDay_cases y) as [[HL HD] | [HL HD]]; unfold DaysInMonth in Hd;
    rewrite HL in *;
    assert (m = 1 \/ m = 2 \/ m = 3 \/ m = 4 \/ m = 5 \/ m = 6 \/ m = 7 \/ m = 8 \/
            m = 9 \/ m = 10 \/ m = 11 \/ m = 12) as Hc by lia;
    destruct Hc as [->|[->|[->|[->|[->|[->|[->|[->|[->|[->|[->| ->]]]]]]]]]]];
    simpl in *;
    repeat (match goal with |- context [?a <? ?b] => destruct (Z.ltb_spec a b); try lia end);
    simpl; lia.
Qed.

(** the day number is rebuilt from its decomposition *)

Lemma MakeDay_of_civil d :
  MakeDay (YearFromDay d) (MonthFromDay d) (DateFromDay d) = d.
Proof.
  pose proof (civil_valid d) as [Hm _].
  unfold MakeDay. replace (MonthFromDay d / 12) with 0 by zlia.
  replace (MonthFromDay d mod 12) with (MonthFromDay d) by zlia.
  unfold DateFromDay, DayWithinYear. rewrite Z.add_0_r. lia.
Qed.

(* ====================================================================== *)
(** * Parsing and formatting dates *)
(* ====================================================================== *)

Lemma split_eq c r : split c (String c r) = EmptyString :: split c r.
Proof. simpl. by rewrite Ascii.eqb_refl. Qed.

Lemma split_neq c a r :
  Ascii.eqb a c = false -> split c (String a r) = consHead a (split c r).
Proof. intros H. simpl. by rewrite H. Qed.

Lemma display_fields t :
  displayPattern t = true ->
  Number <$> split "-" t = [ofZ (dayField t); ofZ (monthField t); ofZ (yearField t)].
Proof.
  intros H.
  do 10 (destruct t as [|? t]; [discriminate|]). destruct t; [|discriminate].
  unfold displayPattern in H.
  do 9 (apply andb_true_iff in H as [H ?]).
  repeat match goal with
         | E : Ascii.eqb _ "-" = true |- _ => apply Ascii.eqb_eq in E; subst
         end.
  assert (forall a, isDigit a = true -> Ascii.eqb a "-" = false) as Hn
    by (intros; apply digit_neq; [done|outside]).
  cbn [split].
  repeat match goal with
         | Hd : isDigit ?a = true |- context [Ascii.eqb ?a "-"] => rewrite (Hn a Hd)
         end.
  rewrite Ascii.eqb_refl.
  cbn [split consHead fmap list_fmap].
  unfold dayField, monthField, yearField. cbn [slice substring Nat.sub].
  rewrite !Number_digits; [reflexivity|..]; cbn [allDigits String.length]; try lia;
    repeat match goal with
           | Hd : isDigit ?a = true |- context [isDigit ?a] => rewrite Hd
           end; reflexivity.
Qed.

Lemma parseInputDate_display e s :
  displayPattern (trim s) = true ->
  App.parseInputDate e s =
  displayResult (yearField (trim s)) (monthField (trim s)) (dayField (trim s)).
Proof.
  intros H. unfold App.parseInputDate. cbv zeta. rewrite H.
  rewrite (display_fields _ H).
  change ([ofZ (dayField (trim s)); ofZ (monthField (trim s)); ofZ (yearField (trim s))] !!! 0%nat)
    with (ofZ (dayField (trim s))).
  change ([ofZ (dayField (trim s)); ofZ (monthField (trim s)); ofZ (yearField (trim s))] !!! 1%nat)
    with (ofZ (monthField (trim s))).
  change ([ofZ (dayField (trim s)); ofZ (monthField (trim s)); ofZ (yearField (trim s))] !!! 2%nat)
    with (ofZ (yearField (trim s))).
  rewrite nsub_ofZ. unfold displayResult, Date_UTC, ofZ. rewrite !qtrunc_qz.
  destruct (TimeClip _) as [x|]; [|reflexivity].
  cbn [getTimeIsNaN getUTCFullYear getUTCMonth getUTCDate].
  fold (ofZ (YearFromDay x)) (ofZ (MonthFromDay x)) (ofZ (DateFromDay x))
       (ofZ (yearField (trim s))) (ofZ (monthField (trim s) - 1)) (ofZ (dayField (trim s)))
       (ofZ (monthField (trim s))).
  rewrite !strictNeq_ofZ, !numberToString_ofZ.
  destruct (Z.eqb _ _), (Z.eqb _ _), (Z.eqb _ _); reflexivity.
Qed.

Lemma parseInputDate_Alt e s : Alt.parseInputDate e s = App.parseInputDate e s.
Proof.
  unfold Alt.parseInputDate, App.parseInputDate, Alt.parseISOKey. cbv zeta.
  destruct (displayPattern (trim s)); [|reflexivity].
  destruct (getTimeIsNaN _); [reflexivity|]. cbn [orb].
  destruct (strictNeq _ _), (strictNeq _ _), (strictNeq _ _); reflexivity.
Qed.

Lemma displayResult_real y m d iso :
  displayResult y m d = Some iso ->
  realDate y m d /\ iso = isoText y m d /\
  YearFromDay (MakeDay y (m - 1) d) = y /\
  MonthFromDay (MakeDay y (m - 1) d) = m - 1 /\
  DateFromDay (MakeDay y (m - 1) d) = d.
Proof.
  unfold displayResult. destruct (TimeClip _) as [x|] eqn:Hx; [|discriminate].
  destruct (Z.eqb_spec (YearFromDay x) y) as [Hy|]; [|discriminate].
  destruct (Z.eqb_spec (MonthFromDay x) (m - 1)) as [Hm|]; [|discriminate].
  destruct (Z.eqb_spec (DateFromDay x) d) as [Hd|]; [|discriminate].
  cbn [andb]. intros [= <-].
  pose proof (civil_valid x) as [Hmr Hdr].
  rewrite Hy, Hm, Hd in *. replace (m - 1 + 1) with m in Hdr by lia.
  assert (realDate y m d) as Hreal by (unfold realDate; lia).
  split; [exact Hreal|]. split; [reflexivity|].
  destruct Hreal. by apply MakeDay_civil.
Qed.

Lemma parseISOKey_same e s d : App.parseISOKey e s = Some d -> d = s.
Proof.
  unfold App.parseISOKey. cbv zeta. destruct (negb _); [discriminate|].
  destruct (getTimeIsNaN _); [discriminate|]. congruence.
Qed.

(** C9: the round trip through [parseInputDate] and [formatDDMMYYYY] breaks
    before year 1000.  The key is printed without padding the year, so
    01-01-0999 parses to 999-01-01, which formats to the marker (to
    01-01-999 in the second copy); a year below 100 is moved into the 1900s
    by [Date.UTC] and the date is refused. *)
Lemma display_round_trip_breaks_before_1000 (e : engine) :
  displayPattern "01-01-0999" = true /\ realDate 999 1 1 /\
  App.parseInputDate e "01-01-0999" = Some "999-01-01" /\
  App.formatDDMMYYYY "999-01-01" = App.dash /\
  Alt.formatDDMMYYYY "999-01-01" = "01-01-999" /\
  displayPattern "01-01-0050" = true /\ realDate 50 1 1 /\
  App.parseInputDate e "01-01-0050" = None.
Proof.
  repeat split; try (vm_compute; reflexivity); try (destruct e; vm_compute; reflexivity);
    try (vm_compute; discriminate).
Qed.

(* ====================================================================== *)
(** * CSV import *)
(* ====================================================================== *)

Lemma csvLoop_outcomes e rows : forall i parsed errors,
  App.csvLoop e i rows parsed errors =
  ((parsed ++ recordsOf (outcomesFrom e i rows))%list,
   (errors ++ messagesOf (outcomesFrom e i rows))%list).
Proof.
  induction rows as [|row rows IH]; intros i parsed errors.
  - simpl. by rewrite !app_nil_r.
  - cbn [App.csvLoop]. unfold outcomesFrom. rewrite imap_cons. rewrite Nat.add_0_r.
    assert (imap ((fun j row0 => App.rowOutcome e (i + j) row0) ∘ S) rows =
            outcomesFrom e (S i) rows) as ->.
    { unfold outcomesFrom. apply imap_ext. intros j x _. simpl. f_equal. lia. }
    destruct (App.rowOutcome e i row) as [r|msg]; rewrite IH; cbn [recordsOf messagesOf omap];
      by rewrite <- ?app_assoc.
Qed.


Lemma rowOutcome_cases e i row :
  (exists d g, App.rowOutcome e i row = inl (App.mkPoint d g) /\
               App.parseInputDate e (row !!! 0%nat) = Some d /\
               g = Number (removeAll "," (row !!! 1%nat)) /\
               isFinite g = true /\ nltb g (ofZ 0) = false) \/
  App.rowOutcome e i row = inr (App.dateError i (row !!! 0%nat)) \/
  App.rowOutcome e i row = inr (App.valueError i (row !!! 1%nat)).
Proof.
  unfold App.rowOutcome. cbv zeta.
  destruct (App.parseInputDate e (row !!! 0%nat)) as [d|]; [|auto].
  destruct (String.eqb d ""); [auto|].
  destruct (isFinite _) eqn:Hf; cbn [negb orb]; [|auto].
  destruct (nltb _ _) eqn:Hl; [auto|].
  left. eauto 10.
Qed.

Lemma dateChar_neq a (c : ascii) :
  isDigit a || Ascii.eqb a "-" = true ->
  (code c < 45 \/ 57 < code c) -> Ascii.eqb a c = false.
Proof.
  intros H Hc. destruct (Ascii.eqb a c) eqn:E; [|done]. apply eqb_code in E.
  apply orb_true_iff in H as [H|H].
  - apply isDigit_code in H. lia.
  - apply eqb_code in H. change (code "-") with 45 in H. lia.
Qed.

Lemma dateChar_not_space a : isDigit a || Ascii.eqb a "-" = true -> isWhiteSpace a = false.
Proof.
  intros H. unfold isWhiteSpace. cbv zeta.
  apply orb_true_iff in H as [H|H].
  - apply isDigit_code in H. lia.
  - apply eqb_code in H. change (code "-") with 45 in H. lia.
Qed.

Lemma displayPattern_chars t : displayPattern t = true -> dateChars t = true.
Proof.
  intros H.
  do 10 (destruct t as [|? t]; [discriminate|]). destruct t; [|discriminate].
  unfold displayPattern in H. do 9 (apply andb_true_iff in H as [H ?]).
  cbn [dateChars].
  repeat match goal with
         | Hd : ?x = true |- context [?x] => rewrite Hd
         end.
  by rewrite ?orb_true_r.
Qed.

Lemma isoPattern_chars t : isoPattern t = true -> dateChars t = true.
Proof.
  intros H.
  do 10 (destruct t as [|? t]; [discriminate|]). destruct t; [|discriminate].
  unfold isoPattern in H. do 9 (apply andb_true_iff in H as [H ?]).
  cbn [dateChars].
  repeat match goal with
         | Hd : ?x = true |- context [?x] => rewrite Hd
         end.
  by rewrite ?orb_true_r.
Qed.

Lemma parseInputDate_shape e s iso :
  App.parseInputDate e s = Some iso ->
  dateChars (trim s) = true /\ String.length (trim s) = 10%nat.
Proof.
  unfold App.parseInputDate. cbv zeta.
  destruct (displayPattern (trim s)) eqn:Hd.
  - intros _. split; [by apply displayPattern_chars|].
    revert Hd. generalize (trim s). intros t Hd.
    do 10 (destruct t as [|? t]; [discriminate|]). by destruct t.
  - destruct (isoPattern (trim s)) eqn:Hi; [|discriminate].
    intros _. split; [by apply isoPattern_chars|].
    revert Hi. generalize (trim s). intros t Hi.
    do 10 (destruct t as [|? t]; [discriminate|]). by destruct t.
Qed.

Lemma parseInputDate_nonempty e s iso : App.parseInputDate e s = Some iso -> iso <> "".
Proof.
  unfold App.parseInputDate. cbv zeta.
  destruct (displayPattern (trim s)) eqn:Hd.
  - destruct (getTimeIsNaN _); [discriminate|]. destruct (_ || _); [discriminate|].
    intros [= <-]. destruct (numberToString _); discriminate.
  - destruct (isoPattern (trim s)) eqn:Hi; [|discriminate].
    intros H. apply parseISOKey_same in H. subst iso. intros E. rewrite E in Hi. discriminate.
Qed.

Lemma rowOutcome_empty_value e i d iso rest :
  App.parseInputDate e d = Some iso ->
  App.rowOutcome e i (d :: "" :: rest) = inl (App.mkPoint iso (ofZ 0)).
Proof.
  intros H. unfold App.rowOutcome. cbv zeta.
  change ((d :: "" :: rest) !!! 0%nat) with d.
  change ((d :: "" :: rest) !!! 1%nat) with "".
  rewrite H.
  assert (String.eqb iso "" = false) as ->
    by (apply String.eqb_neq; by eapply parseInputDate_nonempty).
  reflexivity.
Qed.

Lemma splitLines_chars s (c : ascii) :
  dateChars s = true -> Ascii.eqb c LF = false -> Ascii.eqb c CR = false ->
  splitLines (s +:+ String c "") = [s +:+ String c ""].
Proof.
  intros Hs Hc1 Hc2. induction s as [|a s IH].
  - change ("" +:+ String c "") with (String c ""). cbn [splitLines]. by rewrite Hc1.
  - cbn [dateChars] in Hs. apply andb_true_iff in Hs as [Ha Hs].
    specialize (IH Hs).
    change (String a s +:+ String c "") with (String a (s +:+ String c "")).
    cbn [splitLines].
    rewrite (dateChar_neq a LF Ha ltac:(outside)).
    rewrite (dateChar_neq a CR Ha ltac:(outside)). cbn [andb].
    rewrite IH. by destruct (s +:+ String c "").
Qed.

Lemma split_chars s :
  dateChars s = true ->
  split "," (s +:+ ",") = [s; ""].
Proof.
  intros Hs. induction s as [|a s IH]; [reflexivity|].
  cbn [dateChars] in Hs. apply andb_true_iff in Hs as [Ha Hs].
  change (String a s +:+ ",") with (String a (s +:+ ",")).
  cbn [split]. rewrite (dateChar_neq a "," Ha ltac:(outside)). by rewrite IH.
Qed.

Lemma trimEnd_keep s (c : ascii) :
  isWhiteSpace c = false -> trimEnd (s +:+ String c "") = s +:+ String c "".
Proof.
  intros Hc. induction s as [|a s IH].
  - change ("" +:+ String c "") with (String c ""). cbn [trimEnd]. by rewrite Hc.
  - change (String a s +:+ String c "") with (String a (s +:+ String c "")).
    cbn [trimEnd]. rewrite IH. by destruct s.
Qed.

Lemma trimEnd_chars s : dateChars s = true -> trimEnd s = s.
Proof.
  induction s as [|a s IH]; [done|]. cbn [dateChars]. intros [Ha Hs]%andb_true_iff.
  cbn [trimEnd]. rewrite IH by done. destruct s; [|done]. by rewrite dateChar_not_space.
Qed.

Lemma trim_chars s : dateChars s = true -> trim s = s.
Proof.
  intros H. unfold trim. destruct s as [|a s]; [done|].
  pose proof H as H'. cbn [dateChars] in H'. apply andb_true_iff in H' as [Ha Hs].
  cbn [trimStart]. rewrite dateChar_not_space by done. by apply trimEnd_chars.
Qed.

Lemma trim_line s :
  dateChars s = true -> s <> "" -> trim (s +:+ ",") = s +:+ ",".
Proof.
  intros H Hne. unfold trim. destruct s as [|a s]; [done|].
  pose proof H as H'. cbn [dateChars] in H'. apply andb_true_iff in H' as [Ha Hs].
  change (String a s +:+ ",") with (String a (s +:+ ",")).
  cbn [trimStart]. rewrite dateChar_not_space by done.
  change (String a (s +:+ ",")) with (String a s +:+ ",").
  by apply trimEnd_keep.
Qed.

Lemma csvRows_single d :
  dateChars d = true -> d <> "" -> App.csvRows (d +:+ ",") = [[d; ""]].
Proof.
  intros Hd Hne. unfold App.csvRows.
  rewrite splitLines_chars by done. cbn [fmap list_fmap].
  rewrite trim_line by done.
  rewrite filter_cons_True by (by destruct d). rewrite filter_nil.
  cbn [fmap list_fmap]. rewrite split_chars by done. cbn [fmap list_fmap].
  rewrite trim_chars by done.
  rewrite filter_cons_True by (simpl; lia). by rewrite filter_nil.
Qed.

(** C10: a row with a valid date and an empty value column gives a record
    with value 0 and no message: the two-column row is kept and the empty
    string converts to 0. *)
Theorem empty_value_reads_as_zero (e : engine) :
  (forall i d iso rest,
     App.parseInputDate e d = Some iso ->
     App.rowOutcome e i (d :: "" :: rest) = inl (App.mkPoint iso (ofZ 0))) /\
  (forall text i d iso rest,
     consideredRows text !! i = Some (d :: "" :: rest) ->
     App.parseInputDate e d = Some iso ->
     outcomesFrom e 0 (consideredRows text) !! i = Some (inl (App.mkPoint iso (ofZ 0))) /\
     App.mkPoint iso (ofZ 0) ∈ (App.csvParse e text).1) /\
  (forall d iso,
     App.parseInputDate e d = Some iso -> trim d = d ->
     App.csvParse e (d +:+ ",") = ([App.mkPoint iso (ofZ 0)], [])) /\
  App.csvParse e "18-12-2025," = ([App.mkPoint "2025-12-18" (ofZ 0)], []).
Proof.
  split; [|split; [|split]].
  - intros. by apply rowOutcome_empty_value.
  - intros text i d iso rest Hrow Hd.
    assert (outcomesFrom e 0 (consideredRows text) !! i =
            Some (inl (App.mkPoint iso (ofZ 0)))) as Ho.
    { unfold outcomesFrom. rewrite list_lookup_imap, Hrow. cbn.
      by rewrite (rowOutcome_empty_value e i d iso rest Hd). }
    split; [exact Ho|].
    unfold App.csvParse. rewrite csvLoop_outcomes. cbn [fst app].
    unfold recordsOf. apply list_elem_of_omap.
    exists (inl (App.mkPoint iso (ofZ 0))). split; [|done].
    by eapply list_elem_of_lookup_2.
  - intros d iso Hd Ht.
    destruct (parseInputDate_shape e d iso Hd) as [Hc Hl]. rewrite Ht in Hc, Hl.
    assert (d <> "") as Hne by (intros ->; discriminate).
    unfold App.csvParse. rewrite csvRows_single by done.
    assert (App.stripHeader [[d; ""]] = [[d; ""]]) as ->.
    { unfold App.stripHeader, App.isHeader.
      change ([d; ""] !!! 1%nat) with "". cbn [toLowerCase includes String.prefix orb].
      by rewrite andb_false_r. }
    cbn [App.csvLoop]. by rewrite (rowOutcome_empty_value e 0 d iso [] Hd).
  - destruct e; by_compute.
Qed.

Lemma empty_value_reads_as_zero_witness :
  App.csvParse StrictDays ("2025-12-18" +:+ ",") = ([App.mkPoint "2025-12-18" (ofZ 0)], []).
Proof.
  destruct (empty_value_reads_as_zero StrictDays) as (_ & _ & Hline & _).
  apply Hline; vm_compute; reflexivity.
Defined.

(** C8: the line is split at every comma before the value is read, so the
    value column of 18-12-2025,4,140 is the text 4 and the record carries
    4, not 4140; the removal of commas from the value never sees one. *)
Lemma thousands_separator_splits_the_value (e : engine) :
  App.csvRows "18-12-2025,4,140" = [["18-12-2025"; "4"; "140"]] /\
  App.csvParse e "18-12-2025,4,140" = ([App.mkPoint "2025-12-18" (ofZ 4)], []).
Proof.
  split; [vm_compute; reflexivity|]. destruct e; by_compute.
Qed.

(* ====================================================================== *)
(** * Hydration *)
(* ====================================================================== *)

Lemma loadEntries_valid e entries : forall (m : gmap string number) k g,
  foldl (App.loadEntry e) m entries !! k = Some g ->
  m !! k = Some g \/
  (validEntry e k g /\ exists v, (k, v) ∈ entries /\ ToNumber v = g).
Proof.
  induction entries as [|[k0 v0] entries IH]; intros m k g H; [by left|].
  simpl in H. apply IH in H as [H | (Hv & v & Hin & Hn)].
  - unfold App.loadEntry in H. cbn [fst snd] in H.
    destruct (App.parseISOKey e k0) as [d|] eqn:Hk; [|by left].
    apply parseISOKey_same in Hk as Hd. subst d.
    destruct (negb (String.eqb k0 "")); cbn [andb] in H; [|by left].
    destruct (isFinite (ToNumber v0)) eqn:Hf; cbn [andb] in H; [|by left].
    destruct (nleb (ofZ 0) (ToNumber v0)) eqn:Hl; [|by left].
    destruct (decide (k = k0)) as [->|Hne].
    + rewrite lookup_insert_eq in H. injection H as <-. right.
      split; [done|]. exists v0. split; [apply list_elem_of_here|done].
    + rewrite lookup_insert_ne in H by done. by left.
  - right. split; [done|]. exists v. split; [by apply list_elem_of_further|done].
Qed.

Lemma loadEntries_keeps e entries : forall (m : gmap string number) k v,
  (k, v) ∈ entries -> validEntry e k (ToNumber v) -> k <> "" ->
  is_Some (foldl (App.loadEntry e) m entries !! k).
Proof.
  assert (forall entries (m : gmap string number) k,
            is_Some (m !! k) -> is_Some (foldl (App.loadEntry e) m entries !! k)) as Hkeep.
  { clear. induction entries as [|[k0 v0] entries IH]; intros m k Hm; [done|].
    simpl. apply IH. unfold App.loadEntry. cbn [fst snd].
    destruct (App.parseISOKey e k0) as [d|]; [|done].
    destruct (_ && _); [|done].
    destruct (decide (k = d)) as [->|Hne];
      [rewrite lookup_insert_eq; eauto | by rewrite lookup_insert_ne]. }
  induction entries as [|[k0 v0] entries IH]; intros m k v Hin Hv Hk.
  - by apply elem_of_nil in Hin.
  - apply elem_of_cons in Hin as [[= <- <-] | Hin].
    + simpl. apply Hkeep. unfold App.loadEntry. cbn [fst snd].
      destruct Hv as (-> & -> & ->).
      assert (String.eqb k "" = false) as -> by (by apply String.eqb_neq).
      cbn [negb andb]. rewrite lookup_insert_eq. eauto.
    + simpl. by eapply IH.
Qed.

(** X29: In [src/App.tsx] every loaded entry has passed the key and value checks
    and stems from an entry of the blob; an unparseable blob gives an empty
    store. *)
Lemma hydrate_validates (JSON_parse : string -> option json) (e : engine)
    (raw : option string) :
  (forall k g, App.hydrate JSON_parse e raw !! k = Some g ->
     validEntry e k g /\
     exists r obj v, raw = Some r /\ JSON_parse r = Some obj /\
                     (k, v) ∈ Object_entries obj /\ ToNumber v = g) /\
  (forall r, raw = Some r -> JSON_parse r = None -> App.hydrate JSON_parse e raw = ∅).
Proof.
  split.
  - intros k g H. unfold App.hydrate in H.
    destruct raw as [r|]; [|by rewrite lookup_empty in H].
    destruct (String.eqb r ""); [by rewrite lookup_empty in H|].
    destruct (JSON_parse r) as [obj|] eqn:Hp; [|by rewrite lookup_empty in H].
    apply loadEntries_valid in H as [H | (Hv & v & Hin & Hn)];
      [by rewrite lookup_empty in H|].
    split; [done|]. exists r, obj, v. repeat split; try done.
    destruct (jsonTruthy obj); [done|]. by apply elem_of_nil in Hin.
  - intros r -> Hp. unfold App.hydrate. rewrite Hp. by destruct (String.eqb r "").
Qed.

Lemma hydrate_validates_witness :
  App.hydrate junkParse StrictDays (Some "not json") = ∅.
Proof.
  apply (proj2 (hydrate_validates junkParse StrictDays (Some "not json")) "not json");
    reflexivity.
Defined.


(** C7: the second copy of the component loads the blob without any check:
    an entry with a key that is no date and a negative value enters the
    store, where [src/App.tsx] drops it. *)
Lemma hydrate_alt_loads_invalid_entry :
  Alt.hydrate junkParse (Some junkBlob) !! "junk" = Some (ofZ (-5)) /\
  (forall e, App.hydrate junkParse e (Some junkBlob) !! "junk" = None) /\
  (forall e, App.parseISOKey e "junk" = None) /\
  nleb (ofZ 0) (ofZ (-5)) = false.
Proof.
  split; [by_compute|]. split; [|split].
  - intros []; by_compute.
  - intros []; vm_compute; reflexivity.
  - vm_compute. reflexivity.
Qed.

(* ====================================================================== *)
(** * Digits and keys *)
(* ====================================================================== *)

Lemma digitChar_digitVal a : isDigit a = true -> digitChar (digitVal a) = a.
Proof.
  intros H. apply isDigit_code in H. unfold digitChar, digitVal, chr.
  replace (48 + (code a - 48)) with (code a) by lia.
  unfold code. rewrite N2Z.id. apply ascii_N_embedding.
Qed.

Lemma pad2_table :
  forallb (fun n => String.eqb (pad 2 n) (twoDigits n)) (seqZ 0 100) = true.
Proof. vm_compute. reflexivity. Qed.

Lemma pad4_table :
  forallb (fun n => String.eqb (pad 4 n) (fourDigits n) &&
                    (Z.ltb n 1000 || String.eqb (natToString n) (fourDigits n)))
          (seqZ 0 10000) = true.
Proof. vm_compute. reflexivity. Qed.

Lemma pad2_twoDigits n : 0 <= n < 100 -> pad 2 n = twoDigits n.
Proof.
  intros H. pose proof pad2_table as T. rewrite forallb_forall in T.
  apply String.eqb_eq, T. apply list_elem_of_In, elem_of_seqZ. lia.
Qed.

Lemma pad4_fourDigits n : 0 <= n < 10000 -> pad 4 n = fourDigits n.
Proof.
  intros H. pose proof pad4_table as T. rewrite forallb_forall in T.
  specialize (T n). apply andb_true_iff in T as [T _]; [by apply String.eqb_eq|].
  apply list_elem_of_In, elem_of_seqZ. lia.
Qed.

Lemma natToString_fourDigits n : 1000 <= n < 10000 -> natToString n = fourDigits n.
Proof.
  intros H. pose proof pad4_table as T. rewrite forallb_forall in T.
  specialize (T n). apply andb_true_iff in T as [_ T].
  - apply orb_true_iff in T as [T|T]; [lia|by apply String.eqb_eq].
  - apply list_elem_of_In, elem_of_seqZ. lia.
Qed.

Lemma twoDigits_value a b :
  isDigit a = true -> isDigit b = true ->
  0 <= digitsValue 0 (String a (String b "")) < 100 /\
  twoDigits (digitsValue 0 (String a (String b ""))) = String a (String b "").
Proof.
  intros Ha Hb. pose proof (digitVal_range a Ha). pose proof (digitVal_range b Hb).
  cbn [digitsValue]. split; [lia|]. unfold twoDigits.
  replace ((0 * 10 + digitVal a) * 10 + digitVal b) with (digitVal a * 10 + digitVal b) by lia.
  replace ((digitVal a * 10 + digitVal b) / 10) with (digitVal a) by zlia.
  replace ((digitVal a * 10 + digitVal b) mod 10) with (digitVal b) by zlia.
  by rewrite !digitChar_digitVal.
Qed.

Lemma fourDigits_value a b c d :
  isDigit a = true -> isDigit b = true -> isDigit c = true -> isDigit d = true ->
  let n := digitsValue 0 (String a (String b (String c (String d "")))) in
  0 <= n < 10000 /\ 1000 * digitVal a <= n < 1000 * digitVal a + 1000 /\
  fourDigits n = String a (String b (String c (String d ""))).
Proof.
  intros Ha Hb Hc Hd. cbv zeta.
  pose proof (digitVal_range a Ha). pose proof (digitVal_range b Hb).
  pose proof (digitVal_range c Hc). pose proof (digitVal_range d Hd).
  cbn [digitsValue].
  set (n := (((0 * 10 + digitVal a) * 10 + digitVal b) * 10 + digitVal c) * 10 + digitVal d).
  assert (n = 1000 * digitVal a + 100 * digitVal b + 10 * digitVal c + digitVal d) as En
    by (unfold n; lia).
  split; [lia|]. split; [lia|]. unfold fourDigits.
  replace (n / 1000) with (digitVal a) by zlia.
  replace (n / 100 mod 10) with (digitVal b) by zlia.
  replace (n / 10 mod 10) with (digitVal c) by zlia.
  replace (n mod 10) with (digitVal d) by zlia.
  by rewrite !digitChar_digitVal.
Qed.

Lemma intToString_nonneg z : 0 <= z -> intToString z = natToString z.
Proof. intros H. unfold intToString. destruct (Z.ltb_spec z 0); [lia|done]. Qed.

Lemma padStart2_intToString z : 0 <= z -> padStart 2 "0" (intToString z) = pad 2 z.
Proof. intros H. unfold pad. by rewrite intToString_nonneg. Qed.

Lemma length_app (s t : string) :
  String.length (s +:+ t) = (String.length s + String.length t)%nat.
Proof.
  induction s as [|a s IH]; [reflexivity|].
  change (String a s +:+ t) with (String a (s +:+ t)). cbn [String.length]. by rewrite IH.
Qed.

Lemma append_inj_suffix (s1 s2 t1 t2 : string) :
  s1 +:+ t1 = s2 +:+ t2 -> String.length t1 = String.length t2 -> s1 = s2 /\ t1 = t2.
Proof.
  revert s2. induction s1 as [|a s1 IH]; intros [|b s2] H Hl.
  - done.
  - exfalso. change ("" +:+ t1) with t1 in H. subst t1.
    change (String b s2 +:+ t2) with (String b (s2 +:+ t2)) in Hl. cbn [String.length] in Hl.
    rewrite length_app in Hl. lia.
  - exfalso. change ("" +:+ t2) with t2 in H. subst t2.
    change (String a s1 +:+ t1) with (String a (s1 +:+ t1)) in Hl. cbn [String.length] in Hl.
    rewrite length_app in Hl. lia.
  - change (String a s1 +:+ t1) with (String a (s1 +:+ t1)) in H.
    change (String b s2 +:+ t2) with (String b (s2 +:+ t2)) in H.
    injection H as -> H. destruct (IH _ H Hl) as [-> ->]. done.
Qed.

Lemma code_chr n : 0 <= n < 256 -> code (chr n) = n.
Proof.
  intros H. unfold code, chr. rewrite N_ascii_embedding; [lia|].
  apply N2Z.inj_lt. rewrite Z2N.id by lia. lia.
Qed.

Lemma digitChar_inj a b : 0 <= a <= 9 -> 0 <= b <= 9 -> digitChar a = digitChar b -> a = b.
Proof.
  intros Ha Hb H. apply (f_equal code) in H. unfold digitChar in H.
  rewrite !code_chr in H by lia. lia.
Qed.

Lemma twoDigits_inj a b : 0 <= a < 100 -> 0 <= b < 100 -> twoDigits a = twoDigits b -> a = b.
Proof.
  intros Ha Hb H. unfold twoDigits in H. injection H as H1 H2.
  apply digitChar_inj in H1; [|zlia..]. apply digitChar_inj in H2; [|zlia..]. zlia.
Qed.

Lemma iso_decompose s :
  isoPattern s = true ->
  exists y1 y2 y3 y4 m1 m2 d1 d2,
    s = String y1 (String y2 (String y3 (String y4 (String "-" (String m1 (String m2
          (String "-" (String d1 (String d2 ""))))))))) /\
    isDigit y1 = true /\ isDigit y2 = true /\ isDigit y3 = true /\ isDigit y4 = true /\
    isDigit m1 = true /\ isDigit m2 = true /\ isDigit d1 = true /\ isDigit d2 = true.
Proof.
  intros H.
  do 10 (destruct s as [|? s]; [discriminate|]). destruct s; [|discriminate].
  unfold isoPattern in H. do 9 (apply andb_true_iff in H as [H ?]).
  repeat match goal with
         | E : Ascii.eqb _ "-" = true |- _ => apply Ascii.eqb_eq in E; subst
         end.
  do 8 eexists. split; [reflexivity|]. repeat split; assumption.
Qed.

(** an ISO-shaped key is the key of its day in its month *)
Lemma iso_dayKey s :
  isoPattern s = true ->
  s = dayKey (App.monthKey s) (dayOf s) /\ 0 <= dayOf s < 100 /\
  Number (slice 8 10 s) = ofZ (dayOf s) /\ String.length s = 10%nat.
Proof.
  intros H. destruct (iso_decompose s H)
    as (y1 & y2 & y3 & y4 & m1 & m2 & d1 & d2 & -> & _ & _ & _ & _ & _ & _ & Hd1 & Hd2).
  unfold dayKey, dayOf, App.monthKey. cbn [slice substring Nat.sub].
  destruct (twoDigits_value d1 d2 Hd1 Hd2) as [R E].
  rewrite pad2_twoDigits by lia. rewrite E.
  split; [reflexivity|]. split; [lia|]. split; [|reflexivity].
  apply Number_digits; [|simpl; lia]. cbn [allDigits]. by rewrite Hd1, Hd2.
Qed.

Lemma dayKey_length mk d : 0 <= d < 100 ->
  String.length (dayKey mk d) = (String.length mk + 3)%nat.
Proof.
  intros H. unfold dayKey. rewrite pad2_twoDigits by lia.
  rewrite length_app. reflexivity.
Qed.

Lemma dayKey_inj mk d mk' d' :
  0 <= d < 100 -> 0 <= d' < 100 -> dayKey mk d = dayKey mk' d' -> mk = mk' /\ d = d'.
Proof.
  intros Hd Hd' H. unfold dayKey in H. rewrite !pad2_twoDigits in H by lia.
  change ("-" +:+ twoDigits d) with (String "-" (twoDigits d)) in H.
  change ("-" +:+ twoDigits d') with (String "-" (twoDigits d')) in H.
  apply append_inj_suffix in H as [-> H]; [|reflexivity].
  split; [done|]. apply twoDigits_inj; [lia|lia|congruence].
Qed.

(* ====================================================================== *)
(** * The display round trip from year 1000 on *)
(* ====================================================================== *)

Lemma MakeDay_in_range y m d :
  0 <= y <= 9999 -> 1 <= m <= 12 -> 1 <= d <= DaysInMonth y m ->
  TimeClip (MakeDay y (m - 1) d) = Some (MakeDay y (m - 1) d).
Proof.
  intros Hy Hm Hd. destruct (MakeDay_civil y m d Hm Hd) as (HY & _ & _).
  pose proof (YearFromDay_spec (MakeDay y (m - 1) d)) as S. rewrite HY in S.
  unfold TimeClip.
  assert (-100000000 <= DayFromYear y) by (unfold DayFromYear; zlia).
  assert (DayFromYear (y + 1) <= 100000000) by (unfold DayFromYear; zlia).
  destruct (Z.leb_spec (Z.abs (MakeDay y (m - 1) d)) 100000000); [done|lia].
Qed.

Lemma displayResult_of_real y m d :
  100 <= y <= 9999 -> realDate y m d ->
  displayResult y m d = Some (isoText y m d).
Proof.
  intros Hy [Hm Hd]. unfold displayResult.
  assert (MakeFullYear y = y) as ->.
  { unfold MakeFullYear. destruct (Z.leb_spec y 99); [lia|]. by rewrite andb_false_r. }
  rewrite MakeDay_in_range by lia.
  destruct (MakeDay_civil y m d Hm Hd) as (-> & -> & ->).
  by rewrite !Z.eqb_refl.
Qed.

Lemma display_decompose t :
  displayPattern t = true ->
  exists d1 d2 m1 m2 y1 y2 y3 y4,
    t = String d1 (String d2 (String "-" (String m1 (String m2 (String "-"
          (String y1 (String y2 (String y3 (String y4 "")))))))))  /\
    isDigit d1 = true /\ isDigit d2 = true /\ isDigit m1 = true /\ isDigit m2 = true /\
    isDigit y1 = true /\ isDigit y2 = true /\ isDigit y3 = true /\ isDigit y4 = true.
Proof.
  intros H.
  do 10 (destruct t as [|? t]; [discriminate|]). destruct t; [|discriminate].
  unfold displayPattern in H. do 9 (apply andb_true_iff in H as [H ?]).
  repeat match goal with
         | E : Ascii.eqb _ "-" = true |- _ => apply Ascii.eqb_eq in E; subst
         end.
  do 8 eexists. split; [reflexivity|]. by repeat split.
Qed.

Lemma format_of_digits d1 d2 m1 m2 y1 y2 y3 y4 :
  isDigit d1 = true -> isDigit d2 = true -> isDigit m1 = true -> isDigit m2 = true ->
  isDigit y1 = true -> isDigit y2 = true -> isDigit y3 = true -> isDigit y4 = true ->
  let iso := String y1 (String y2 (String y3 (String y4 (String "-" (String m1 (String m2
               (String "-" (String d1 (String d2 ""))))))))) in
  let t := String d1 (String d2 (String "-" (String m1 (String m2 (String "-"
             (String y1 (String y2 (String y3 (String y4 ""))))))))) in
  App.formatDDMMYYYY iso = t /\ Alt.formatDDMMYYYY iso = t.
Proof.
  intros Hd1 Hd2 Hm1 Hm2 Hy1 Hy2 Hy3 Hy4. cbv zeta.
  assert (forall a, isDigit a = true -> Ascii.eqb a "-" = false) as Hn
    by (intros; apply digit_neq; [done|outside]).
  unfold App.formatDDMMYYYY, Alt.formatDDMMYYYY.
  cbn [String.eqb isoPattern split].
  rewrite Hd1, Hd2, Hm1, Hm2, Hy1, Hy2, Hy3, Hy4.
  rewrite !(Hn _ Hd1), !(Hn _ Hd2), !(Hn _ Hm1), !(Hn _ Hm2),
          !(Hn _ Hy1), !(Hn _ Hy2), !(Hn _ Hy3), !(Hn _ Hy4).
  rewrite !Ascii.eqb_refl.
  vm_compute. split; reflexivity.
Qed.

(** the round trip of C9 holds from year 1000 on *)
Lemma display_round_trip_from_1000 (e : engine) (t : string) :
  displayPattern t = true ->
  realDate (yearField t) (monthField t) (dayField t) ->
  1000 <= yearField t ->
  exists iso,
    App.parseInputDate e t = Some iso /\ Alt.parseInputDate e t = Some iso /\
    App.formatDDMMYYYY iso = t /\ Alt.formatDDMMYYYY iso = t.
Proof.
  intros Hp Hreal Hy.
  assert (trim t = t) as Ht by (apply trim_chars; by apply displayPattern_chars).
  destruct (display_decompose t Hp)
    as (d1 & d2 & m1 & m2 & y1 & y2 & y3 & y4 & -> & Hd1 & Hd2 & Hm1 & Hm2 & Hy1 & Hy2 & Hy3 & Hy4).
  unfold yearField, monthField, dayField in *. cbn [slice substring Nat.sub] in *.
  destruct (twoDigits_value d1 d2 Hd1 Hd2) as [Rd Ed].
  destruct (twoDigits_value m1 m2 Hm1 Hm2) as [Rm Em].
  destruct (fourDigits_value y1 y2 y3 y4 Hy1 Hy2 Hy3 Hy4) as (Ry & _ & Ey).
  set (y := digitsValue 0 (String y1 (String y2 (String y3 (String y4 ""))))) in *.
  set (m := digitsValue 0 (String m1 (String m2 ""))) in *.
  set (d := digitsValue 0 (String d1 (String d2 ""))) in *.
  assert (isoText y m d =
          String y1 (String y2 (String y3 (String y4 (String "-" (String m1 (String m2
            (String "-" (String d1 (String d2 "")))))))))) as Eiso.
  { unfold isoText. rewrite !padStart2_intToString by lia.
    rewrite !pad2_twoDigits by lia. rewrite intToString_nonneg by lia.
    rewrite natToString_fourDigits by lia. rewrite Ey, Em, Ed. reflexivity. }
  exists (isoText y m d).
  assert (App.parseInputDate e
            (String d1 (String d2 (String "-" (String m1 (String m2 (String "-"
               (String y1 (String y2 (String y3 (String y4 "")))))))))) =
          Some (isoText y m d)) as Eparse.
  { rewrite parseInputDate_display by (by rewrite Ht).
    rewrite Ht. unfold yearField, monthField, dayField. cbn [slice substring Nat.sub].
    fold y m d. apply displayResult_of_real; [lia|done]. }
  split; [exact Eparse|]. split; [by rewrite parseInputDate_Alt|].
  rewrite Eiso. by apply format_of_digits.
Qed.

Lemma display_round_trip_from_1000_example :
  exists iso,
    App.parseInputDate StrictDays "29-02-2024" = Some iso /\
    App.formatDDMMYYYY iso = "29-02-2024".
Proof.
  destruct (display_round_trip_from_1000 StrictDays "29-02-2024")
    as (iso & H1 & _ & H2 & _).
  - vm_compute. reflexivity.
  - vm_compute. repeat split; discriminate.
  - vm_compute. discriminate.
  - exists iso. split; assumption.
Qed.

(* ====================================================================== *)
(** * Monthly rollup *)
(* ====================================================================== *)

Lemma nadd_0_l v : nadd (ofZ 0) v = v.
Proof.
  destruct v as [q| | |]; try reflexivity. unfold ofZ. cbn [nadd]. f_equal.
  change (qz 0) with 0%Qc. apply Qcplus_0_l.
Qed.

Lemma qleb_qz a b : qleb (qz a) (qz b) = Z.leb a b.
Proof.
  unfold qleb. rewrite !this_qz. unfold Qle_bool. simpl. by rewrite !Z.mul_1_r.
Qed.

Lemma Math_max_ofZ a b : Math_max (ofZ a) (ofZ b) = ofZ (Z.max a b).
Proof.
  unfold Math_max, ofZ. cbn [nleb]. rewrite qleb_qz.
  destruct (Z.leb_spec a b); f_equal; f_equal; lia.
Qed.

Lemma qfloor_qz z : qfloor (qz z) = z.
Proof. unfold qfloor. rewrite this_qz. simpl. apply Z.div_1_r. Qed.

Lemma lookupOf_snoc l p :
  App.lookupOf (l ++ [p]) = <[App.date p := App.generation_gwh p]> (App.lookupOf l).
Proof. unfold App.lookupOf. by rewrite foldl_app. Qed.

Lemma lookupOf_dates l k v : App.lookupOf l !! k = Some v -> k ∈ App.date <$> l.
Proof.
  induction l as [|p l IH] using rev_ind.
  { unfold App.lookupOf. cbn [foldl]. by rewrite lookup_empty. }
  rewrite lookupOf_snoc, fmap_app, elem_of_app. cbn [fmap list_fmap].
  destruct (decide (k = App.date p)) as [->|Hne].
  - intros _. right. apply list_elem_of_here.
  - rewrite lookup_insert_ne by done. intros H. left. by apply IH.
Qed.

Lemma build_snoc l p :
  App.buildMonthDayMap (l ++ [p]) = App.addToMonth (App.buildMonthDayMap l) p.
Proof. unfold App.buildMonthDayMap. by rewrite foldl_app. Qed.

Lemma bucket_default (map : gmap string App.MonthRec) mk d :
  App.byDay (default App.emptyMonthRec (map !! mk)) !! ofZ d = bucket map mk d.
Proof. unfold bucket. destruct (map !! mk); [reflexivity|]. apply lookup_empty. Qed.

(** every day bucket of the month map is the store entry of that day *)
Lemma bucket_lookup l :
  Forall (fun p => isoPattern (App.date p) = true) l ->
  NoDup (App.date <$> l) ->
  forall mk d, 0 <= d < 100 ->
    bucket (App.buildMonthDayMap l) mk d = App.lookupOf l !! dayKey mk d.
Proof.
  induction l as [|p l IH] using rev_ind; intros Hiso Hnd mk d Hd.
  - unfold bucket, App.buildMonthDayMap, App.lookupOf. cbn [foldl]. by rewrite !lookup_empty.
  - apply list.Forall_app in Hiso as [Hiso Hp]. rewrite Forall_singleton in Hp.
    rewrite fmap_app in Hnd. apply list.NoDup_app in Hnd as (Hnd & Hfresh & _).
    specialize (IH Hiso Hnd).
    destruct (iso_dayKey _ Hp) as (Ekey & Rday & Enum & _).
    assert (App.lookupOf l !! App.date p = None) as Hnone.
    { destruct (App.lookupOf l !! App.date p) eqn:E; [|done].
      apply lookupOf_dates in E. exfalso. apply (Hfresh _ E). apply list_elem_of_here. }
    rewrite build_snoc, lookupOf_snoc. unfold App.addToMonth. cbv zeta. rewrite Enum.
    set (map := App.buildMonthDayMap l) in *.
    destruct (decide (mk = App.monthKey (App.date p))) as [->|Hmk].
    + unfold bucket at 1. rewrite lookup_insert_eq. cbn [mbind option_bind App.byDay].
      destruct (decide (d = dayOf (App.date p))) as [->|Hdd].
      * rewrite lookup_insert_eq. rewrite <- Ekey. rewrite lookup_insert_eq.
        rewrite bucket_default, IH by done. rewrite <- Ekey, Hnone. cbn [orZero].
        by rewrite nadd_0_l.
      * rewrite lookup_insert_ne by (intros E; apply ofZ_inj in E; congruence).
        rewrite bucket_default, IH by done.
        rewrite lookup_insert_ne; [done|].
        intros E. rewrite Ekey in E at 1. apply dayKey_inj in E as [_ E]; [congruence|done..].
    + unfold bucket at 1. rewrite lookup_insert_ne by done.
      fold (bucket map mk d). rewrite IH by done.
      rewrite lookup_insert_ne; [done|].
      intros E. rewrite Ekey in E at 1. apply dayKey_inj in E as [E _]; [congruence|done..].
Qed.

Lemma inMonth_snoc mk l p :
  inMonth mk (l ++ [p]) =
  (inMonth mk l ++ (if decide (App.monthKey (App.date p) = mk) then [p] else []))%list.
Proof.
  unfold inMonth. rewrite list.filter_app. f_equal.
Qed.

(** the record of a month carries its total and its highest day *)
Lemma month_fields l :
  Forall (fun p => isoPattern (App.date p) = true) l ->
  forall mk,
    (App.buildMonthDayMap l !! mk = None <-> inMonth mk l = []) /\
    App.total (default App.emptyMonthRec (App.buildMonthDayMap l !! mk)) = monthTotal mk l /\
    App.maxDay (default App.emptyMonthRec (App.buildMonthDayMap l !! mk)) =
      ofZ (monthMaxDay mk l).
Proof.
  induction l as [|p l IH] using rev_ind; intros Hiso mk.
  - unfold App.buildMonthDayMap. cbn [foldl]. rewrite lookup_empty. done.
  - apply list.Forall_app in Hiso as [Hiso Hp]. rewrite Forall_singleton in Hp.
    destruct (iso_dayKey _ Hp) as (_ & _ & Enum & _).
    destruct (IH Hiso mk) as (Hnone & Htot & Hmax).
    rewrite build_snoc. unfold App.addToMonth. cbv zeta. rewrite Enum.
    unfold monthTotal, monthMaxDay. rewrite inMonth_snoc.
    destruct (decide (App.monthKey (App.date p) = mk)) as [<-|Hmk].
    + rewrite lookup_insert_eq. cbn [default App.total App.maxDay].
      rewrite !fmap_app, !foldl_app. cbn [fmap list_fmap foldl].
      split; [|split].
      * split; [discriminate|]. intros E. by apply app_eq_nil in E as [_ E].
      * rewrite Htot. reflexivity.
      * rewrite Hmax, Math_max_ofZ. reflexivity.
    + rewrite lookup_insert_ne by done. by rewrite !app_nil_r.
Qed.

Lemma monthMaxDay_range mk l :
  Forall (fun p => isoPattern (App.date p) = true) l -> 0 <= monthMaxDay mk l < 100.
Proof.
  intros Hiso. unfold monthMaxDay.
  assert (Forall (fun d => 0 <= d < 100) (dayOf ∘ App.date <$> inMonth mk l)) as HF.
  { apply Forall_fmap, list.Forall_forall. intros p Hp.
    unfold inMonth in Hp. apply list_elem_of_filter in Hp as [_ Hp].
    rewrite list.Forall_forall in Hiso. cbn. apply (iso_dayKey _ (Hiso _ Hp)). }
  revert HF. generalize (dayOf ∘ App.date <$> inMonth mk l).
  assert (forall ds a, 0 <= a < 100 -> Forall (fun d => 0 <= d < 100) ds ->
                       0 <= foldl Z.max a ds < 100) as G.
  { induction ds as [|d ds IH]; intros a Ha HF; [done|].
    inversion HF as [|? ? Hd HF']; subst. cbn [foldl]. apply IH; [lia|done]. }
  intros ds. apply G. lia.
Qed.

Lemma foldl_max_ge ds : forall a, a <= foldl Z.max a ds /\ Forall (fun d => d <= foldl Z.max a ds) ds.
Proof.
  induction ds as [|d ds IH]; intros a; [cbn [foldl]; split; [lia|constructor]|].
  cbn [foldl]. destruct (IH (Z.max a d)) as [H1 H2]. split; [lia|].
  constructor; [lia|done].
Qed.

Lemma foldl_max_in ds : forall a, foldl Z.max a ds = a \/ foldl Z.max a ds ∈ ds.
Proof.
  induction ds as [|d ds IH]; intros a; [by left|].
  cbn [foldl]. destruct (Z.max_spec a d) as [[_ E]|[_ E]]; rewrite E.
  - right. destruct (IH d) as [H|H]; [rewrite H; apply list_elem_of_here|].
    by apply list_elem_of_further.
  - destruct (IH a) as [H|H]; [by left|]. right. by apply list_elem_of_further.
Qed.

Lemma omap_none {A B : Type} (f : A -> option B) (l : list A) :
  (forall x, x ∈ l -> f x = None) -> omap f l = [].
Proof.
  induction l as [|x l IH]; intros H; [done|].
  cbn [omap list_omap]. rewrite (H x) by apply list_elem_of_here.
  apply IH. intros y Hy. apply H. by apply list_elem_of_further.
Qed.

(** the loop of [sumMonthUpToDay] adds up the store entries of the days *)
Lemma sumDays_store (days : gmap number number) (store : gmap string number) mk n :
  forall d0 s h,
    (forall d, d0 <= d < d0 + Z.of_nat n -> days !! ofZ d = store !! dayKey mk d) ->
    App.sumDays days n d0 s h =
    (foldl nadd s (monthValues store mk d0 n),
     h || negb (bool_decide (monthValues store mk d0 n = []))).
Proof.
  induction n as [|n IH]; intros d0 s h Hd.
  - cbn. by rewrite orb_false_r.
  - unfold monthValues. rewrite Nat2Z.inj_succ, seqZ_cons by lia. cbn [omap list_omap].
    cbn [App.sumDays]. rewrite Hd by lia.
    replace (Z.pred (Z.succ (Z.of_nat n))) with (Z.of_nat n) by lia.
    replace (Z.succ d0) with (d0 + 1) by lia.
    fold (monthValues store mk (d0 + 1) n).
    destruct (store !! dayKey mk d0) as [v|].
    + rewrite IH by (intros; apply Hd; lia). cbn [foldl].
      rewrite (bool_decide_eq_false_2 (v :: _ = [])) by (intros E; discriminate E).
      cbn [orb negb]. by rewrite orb_true_r.
    + rewrite IH by (intros; apply Hd; lia). reflexivity.
Qed.

Lemma sumMonthUpToDay_store l mk k :
  Forall (fun p => isoPattern (App.date p) = true) l ->
  NoDup (App.date <$> l) ->
  0 <= k < 100 ->
  App.sumMonthUpToDay (App.buildMonthDayMap l !! mk) (ofZ k) =
  comparableSum (App.lookupOf l) mk k.
Proof.
  intros Hiso Hnd Hk. unfold comparableSum.
  pose proof (bucket_lookup l Hiso Hnd mk) as Hb.
  unfold App.sumMonthUpToDay, bucket in *.
  destruct (App.buildMonthDayMap l !! mk) as [rec|].
  - cbn [mbind option_bind] in Hb. unfold App.dayIterations, ofZ. rewrite qfloor_qz.
    rewrite (sumDays_store _ (App.lookupOf l) mk) by (intros; apply Hb; lia).
    cbn [orb]. destruct (monthValues _ _ _ _) as [|v vs] eqn:E; [reflexivity|].
    by rewrite (bool_decide_eq_false_2 (v :: vs = [])) by (intros E'; discriminate E').
  - cbn [mbind option_bind] in Hb.
    assert (monthValues (App.lookupOf l) mk 1 (Z.to_nat k) = []) as ->; [|done].
    unfold monthValues. apply omap_none. intros d Hd. apply elem_of_seqZ in Hd.
    symmetry. apply Hb. lia.
Qed.

Lemma toMonthly_rows l r :
  r ∈ App.toMonthly l <->
  exists mk rec, App.buildMonthDayMap l !! mk = Some rec /\
                 r = App.monthlyRow (App.buildMonthDayMap l) mk.
Proof.
  unfold App.toMonthly, App.sortKeys. cbv zeta. rewrite list_elem_of_fmap.
  split.
  - intros (mk & -> & Hin). rewrite merge_sort_Permutation in Hin.
    apply list_elem_of_fmap in Hin as ([mk' rec] & -> & Hin).
    apply elem_of_map_to_list in Hin. by exists mk', rec.
  - intros (mk & rec & Hm & ->). exists mk. split; [done|].
    rewrite merge_sort_Permutation. apply list_elem_of_fmap. exists (mk, rec).
    split; [done|]. by apply elem_of_map_to_list.
Qed.

Lemma month_decompose s :
  isoPattern s = true ->
  App.monthKey s = monthText (yearOf s) (monthOf s) /\
  yearOf (App.monthKey s) = yearOf s /\ monthOf (App.monthKey s) = monthOf s /\
  0 <= yearOf s < 10000 /\ 0 <= monthOf s < 100 /\
  Number <$> split "-" (App.monthKey s) = [ofZ (yearOf s); ofZ (monthOf s)] /\
  App.getYear (App.monthKey s) = ofZ (yearOf s) /\
  App.getMonth (App.monthKey s) = ofZ (monthOf s).
Proof.
  intros H. destruct (iso_decompose s H)
    as (y1 & y2 & y3 & y4 & m1 & m2 & d1 & d2 & -> & Hy1 & Hy2 & Hy3 & Hy4 & Hm1 & Hm2 & _ & _).
  unfold App.monthKey, yearOf, monthOf, monthText, App.getYear, App.getMonth.
  cbn [slice substring Nat.sub].
  destruct (twoDigits_value m1 m2 Hm1 Hm2) as [Rm Em].
  destruct (fourDigits_value y1 y2 y3 y4 Hy1 Hy2 Hy3 Hy4) as (Ry & _ & Ey).
  assert (forall a, isDigit a = true -> Ascii.eqb a "-" = false) as Hn
    by (intros; apply digit_neq; [done|outside]).
  rewrite pad4_fourDigits, pad2_twoDigits by lia. rewrite Ey, Em.
  assert (Number (String y1 (String y2 (String y3 (String y4 "")))) =
          ofZ (digitsValue 0 (String y1 (String y2 (String y3 (String y4 "")))))) as Ny.
  { apply Number_digits; [|simpl; lia]. cbn [allDigits]. by rewrite Hy1, Hy2, Hy3, Hy4. }
  assert (Number (String m1 (String m2 "")) = ofZ (digitsValue 0 (String m1 (String m2 "")))) as Nm.
  { apply Number_digits; [|simpl; lia]. cbn [allDigits]. by rewrite Hm1, Hm2. }
  split; [reflexivity|]. split; [reflexivity|]. split; [reflexivity|].
  split; [lia|]. split; [lia|]. split; [|split; assumption].
  cbn [split]. rewrite (Hn _ Hy1), (Hn _ Hy2), (Hn _ Hy3), (Hn _ Hy4), (Hn _ Hm1), (Hn _ Hm2).
  rewrite Ascii.eqb_refl. cbn [consHead fmap list_fmap]. by rewrite Ny, Nm.
Qed.

Lemma DaysInMonth_ge y m : 28 <= DaysInMonth y m <= 31.
Proof.
  unfold DaysInMonth. destruct (leapDay_cases y) as [[-> _]|[-> _]];
    (destruct m as [|p|p]; [lia| |lia]);
    do 4 (try (destruct p as [p|p|]; try lia)).
Qed.

Lemma MakeDay_previous y m :
  1 <= m <= 12 ->
  MakeDay y (m - 1 + -1) 1 =
  MakeDay (previousMonth y m).1 ((previousMonth y m).2 - 1) 1.
Proof.
  intros Hm. unfold previousMonth. destruct (Z.eqb_spec m 1) as [->|Hne]; cbn [fst snd].
  - unfold MakeDay. change ((1 - 1 + -1) / 12) with (-1). change ((1 - 1 + -1) mod 12) with 11.
    change ((12 - 1) / 12) with 0. change ((12 - 1) mod 12) with 11.
    replace (y + -1) with (y - 1) by lia. by rewrite Z.add_0_r.
  - replace (m - 1 + -1) with (m - 1 - 1) by lia. reflexivity.
Qed.

Lemma monthText_of y m :
  1000 <= y <= 9999 -> 0 <= m < 100 ->
  numberToString (ofZ y) +:+ "-" +:+ padStart 2 "0" (numberToString (ofZ m)) = monthText y m.
Proof.
  intros Hy Hm. rewrite !numberToString_ofZ, padStart2_intToString by lia.
  rewrite intToString_nonneg by lia. unfold monthText.
  by rewrite natToString_fourDigits, pad4_fourDigits by lia.
Qed.

Lemma Date_UTC_ofZ y m d :
  Date_UTC (ofZ y) (ofZ m) (ofZ d) = TimeClip (MakeDay (MakeFullYear y) m d).
Proof. unfold Date_UTC, ofZ. by rewrite !qtrunc_qz. Qed.

(** from year 1001 on, [addMonths(m, -1)] is the key of the previous month *)
Lemma addMonths_previous s :
  isoPattern s = true -> 1 <= monthOf s <= 12 -> 1001 <= yearOf s ->
  App.addMonths (App.monthKey s) (ofZ (-1)) =
  monthText (previousMonth (yearOf s) (monthOf s)).1 (previousMonth (yearOf s) (monthOf s)).2.
Proof.
  intros Hs Hm Hy.
  destruct (month_decompose s Hs) as (_ & _ & _ & Ry & Rm & Esplit & _ & _).
  unfold App.addMonths. cbv zeta. rewrite Esplit.
  change ([ofZ (yearOf s); ofZ (monthOf s)] !!! 0%nat) with (ofZ (yearOf s)).
  change ([ofZ (yearOf s); ofZ (monthOf s)] !!! 1%nat) with (ofZ (monthOf s)).
  rewrite nsub_ofZ, nadd_ofZ, !Date_UTC_ofZ.
  assert (MakeFullYear (yearOf s) = yearOf s) as ->.
  { unfold MakeFullYear. destruct (Z.leb_spec (yearOf s) 99); [lia|]. by rewrite andb_false_r. }
  rewrite MakeDay_previous by done.
  set (ym := previousMonth (yearOf s) (monthOf s)).
  assert (1000 <= ym.1 <= 9999 /\ 1 <= ym.2 <= 12) as [Hy' Hm'].
  { unfold ym, previousMonth. destruct (Z.eqb_spec (monthOf s) 1); cbn [fst snd]; lia. }
  pose proof (DaysInMonth_ge ym.1 ym.2) as Hdim.
  rewrite MakeDay_in_range by lia.
  destruct (MakeDay_civil ym.1 ym.2 1 Hm' ltac:(lia)) as (EY & EM & _).
  cbn [getUTCFullYear getUTCMonth]. rewrite EY, EM, nadd_ofZ.
  replace (ym.2 - 1 + 1) with ym.2 by lia.
  apply monthText_of; lia.
Qed.

(** from year 1001 on, the year-earlier key is the same month one year before *)
Lemma prevYearKey_previous s :
  isoPattern s = true -> 1001 <= yearOf s ->
  App.prevYearKey (App.monthKey s) = monthText (yearOf s - 1) (monthOf s).
Proof.
  intros Hs Hy.
  destruct (month_decompose s Hs) as (_ & _ & _ & Ry & Rm & _ & EY & EM).
  unfold App.prevYearKey. rewrite EY, EM, nsub_ofZ. apply monthText_of; lia.
Qed.

Lemma slice_prefix s t : String.length s = 10%nat -> slice 0 10 (s +:+ t) = s /\ sliceFrom 10 (s +:+ t) = t.
Proof.
  intros H. do 10 (destruct s as [|? s]; [discriminate|]). destruct s; [|discriminate].
  split; [|reflexivity]. unfold slice. cbn. by destruct t.
Qed.

(** a key accepted by [parseISOKey] is ISO-shaped, with a month in 1..12
    and a day in 1..31 *)
Lemma parseISOKey_fields e s :
  App.parseISOKey e s = Some s ->
  isoPattern s = true /\ 1 <= monthOf s <= 12 /\ 1 <= dayOf s <= 31.
Proof.
  unfold App.parseISOKey. cbv zeta.
  destruct (isoPattern s) eqn:Hs; [|discriminate]. cbn [negb].
  destruct (iso_dayKey s Hs) as (_ & _ & _ & Hl).
  unfold Date_parse. destruct (slice_prefix s "T00:00:00Z" Hl) as [-> ->].
  rewrite Hs. cbn [andb String.eqb Ascii.eqb Bool.eqb].
  fold (monthOf s) (dayOf s).
  destruct (Z.leb_spec 1 (monthOf s)); [|discriminate].
  destruct (Z.leb_spec (monthOf s) 12); [|discriminate].
  destruct (Z.leb_spec 1 (dayOf s)); [|discriminate]. cbn [andb].
  destruct (Z.leb_spec (dayOf s) (lastDay e (digitsValue 0 (slice 0 4 s)) (monthOf s)));
    [|discriminate].
  intros _. split; [done|]. split; [lia|].
  assert (lastDay e (digitsValue 0 (slice 0 4 s)) (monthOf s) <= 31); [|lia].
  destruct e; cbn [lastDay]; [apply DaysInMonth_ge|lia].
Qed.

Lemma store_keys_iso e l :
  Forall (fun p => App.parseISOKey e (App.date p) = Some (App.date p)) l ->
  Forall (fun p => isoPattern (App.date p) = true) l.
Proof.
  rewrite !list.Forall_forall. intros H p Hp.
  by destruct (parseISOKey_fields e _ (H p Hp)) as [? _].
Qed.

Lemma monthMaxDay_bounds e l mk :
  Forall (fun p => App.parseISOKey e (App.date p) = Some (App.date p)) l ->
  inMonth mk l <> [] ->
  1 <= monthMaxDay mk l <= 31 /\
  (exists p, p ∈ l /\ App.monthKey (App.date p) = mk /\ dayOf (App.date p) = monthMaxDay mk l) /\
  (forall p, p ∈ l -> App.monthKey (App.date p) = mk -> dayOf (App.date p) <= monthMaxDay mk l).
Proof.
  intros Hk Hne. unfold monthMaxDay.
  set (ds := dayOf ∘ App.date <$> inMonth mk l).
  assert (forall d, d ∈ ds -> 1 <= d <= 31 /\
            exists p, p ∈ l /\ App.monthKey (App.date p) = mk /\ dayOf (App.date p) = d) as Hds.
  { intros d Hd. unfold ds in Hd. apply list_elem_of_fmap in Hd as (p & -> & Hp).
    unfold inMonth in Hp. apply list_elem_of_filter in Hp as [Hm Hp].
    rewrite list.Forall_forall in Hk. destruct (parseISOKey_fields e _ (Hk _ Hp)) as (_ & _ & Hd).
    split; [exact Hd|]. by exists p. }
  destruct (foldl_max_ge ds 0) as [_ Hge]. rewrite list.Forall_forall in Hge.
  assert (exists d, d ∈ ds) as [d0 Hd0].
  { unfold ds. destruct (inMonth mk l) as [|p ps]; [done|].
    eexists. cbn [fmap list_fmap]. apply list_elem_of_here. }
  pose proof (Hge _ Hd0) as Hle0. destruct (Hds _ Hd0) as [Hr0 _].
  destruct (foldl_max_in ds 0) as [E|Hin]; [lia|].
  destruct (Hds _ Hin) as [Hr Hp]. split; [exact Hr|]. split; [exact Hp|].
  intros p Hp' Hm. apply Hge. unfold ds. apply list_elem_of_fmap. exists p.
  split; [done|]. unfold inMonth. apply list_elem_of_filter. by split.
Qed.

(** X28: On a store of accepted, distinct keys the monthly rollup carries, for
    every month, the total and the highest day of the month, and from year
    1001 on its growth figures compare the total with the days 1..k of the
    previous month and of the same month one year earlier. *)
Lemma toMonthly_month_to_date (e : engine) (l : list App.DailyPoint) :
  Forall (fun p => App.parseISOKey e (App.date p) = Some (App.date p)) l ->
  NoDup (App.date <$> l) ->
  forall r, r ∈ App.toMonthly l ->
    let mk := App.month r in
    let k := monthMaxDay mk l in
    let prev := previousMonth (yearOf mk) (monthOf mk) in
    inMonth mk l <> [] /\
    App.total_gwh r = monthTotal mk l /\
    App.max_day r = ofZ k /\ 1 <= k <= 31 /\
    (1001 <= yearOf mk ->
       App.mom_pct r =
         App.comparePct (App.total_gwh r)
           (comparableSum (App.lookupOf l) (monthText prev.1 prev.2) k) /\
       App.yoy_pct r =
         App.comparePct (App.total_gwh r)
           (comparableSum (App.lookupOf l) (monthText (yearOf mk - 1) (monthOf mk)) k)).
Proof.
  intros Hkeys Hnd r Hr. cbv zeta.
  pose proof (store_keys_iso e l Hkeys) as Hiso.
  apply toMonthly_rows in Hr as (mk & rec & Hmap & ->).
  unfold App.monthlyRow. cbv zeta.
  cbn [App.month App.total_gwh App.max_day App.mom_pct App.yoy_pct].
  destruct (month_fields l Hiso mk) as (Hnone & Htot & Hmax).
  assert (inMonth mk l <> []) as Hne.
  { intros E. apply Hnone in E. congruence. }
  destruct (monthMaxDay_bounds e l mk Hkeys Hne) as (Hk & (p & Hp & Hpm & _) & _).
  rewrite list.Forall_forall in Hkeys.
  destruct (parseISOKey_fields e _ (Hkeys _ Hp)) as (Hs & Hmonth & _).
  destruct (month_decompose _ Hs) as (_ & EY & EM & _).
  split; [exact Hne|]. split; [exact Htot|]. split; [exact Hmax|]. split; [exact Hk|].
  intros Hy. rewrite Hmax.
  rewrite !sumMonthUpToDay_store by (done || lia).
  subst mk. rewrite EY, EM in *.
  by rewrite addMonths_previous, prevYearKey_previous by (done || lia).
Qed.

Lemma toMonthly_month_to_date_witness :
  App.total_gwh (App.mkMonthly "2024-03" (ofZ 50) (ofZ 10) None (Some (ofZ 25))) =
  monthTotal "2024-03" (february2024 ++ march2024).
Proof.
  apply (toMonthly_month_to_date StrictDays (february2024 ++ march2024));
    apply (bool_decide_unpack _); vm_compute; exact I.
Defined.

Lemma toMonthly_month_to_date_example2 :
  App.comparePct (ofZ 50) (comparableSum (App.lookupOf (february2024 ++ march2024))
                             (monthText 2024 2) 10) = Some (ofZ 25).
Proof. by_compute. Qed.

(** C1: the comparison keys are printed without padding the year, so before
    year 1001 the previous month (or year) is never found.  With data on
    day 5 of 0999-01 and of 0999-02, the row of 0999-02 has no [mom_pct],
    although the comparable sum of 0999-01 is 40 and [growthPct 50 40] is
    25. *)
Lemma toMonthly_misses_previous_month_before_1000 :
  App.toMonthly ancientStore =
    [App.mkMonthly "0999-01" (ofZ 40) (ofZ 5) None None;
     App.mkMonthly "0999-02" (ofZ 50) (ofZ 5) None None] /\
  App.addMonths "0999-02" (ofZ (-1)) = "999-01" /\
  App.sumMonthUpToDay (App.buildMonthDayMap ancientStore !! "0999-01") (ofZ 5) = Some (ofZ 40) /\
  App.growthPct (ofZ 50) (Some (ofZ 40)) = Some (ofZ 25).
Proof.
  repeat split; by_compute.
Qed.

(** the example of the specification: March 2024 against days 1-10 of
    February 2024 *)
Lemma toMonthly_month_to_date_example :
  App.toMonthly (february2024 ++ march2024) =
    [App.mkMonthly "2024-02" (ofZ 100) (ofZ 28) None None;
     App.mkMonthly "2024-03" (ofZ 50) (ofZ 10) None (Some (ofZ 25))] /\
  App.growthPct (ofZ 50) (Some (ofZ 100)) = Some (ofZ (-50)).
Proof.
  split; by_compute.
Qed.

(* ====================================================================== *)
(** * Rolling 30-day sums *)
(* ====================================================================== *)

Lemma inEra_year x : inEra x -> 0 <= YearFromDay x <= 9999.
Proof.
  unfold inEra. intros H. pose proof (YearFromDay_spec x) as S.
  destruct (Z.lt_ge_cases (YearFromDay x) 0) as [Hlt|Hge].
  - pose proof (DayFromYear_mono (YearFromDay x + 1) 0 ltac:(lia)). lia.
  - split; [lia|]. destruct (Z.lt_ge_cases 9999 (YearFromDay x)) as [Hgt|?]; [|lia].
    pose proof (DayFromYear_mono 10000 (YearFromDay x) ltac:(lia)). lia.
Qed.

Lemma inEra_clip x : inEra x -> TimeClip x = Some x.
Proof.
  unfold inEra, TimeClip. change (DayFromYear 0) with (-719528).
  change (DayFromYear 10000) with 2932897. intros H.
  destruct (Z.leb_spec (Z.abs x) 100000000); [done|lia].
Qed.

Lemma isDigit_digitChar v : 0 <= v <= 9 -> isDigit (digitChar v) = true.
Proof.
  intros H. unfold isDigit, digitChar. cbv zeta. rewrite code_chr by lia. lia.
Qed.

Lemma digitVal_digitChar v : 0 <= v <= 9 -> digitVal (digitChar v) = v.
Proof. intros H. unfold digitVal, digitChar. rewrite code_chr by lia. lia. Qed.

Lemma string_app_assoc (a b c : string) : (a +:+ b) +:+ c = a +:+ (b +:+ c).
Proof.
  induction a as [|x a IH]; [reflexivity|].
  change (String x a +:+ b) with (String x (a +:+ b)).
  change (String x (a +:+ b) +:+ c) with (String x ((a +:+ b) +:+ c)).
  change (String x a +:+ (b +:+ c)) with (String x (a +:+ (b +:+ c))). by rewrite IH.
Qed.

(** the text of a day in the four-digit years, and its fields *)
Lemma isoOfDay_text x :
  inEra x ->
  isoOfDay x =
    fourDigits (YearFromDay x) +:+ "-" +:+ twoDigits (MonthFromDay x + 1) +:+ "-" +:+
    twoDigits (DateFromDay x).
Proof.
  intros H. pose proof (inEra_year x H). pose proof (civil_valid x) as [Hm Hd].
  pose proof (DaysInMonth_ge (YearFromDay x) (MonthFromDay x + 1)).
  unfold isoOfDay. by rewrite pad4_fourDigits, !pad2_twoDigits by lia.
Qed.

Lemma fourDigits_fields n :
  0 <= n < 10000 ->
  allDigits (fourDigits n) = true /\ digitsValue 0 (fourDigits n) = n.
Proof.
  intros H. unfold fourDigits. cbn [allDigits digitsValue].
  rewrite !isDigit_digitChar, !digitVal_digitChar by zlia. split; [reflexivity|zlia].
Qed.

Lemma twoDigits_fields n :
  0 <= n < 100 ->
  allDigits (twoDigits n) = true /\ digitsValue 0 (twoDigits n) = n.
Proof.
  intros H. unfold twoDigits. cbn [allDigits digitsValue].
  rewrite !isDigit_digitChar, !digitVal_digitChar by zlia. split; [reflexivity|zlia].
Qed.

Lemma isoOfDay_fields x :
  inEra x ->
  isoPattern (isoOfDay x) = true /\ String.length (isoOfDay x) = 10%nat /\
  yearOf (isoOfDay x) = YearFromDay x /\
  monthOf (isoOfDay x) = MonthFromDay x + 1 /\
  dayOf (isoOfDay x) = DateFromDay x.
Proof.
  intros H. rewrite isoOfDay_text by done.
  pose proof (inEra_year x H). pose proof (civil_valid x) as [Hm Hd].
  pose proof (DaysInMonth_ge (YearFromDay x) (MonthFromDay x + 1)).
  destruct (fourDigits_fields (YearFromDay x)) as [A1 V1]; [lia|].
  destruct (twoDigits_fields (MonthFromDay x + 1)) as [A2 V2]; [lia|].
  destruct (twoDigits_fields (DateFromDay x)) as [A3 V3]; [lia|].
  unfold yearOf, monthOf, dayOf.
  revert A1 V1 A2 V2 A3 V3. unfold fourDigits, twoDigits.
  generalize (digitChar (YearFromDay x / 1000)) (digitChar (YearFromDay x / 100 mod 10))
             (digitChar (YearFromDay x / 10 mod 10)) (digitChar (YearFromDay x mod 10))
             (digitChar ((MonthFromDay x + 1) / 10)) (digitChar ((MonthFromDay x + 1) mod 10))
             (digitChar (DateFromDay x / 10)) (digitChar (DateFromDay x mod 10)).
  intros y1 y2 y3 y4 m1 m2 d1 d2 A1 V1 A2 V2 A3 V3.
  cbn [allDigits] in A1, A2, A3.
  repeat match goal with
         | A : _ && _ = true |- _ => apply andb_true_iff in A as [? A]
         end.
  change (String y1 (String y2 (String y3 (String y4 ""))) +:+ "-" +:+
          String m1 (String m2 "") +:+ "-" +:+ String d1 (String d2 ""))
    with (String y1 (String y2 (String y3 (String y4 (String "-" (String m1 (String m2
            (String "-" (String d1 (String d2 "")))))))))).
  cbn [isoPattern String.length slice substring Nat.sub].
  repeat match goal with
         | Hd : isDigit ?a = true |- context [isDigit ?a] => rewrite Hd
         end.
  rewrite Ascii.eqb_refl. repeat split; assumption || reflexivity.
Qed.

Lemma Date_parse_day e x :
  inEra x -> Date_parse e (isoOfDay x +:+ "T00:00:00Z") = Some x.
Proof.
  intros H. destruct (isoOfDay_fields x H) as (Hp & Hl & Hy & Hm & Hd).
  unfold Date_parse. destruct (slice_prefix (isoOfDay x) "T00:00:00Z" Hl) as [-> ->].
  rewrite Hp. cbn [andb String.eqb Ascii.eqb Bool.eqb].
  fold (yearOf (isoOfDay x)) (monthOf (isoOfDay x)) (dayOf (isoOfDay x)).
  rewrite Hy, Hm, Hd.
  pose proof (civil_valid x) as [Rm Rd].
  assert (DateFromDay x <= lastDay e (YearFromDay x) (MonthFromDay x + 1)) as Hlast.
  { destruct e; cbn [lastDay]; [lia|].
    pose proof (DaysInMonth_ge (YearFromDay x) (MonthFromDay x + 1)). lia. }
  destruct (Z.leb_spec 1 (MonthFromDay x + 1)); [|lia].
  destruct (Z.leb_spec (MonthFromDay x + 1) 12); [|lia].
  destruct (Z.leb_spec 1 (DateFromDay x)); [|lia].
  destruct (Z.leb_spec (DateFromDay x) (lastDay e (YearFromDay x) (MonthFromDay x + 1))); [|lia].
  cbn [andb]. replace (MonthFromDay x + 1 - 1) with (MonthFromDay x) by lia.
  rewrite MakeDay_of_civil. by apply inEra_clip.
Qed.

Lemma toISOString_day x :
  inEra x -> slice 0 10 <$> toISOString (Some x) = Some (isoOfDay x).
Proof.
  intros H. destruct (isoOfDay_fields x H) as (_ & Hl & _).
  pose proof (inEra_year x H) as Hy. unfold toISOString.
  destruct (Z.leb_spec 0 (YearFromDay x)); [|lia].
  destruct (Z.leb_spec (YearFromDay x) 9999); [|lia]. cbn [andb fmap option_fmap option_map].
  f_equal.
  replace (pad 4 (YearFromDay x) +:+ "-" +:+ pad 2 (MonthFromDay x + 1) +:+ "-" +:+
           pad 2 (DateFromDay x) +:+ "T00:00:00.000Z")
    with (isoOfDay x +:+ "T00:00:00.000Z").
  - by destruct (slice_prefix (isoOfDay x) "T00:00:00.000Z" Hl) as [-> _].
  - unfold isoOfDay. by rewrite !string_app_assoc.
Qed.

Lemma MakeDay_shift y m d n : MakeDay y m (d + n) = MakeDay y m d + n.
Proof. unfold MakeDay. lia. Qed.

(** stepping a key by days, forwards and backwards *)
Lemma isoPlusDays_day e x n :
  inEra x -> inEra (x + n) ->
  App.isoPlusDays e (isoOfDay x) (ofZ n) = Some (isoOfDay (x + n)).
Proof.
  intros Hx Hn. unfold App.isoPlusDays. rewrite Date_parse_day by done.
  cbn [getUTCDate]. rewrite nadd_ofZ. unfold setUTCDate, ofZ. rewrite qtrunc_qz.
  rewrite MakeDay_shift, MakeDay_of_civil, inEra_clip by done.
  by apply toISOString_day.
Qed.

Lemma isoMinusDays_day e x n :
  inEra x -> inEra (x - n) ->
  App.isoMinusDays e (isoOfDay x) (ofZ n) = Some (isoOfDay (x - n)).
Proof.
  intros Hx Hn. unfold App.isoMinusDays. rewrite Date_parse_day by done.
  cbn [getUTCDate]. rewrite nsub_ofZ. unfold setUTCDate, ofZ. rewrite qtrunc_qz.
  replace (DateFromDay x - n) with (DateFromDay x + - n) by lia.
  rewrite MakeDay_shift, MakeDay_of_civil.
  replace (x + - n) with (x - n) by lia. rewrite inEra_clip by done.
  by apply toISOString_day.
Qed.

Lemma stamp_same_year x y :
  YearFromDay x = YearFromDay y -> x < y ->
  (MonthFromDay x + 1) * 100 + DateFromDay x < (MonthFromDay y + 1) * 100 + DateFromDay y.
Proof.
  intros HY Hlt.
  pose proof (DayWithinYear_range x) as Rx. pose proof (DayWithinYear_range y) as Ry.
  assert (DayWithinYear x < DayWithinYear y) as Hn by (unfold DayWithinYear; rewrite HY; lia).
  unfold DateFromDay, MonthFromDay. rewrite <- HY in *.
  set (n := DayWithinYear x) in *. set (n' := DayWithinYear y) in *.
  destruct (leapDay_cases (YearFromDay x)) as [[HL HD] | [HL HD]]; rewrite HL, HD in *;
    repeat (match goal with |- context [?a <? ?b] => destruct (Z.ltb_spec a b); try lia end);
    cbn [monthStart]; lia.
Qed.

(** the calendar order is the order of the stamps *)
Lemma stamp_lt x y : x < y -> stamp x < stamp y.
Proof.
  intros Hlt. unfold stamp.
  pose proof (civil_valid x) as [Mx Dx]. pose proof (civil_valid y) as [My Dy].
  pose proof (DaysInMonth_ge (YearFromDay x) (MonthFromDay x + 1)).
  pose proof (DaysInMonth_ge (YearFromDay y) (MonthFromDay y + 1)).
  pose proof (YearFromDay_spec x) as Sx. pose proof (YearFromDay_spec y) as Sy.
  destruct (Z.lt_trichotomy (YearFromDay x) (YearFromDay y)) as [H1|[H1|H1]].
  - lia.
  - pose proof (stamp_same_year x y H1 Hlt). lia.
  - pose proof (DayFromYear_mono (YearFromDay y + 1) (YearFromDay x) ltac:(lia)). lia.
Qed.

Lemma stamp_compare x y : Z.compare (stamp x) (stamp y) = Z.compare x y.
Proof.
  destruct (Z.lt_trichotomy x y) as [H|[->|H]].
  - apply stamp_lt in H as H'. rewrite (proj2 (Z.compare_lt_iff _ _) H).
    by apply Z.compare_lt_iff.
  - by rewrite !Z.compare_refl.
  - apply stamp_lt in H as H'. rewrite (proj2 (Z.compare_gt_iff _ _) H).
    by apply Z.compare_gt_iff.
Qed.

Lemma Ascii_compare_code a b : Ascii.compare a b = Z.compare (code a) (code b).
Proof. unfold Ascii.compare, code. by rewrite N2Z.inj_compare. Qed.

(** digit strings of one length compare as their values *)
Lemma compare_digits s1 : forall s2,
  allDigits s1 = true -> allDigits s2 = true -> String.length s1 = String.length s2 ->
  String.compare s1 s2 = Z.compare (digitsValue 0 s1) (digitsValue 0 s2).
Proof.
  induction s1 as [|a s1 IH]; intros [|b s2] H1 H2 Hl; try discriminate; [reflexivity|].
  cbn [allDigits] in H1, H2. apply andb_true_iff in H1 as [Ha H1].
  apply andb_true_iff in H2 as [Hb H2]. cbn [String.length] in Hl. injection Hl as Hl.
  cbn [String.compare digitsValue]. rewrite Ascii_compare_code.
  rewrite (digitsValue_acc s1), (digitsValue_acc s2), <- Hl.
  pose proof (digitsValue_bound s1 H1) as B1. pose proof (digitsValue_bound s2 H2) as B2.
  rewrite <- Hl in B2. set (P := 10 ^ Z.of_nat (String.length s1)) in *.
  pose proof (isDigit_code a Ha). pose proof (isDigit_code b Hb). unfold digitVal.
  destruct (Z.compare_spec (code a) (code b)) as [E|E|E].
  - rewrite E, IH by done. symmetry. apply Z.add_compare_mono_l.
  - symmetry. apply Z.compare_lt_iff. nia.
  - symmetry. apply Z.compare_gt_iff. nia.
Qed.

Lemma leb_compare s1 s2 :
  String.leb s1 s2 = match String.compare s1 s2 with Gt => false | _ => true end.
Proof. reflexivity. Qed.

Lemma ltb_compare s1 s2 :
  String.ltb s1 s2 = match String.compare s1 s2 with Lt => true | _ => false end.
Proof. reflexivity. Qed.

(** on the four-digit years, keys compare as their days *)
Lemma isoOfDay_compare x y :
  inEra x -> inEra y -> String.compare (isoOfDay x) (isoOfDay y) = Z.compare x y.
Proof.
  intros Hx Hy. rewrite <- stamp_compare. rewrite !isoOfDay_text by done.
  pose proof (inEra_year x Hx). pose proof (inEra_year y Hy).
  pose proof (civil_valid x) as [Mx Dx]. pose proof (civil_valid y) as [My Dy].
  pose proof (DaysInMonth_ge (YearFromDay x) (MonthFromDay x + 1)).
  pose proof (DaysInMonth_ge (YearFromDay y) (MonthFromDay y + 1)).
  destruct (fourDigits_fields (YearFromDay x)) as [A1 V1]; [lia|].
  destruct (twoDigits_fields (MonthFromDay x + 1)) as [A2 V2]; [lia|].
  destruct (twoDigits_fields (DateFromDay x)) as [A3 V3]; [lia|].
  destruct (fourDigits_fields (YearFromDay y)) as [B1 W1]; [lia|].
  destruct (twoDigits_fields (MonthFromDay y + 1)) as [B2 W2]; [lia|].
  destruct (twoDigits_fields (DateFromDay y)) as [B3 W3]; [lia|].
  unfold stamp. revert A1 V1 A2 V2 A3 V3 B1 W1 B2 W2 B3 W3. unfold fourDigits, twoDigits.
  generalize (digitChar (YearFromDay x / 1000)) (digitChar (YearFromDay x / 100 mod 10))
             (digitChar (YearFromDay x / 10 mod 10)) (digitChar (YearFromDay x mod 10))
             (digitChar ((MonthFromDay x + 1) / 10)) (digitChar ((MonthFromDay x + 1) mod 10))
             (digitChar (DateFromDay x / 10)) (digitChar (DateFromDay x mod 10)).
  intros y1 y2 y3 y4 m1 m2 d1 d2.
  generalize (digitChar (YearFromDay y / 1000)) (digitChar (YearFromDay y / 100 mod 10))
             (digitChar (YearFromDay y / 10 mod 10)) (digitChar (YearFromDay y mod 10))
             (digitChar ((MonthFromDay y + 1) / 10)) (digitChar ((MonthFromDay y + 1) mod 10))
             (digitChar (DateFromDay y / 10)) (digitChar (DateFromDay y mod 10)).
  intros z1 z2 z3 z4 n1 n2 e1 e2 A1 V1 A2 V2 A3 V3 B1 W1 B2 W2 B3 W3.
  rewrite <- V1, <- V2, <- V3, <- W1, <- W2, <- W3. clear V1 V2 V3 W1 W2 W3.
  set (s1 := String y1 (String y2 (String y3 (String y4 (String m1 (String m2
               (String d1 (String d2 "")))))))).
  set (s2 := String z1 (String z2 (String z3 (String z4 (String n1 (String n2
               (String e1 (String e2 "")))))))).
  transitivity (String.compare s1 s2).
  - unfold s1, s2.
    change (String y1 (String y2 (String y3 (String y4 ""))) +:+ "-" +:+
            String m1 (String m2 "") +:+ "-" +:+ String d1 (String d2 ""))
      with (String y1 (String y2 (String y3 (String y4 (String "-" (String m1 (String m2
              (String "-" (String d1 (String d2 "")))))))))).
    change (String z1 (String z2 (String z3 (String z4 ""))) +:+ "-" +:+
            String n1 (String n2 "") +:+ "-" +:+ String e1 (String e2 ""))
      with (String z1 (String z2 (String z3 (String z4 (String "-" (String n1 (String n2
              (String "-" (String e1 (String e2 "")))))))))).
    cbn [String.compare].
    change (Ascii.compare "-" "-") with Eq. reflexivity.
  - rewrite compare_digits.
    + f_equal; unfold s1, s2; cbn [digitsValue]; lia.
    + unfold s1. cbn [allDigits] in *.
      repeat match goal with
             | A : _ && _ = true |- _ => apply andb_true_iff in A as [? A]
             end.
      repeat match goal with
             | Hd : isDigit ?a = true |- context [isDigit ?a] => rewrite Hd
             end. reflexivity.
    + unfold s2. cbn [allDigits] in *.
      repeat match goal with
             | A : _ && _ = true |- _ => apply andb_true_iff in A as [? A]
             end.
      repeat match goal with
             | Hd : isDigit ?a = true |- context [isDigit ?a] => rewrite Hd
             end. reflexivity.
    + reflexivity.
Qed.

Lemma isoOfDay_leb x y : inEra x -> inEra y -> String.leb (isoOfDay x) (isoOfDay y) = Z.leb x y.
Proof.
  intros Hx Hy. rewrite leb_compare, isoOfDay_compare by done. unfold Z.leb.
  by destruct (x ?= y).
Qed.

Lemma isoOfDay_ltb x y : inEra x -> inEra y -> String.ltb (isoOfDay x) (isoOfDay y) = Z.ltb x y.
Proof.
  intros Hx Hy. rewrite ltb_compare, isoOfDay_compare by done. unfold Z.ltb.
  by destruct (x ?= y).
Qed.

Lemma isoOfDay_inj x y : inEra x -> inEra y -> isoOfDay x = isoOfDay y -> x = y.
Proof.
  intros Hx Hy E. apply Z.compare_eq. rewrite <- isoOfDay_compare by done. rewrite E.
  destruct (String.compare (isoOfDay y) (isoOfDay y)) eqn:C; [done|..];
    rewrite isoOfDay_compare in C by done; rewrite Z.compare_refl in C; discriminate.
Qed.















Lemma lookupOf_empty (l : list App.DailyPoint) : l <> [] -> list.last l <> None.
Proof.
  intros H E. by apply last_None in E.
Qed.



(** what [src/App.tsx] reports for a day *)
Lemma rolling30_units_App (store : gmap string number) (d : Z) :
  (windowValues store d = [] -> App.units (appPoint store d) = Some (ofZ 0)) /\
  (forall v vs, windowValues store d = v :: vs ->
     App.units (appPoint store d) = App.round2 (Some (foldl nadd (ofZ 0) (v :: vs)))) /\
  (App.c_yoy_pct (appPoint store d) <> None ->
     windowValues store d <> [] /\ windowValues store (d - 365) <> []).
Proof.
  assert (App.round2 (Some (ofZ 0)) = Some (ofZ 0)) as Hzero by by_compute.
  unfold appPoint, windowSum. cbn [App.units App.c_yoy_pct].
  destruct (windowValues store d) as [|v vs], (windowValues store (d - 365)) as [|w ws];
    cbn [default].
  - split; [intros _; exact Hzero|]. split; [intros ? ? E; discriminate E|].
    intros H; by contradiction H.
  - split; [intros _; exact Hzero|]. split; [intros ? ? E; discriminate E|].
    intros H; by contradiction H.
  - split; [intros E; discriminate E|]. split; [by intros ? ? [= <- <-]|].
    intros H; by contradiction H.
  - split; [intros E; discriminate E|]. split; [by intros ? ? [= <- <-]|].
    intros _; split; intros E; discriminate E.
Qed.

(** what the second copy reports for a day *)
Lemma rolling30_units_Alt (store : gmap string number) (d : Z) :
  (App.units (altPoint store d) = None <-> windowValuesBack store d = []) /\
  (forall v vs, windowValuesBack store d = v :: vs ->
     App.units (altPoint store d) = Some (Alt.fixed2 (foldl nadd (ofZ 0) (v :: vs)))) /\
  (App.c_yoy_pct (altPoint store d) <> None ->
     windowValuesBack store d <> [] /\ windowValuesBack store (d - 365) <> []).
Proof.
  unfold altPoint, windowSumBack. cbn [App.units App.c_yoy_pct].
  destruct (windowValuesBack store d) as [|v vs],
    (windowValuesBack store (d - 365)) as [|w ws];
    cbn [fmap option_fmap option_map].
  - split; [done|]. split; [intros ? ? E; discriminate E|]. intros H; by contradiction H.
  - split; [done|]. split; [intros ? ? E; discriminate E|]. intros H; by contradiction H.
  - split; [split; intros E; discriminate E|]. split; [by intros ? ? [= <- <-]|].
    intros H; by contradiction H.
  - split; [split; intros E; discriminate E|]. split; [by intros ? ? [= <- <-]|].
    intros _; split; intros E; discriminate E.
Qed.

(** what the two copies report for a day, each over the stored days of the
    window in the order it reads them *)
Lemma rolling30_units (store : gmap string number) (d : Z) :
  ((windowValues store d = [] -> App.units (appPoint store d) = Some (ofZ 0)) /\
   (forall v vs, windowValues store d = v :: vs ->
      App.units (appPoint store d) = App.round2 (Some (foldl nadd (ofZ 0) (v :: vs)))) /\
   (App.c_yoy_pct (appPoint store d) <> None ->
      windowValues store d <> [] /\ windowValues store (d - 365) <> [])) /\
  ((App.units (altPoint store d) = None <-> windowValuesBack store d = []) /\
   (forall v vs, windowValuesBack store d = v :: vs ->
      App.units (altPoint store d) = Some (Alt.fixed2 (foldl nadd (ofZ 0) (v :: vs)))) /\
   (App.c_yoy_pct (altPoint store d) <> None ->
      windowValuesBack store d <> [] /\ windowValuesBack store (d - 365) <> [])).
Proof. split; [apply rolling30_units_App|apply rolling30_units_Alt]. Qed.

(** C2: in [src/App.tsx] a window without any contributing day is reported
    as 0; the second copy of the component reports null.  The store holds
    2024-01-01 only, and none of the 30 days up to 2024-06-01 is in it. *)
Lemma rolling30_empty_window_reads_zero (e : engine) :
  Forall (fun i => App.isoMinusDays e "2024-06-01" (ofZ i) ≫= (App.lookupOf januaryOnly !!.)
                   = None) (seqZ 0 30) /\
  App.dailyForChart e 40 januaryOnly (ofZ 120) "2024-06-01" "2024-06-01" App.rolling30 =
    App.Ret [App.mkChart "01-06-2024" (Some (ofZ 0)) None None None] /\
  Alt.dailyForChart e 40 januaryOnly "2024-06-01" "2024-06-01" Alt.rolling30 =
    App.Ret [App.mkChart "01-06-2024" None None None None].
Proof.
  split; [|split]; destruct e; by_compute.
Qed.

(* ====================================================================== *)
(** * Keys and days *)
(* ====================================================================== *)

Lemma iso_text s :
  isoPattern s = true ->
  s = fourDigits (yearOf s) +:+ "-" +:+ twoDigits (monthOf s) +:+ "-" +:+ twoDigits (dayOf s) /\
  0 <= yearOf s < 10000 /\ 0 <= monthOf s < 100 /\ 0 <= dayOf s < 100.
Proof.
  intros H. destruct (iso_decompose s H) as (y1 & y2 & y3 & y4 & m1 & m2 & d1 & d2 & -> & Hs).
  destruct Hs as (Y1 & Y2 & Y3 & Y4 & M1 & M2 & D1 & D2).
  destruct (fourDigits_value y1 y2 y3 y4 Y1 Y2 Y3 Y4) as (Ry & _ & Ey).
  destruct (twoDigits_value m1 m2 M1 M2) as (Rm & Em).
  destruct (twoDigits_value d1 d2 D1 D2) as (Rd & Ed).
  unfold yearOf, monthOf, dayOf. cbn [slice substring Nat.sub].
  rewrite Ey, Em, Ed. repeat split; try reflexivity; lia.
Qed.

Lemma realKey_day s :
  realKey s -> inEra (dayNumber s) /\ isoOfDay (dayNumber s) = s.
Proof.
  intros [Hp [Hm Hd]]. destruct (iso_text s Hp) as (Es & Ry & _ & _).
  destruct (MakeDay_civil (yearOf s) (monthOf s) (dayOf s) Hm Hd) as (Y & M & D).
  fold (dayNumber s) in Y, M, D.
  assert (inEra (dayNumber s)) as He.
  { unfold inEra. pose proof (YearFromDay_spec (dayNumber s)) as S. rewrite Y in S.
    pose proof (DayFromYear_mono 0 (yearOf s) ltac:(lia)).
    pose proof (DayFromYear_mono (yearOf s + 1) 10000 ltac:(lia)). lia. }
  split; [done|]. rewrite isoOfDay_text by done. rewrite Y, M, D.
  replace (monthOf s - 1 + 1) with (monthOf s) by lia. by rewrite <- Es.
Qed.

Lemma day_realKey x :
  inEra x -> realKey (isoOfDay x) /\ dayNumber (isoOfDay x) = x.
Proof.
  intros H. destruct (isoOfDay_fields x H) as (Hp & _ & Hy & Hm & Hd).
  pose proof (civil_valid x) as [Rm Rd].
  unfold realKey, realDate, dayNumber. rewrite Hy, Hm, Hd.
  repeat split; try done; try lia.
  replace (MonthFromDay x + 1 - 1) with (MonthFromDay x) by lia. apply MakeDay_of_civil.
Qed.

Lemma DayFromYear_bounds y : 0 <= y <= 10000 -> -719528 <= DayFromYear y <= 2932897.
Proof.
  intros H. pose proof (DayFromYear_mono 0 y ltac:(lia)).
  pose proof (DayFromYear_mono y 10000 ltac:(lia)).
  change (DayFromYear 0) with (-719528) in *. change (DayFromYear 10000) with 2932897 in *. lia.
Qed.

Lemma monthStart_bounds m L : 0 <= L <= 1 -> 0 <= monthStart m L <= 335.
Proof.
  intros H. unfold monthStart.
  destruct m as [|p|p]; try lia.
  do 4 (try (destruct p as [p|p|]; try lia)).
Qed.

Lemma leapDay_range y : 0 <= leapDay y <= 1.
Proof. destruct (leapDay_cases y) as [[-> _]|[-> _]]; lia. Qed.

Lemma MakeDay_clip y m d :
  0 <= y <= 9999 -> 1 <= m <= 12 -> 1 <= d <= 31 ->
  TimeClip (MakeDay y (m - 1) d) = Some (MakeDay y (m - 1) d).
Proof.
  intros Hy Hm Hd. unfold TimeClip, MakeDay.
  replace ((m - 1) / 12) with 0 by zlia. rewrite Z.add_0_r.
  pose proof (DayFromYear_bounds y ltac:(lia)).
  pose proof (monthStart_bounds ((m - 1) mod 12) (leapDay y) (leapDay_range y)).
  destruct (Z.leb_spec (Z.abs (DayFromYear y + monthStart ((m - 1) mod 12) (leapDay y) + d - 1))
              100000000); [done|lia].
Qed.

Lemma Date_parse_key e s :
  isoPattern s = true ->
  Date_parse e (s +:+ "T00:00:00Z") =
  if (1 <=? monthOf s) && (monthOf s <=? 12) && (1 <=? dayOf s) &&
     (dayOf s <=? lastDay e (yearOf s) (monthOf s))
  then Some (dayNumber s) else None.
Proof.
  intros Hs. destruct (iso_text s Hs) as (_ & Ry & _ & _).
  destruct (iso_dayKey s Hs) as (_ & _ & _ & Hl).
  unfold Date_parse. destruct (slice_prefix s "T00:00:00Z" Hl) as [-> ->].
  rewrite Hs. cbn [andb String.eqb Ascii.eqb Bool.eqb].
  fold (yearOf s) (monthOf s) (dayOf s).
  destruct (Z.leb_spec 1 (monthOf s)); [|done].
  destruct (Z.leb_spec (monthOf s) 12); [|done].
  destruct (Z.leb_spec 1 (dayOf s)); [|done]. cbn [andb].
  destruct (Z.leb_spec (dayOf s) (lastDay e (yearOf s) (monthOf s))); [|done].
  apply MakeDay_clip; [lia..|].
  assert (lastDay e (yearOf s) (monthOf s) <= 31); [|lia].
  destruct e; cbn [lastDay]; [apply DaysInMonth_ge|lia].
Qed.

Lemma parseISOKey_char e s :
  App.parseISOKey e s = Some s <->
  isoPattern s = true /\ 1 <= monthOf s <= 12 /\
  1 <= dayOf s <= lastDay e (yearOf s) (monthOf s).
Proof.
  unfold App.parseISOKey. cbv zeta.
  destruct (isoPattern s) eqn:Hs; cbn [negb]; [|split; [discriminate|by intros [? _]]].
  rewrite Date_parse_key by done.
  destruct (Z.leb_spec 1 (monthOf s)), (Z.leb_spec (monthOf s) 12),
    (Z.leb_spec 1 (dayOf s)),
    (Z.leb_spec (dayOf s) (lastDay e (yearOf s) (monthOf s)));
    cbn [andb getTimeIsNaN]; split; try discriminate; try (intros (_ & ? & ?); lia); try done.
Qed.

Lemma parseISOKey_realKey e s : realKey s -> App.parseISOKey e s = Some s.
Proof.
  intros (Hp & Hm & Hd). apply parseISOKey_char. split; [done|]. split; [done|].
  destruct e; cbn [lastDay]; [done|].
  pose proof (DaysInMonth_ge (yearOf s) (monthOf s)). lia.
Qed.

(** X2: [parseISOKey] accepts exactly the texts of the form YYYY-MM-DD whose
    month is 1..12 and whose day is 1..the last day the engine admits for the
    month, and it returns the text itself. *)
Theorem parseISOKey_accepts_exactly (e : engine) (s : string) :
  (App.parseISOKey e s = Some s <->
     isoPattern s = true /\ 1 <= monthOf s <= 12 /\
     1 <= dayOf s <= lastDay e (yearOf s) (monthOf s)) /\
  (forall k, App.parseISOKey e s = Some k -> k = s) /\
  (App.parseISOKey StrictDays s = Some s <-> realKey s) /\
  (App.parseISOKey StrictDays s = Some s -> App.parseISOKey e s = Some s).
Proof.
  split; [apply parseISOKey_char|]. split; [apply parseISOKey_same|].
  assert (App.parseISOKey StrictDays s = Some s <-> realKey s) as Hreal.
  { rewrite parseISOKey_char. unfold realKey, realDate. cbn [lastDay]. tauto. }
  split; [done|]. rewrite Hreal. apply parseISOKey_realKey.
Qed.

Lemma parseISOKey_accepts_exactly_witness :
  App.parseISOKey RollOver "2024-02-29" = Some "2024-02-29".
Proof.
  apply (proj2 (proj2 (proj2 (parseISOKey_accepts_exactly RollOver "2024-02-29")))).
  vm_compute. reflexivity.
Defined.






(** X5: on a key that names a real day, [isoPlusDays] by a whole number of
    days yields the key of the day that many days later, [isoMinusDays]
    takes it back, and a later day compares greater as a string. *)
Theorem isoPlusDays_calendar (e : engine) (s : string) (n : Z) :
  realKey s -> inEra (dayNumber s + n) ->
  exists k,
    App.isoPlusDays e s (ofZ n) = Some k /\
    realKey k /\ dayNumber k = dayNumber s + n /\
    App.isoMinusDays e k (ofZ n) = Some s /\
    App.isoMinusDays e s (ofZ (- n)) = Some k /\
    (0 < n -> String.ltb s k = true /\ App.sortISO s k = -1).
Proof.
  intros Hs Hn. destruct (realKey_day s Hs) as [He Es].
  destruct (day_realKey _ Hn) as [Hk Ek].
  exists (isoOfDay (dayNumber s + n)).
  split; [by rewrite <- Es at 1; apply isoPlusDays_day|].
  split; [done|]. split; [done|].
  split.
  { rewrite isoMinusDays_day; [|done|by replace (dayNumber s + n - n) with (dayNumber s) by lia].
    by replace (dayNumber s + n - n) with (dayNumber s) by lia; rewrite Es. }
  split.
  { rewrite <- Es at 1. rewrite isoMinusDays_day;
      [|done|by replace (dayNumber s - - n) with (dayNumber s + n) by lia].
    by replace (dayNumber s - - n) with (dayNumber s + n) by lia. }
  intros Hpos.
  assert (String.ltb s (isoOfDay (dayNumber s + n)) = true) as Hlt.
  { rewrite <- Es at 1. rewrite isoOfDay_ltb by done. lia. }
  split; [done|]. unfold App.sortISO. by rewrite Hlt.
Qed.

Lemma isoPlusDays_calendar_witness :
  exists k, App.isoPlusDays StrictDays "2024-02-28" (ofZ 2) = Some k /\
            App.isoMinusDays StrictDays k (ofZ 2) = Some "2024-02-28".
Proof.
  destruct (isoPlusDays_calendar StrictDays "2024-02-28" 2) as (k & H1 & _ & _ & H2 & _).
  - split; [reflexivity|]. vm_compute. repeat split; discriminate.
  - vm_compute. split; [discriminate|reflexivity].
  - exists k. split; assumption.
Defined.

Lemma getUTCDay_range x : exists w, getUTCDay (Some x) = ofZ w /\ w = (x + 4) mod 7 /\ 0 <= w <= 6.
Proof. exists ((x + 4) mod 7). cbn [getUTCDay]. repeat split; zlia. Qed.




(* ====================================================================== *)
(** * The comparator *)
(* ====================================================================== *)

Lemma compare_refl s : String.compare s s = Eq.
Proof.
  induction s as [|a s IH]; [reflexivity|]. cbn [String.compare].
  rewrite Ascii_compare_code, Z.compare_refl. exact IH.
Qed.

Lemma compare_lt_trans a : forall b c,
  String.compare a b = Lt -> String.compare b c = Lt -> String.compare a c = Lt.
Proof.
  induction a as [|x a IH]; intros [|y b] [|z c]; cbn [String.compare]; try done.
  rewrite !Ascii_compare_code.
  destruct (Z.compare_spec (code x) (code y)) as [E1|L1|G1]; try done;
    destruct (Z.compare_spec (code y) (code z)) as [E2|L2|G2]; try done; intros H1 H2.
  - rewrite E1, E2, Z.compare_refl. by apply (IH b c).
  - rewrite E1. by rewrite (proj2 (Z.compare_lt_iff _ _) L2).
  - rewrite <- E2. by rewrite (proj2 (Z.compare_lt_iff _ _) L1).
  - by rewrite (proj2 (Z.compare_lt_iff (code x) (code z)) ltac:(lia)).
Qed.

Lemma sortISO_compare a b :
  App.sortISO a b = match String.compare a b with Lt => -1 | Eq => 0 | Gt => 1 end.
Proof.
  unfold App.sortISO. rewrite !ltb_compare, (String.compare_antisym a b).
  by destruct (String.compare b a).
Qed.

Lemma sortISO_le_trans a b c :
  App.sortISO a b <= 0 -> App.sortISO b c <= 0 -> App.sortISO a c <= 0.
Proof.
  rewrite !sortISO_compare.
  destruct (String.compare a b) eqn:E1; try lia;
    destruct (String.compare b c) eqn:E2; try lia; intros _ _.
  - apply String.compare_eq_iff in E1, E2. subst. rewrite compare_refl. lia.
  - apply String.compare_eq_iff in E1. subst. rewrite E2. lia.
  - apply String.compare_eq_iff in E2. subst. rewrite E1. lia.
  - rewrite (compare_lt_trans a b c E1 E2). lia.
Qed.

(** X9: [sortISO] is a comparator of a total order on strings. *)
Theorem sortISO_total_order (a b c : string) :
  App.sortISO a b = - App.sortISO b a /\
  (App.sortISO a b = 0 <-> a = b) /\
  (App.sortISO a b = -1 -> App.sortISO b c = -1 -> App.sortISO a c = -1) /\
  (App.sortISO a b <= 0 -> App.sortISO b c <= 0 -> App.sortISO a c <= 0) /\
  (App.sortISO a b = -1 \/ App.sortISO a b = 0 \/ App.sortISO a b = 1).
Proof.
  split; [|split; [|split; [|split; [apply sortISO_le_trans|]]]]; rewrite ?sortISO_compare.
  - rewrite (String.compare_antisym a b); by destruct (String.compare b a).
  - split.
    + destruct (String.compare a b) eqn:E; try done. intros _. by apply String.compare_eq_iff.
    + intros ->. by rewrite compare_refl.
  - destruct (String.compare a b) eqn:E1; try done.
    destruct (String.compare b c) eqn:E2; try done. intros _ _.
    by rewrite (compare_lt_trans a b c E1 E2).
  - destruct (String.compare a b); auto.
Qed.

Lemma sortISO_total_order_witness :
  App.sortISO "2024-01-31" "2024-03-01" = -1.
Proof.
  apply (proj1 (proj2 (proj2 (sortISO_total_order "2024-01-31" "2024-02-01" "2024-03-01"))));
    vm_compute; reflexivity.
Defined.

(** X10: on keys that name real days the order of [sortISO] is the order of
    the calendar. *)
Theorem sortISO_chronological (s t : string) :
  realKey s -> realKey t ->
  (App.sortISO s t = -1 <-> dayNumber s < dayNumber t) /\
  (App.sortISO s t = 0 <-> dayNumber s = dayNumber t) /\
  (App.sortISO s t = 1 <-> dayNumber t < dayNumber s) /\
  String.leb s t = Z.leb (dayNumber s) (dayNumber t).
Proof.
  intros Hs Ht. destruct (realKey_day s Hs) as [Es Ks], (realKey_day t Ht) as [Et Kt].
  rewrite sortISO_compare.
  assert (String.compare s t = Z.compare (dayNumber s) (dayNumber t)) as ->.
  { rewrite <- Ks at 1. rewrite <- Kt at 1. by apply isoOfDay_compare. }
  assert (String.leb s t = Z.leb (dayNumber s) (dayNumber t)) as ->.
  { rewrite <- Ks at 1. rewrite <- Kt at 1. by apply isoOfDay_leb. }
  destruct (Z.compare_spec (dayNumber s) (dayNumber t)); repeat split; intros; try done; lia.
Qed.

Lemma sortISO_chronological_witness :
  realKey "2023-12-31" /\ realKey "2024-01-01" /\
  String.leb "2023-12-31" "2024-01-01" = Z.leb (dayNumber "2023-12-31") (dayNumber "2024-01-01").
Proof.
  assert (realKey "2023-12-31") as H1
    by (split; [reflexivity|]; vm_compute; repeat split; discriminate).
  assert (realKey "2024-01-01") as H2
    by (split; [reflexivity|]; vm_compute; repeat split; discriminate).
  split; [exact H1|]. split; [exact H2|].
  exact (proj2 (proj2 (proj2 (sortISO_chronological "2023-12-31" "2024-01-01" H1 H2)))).
Defined.

(* ====================================================================== *)
(** * Bounds and rounding *)
(* ====================================================================== *)

Lemma qleb_le a b : qleb a b = true <-> (a <= b)%Qc.
Proof. unfold qleb. apply Qle_bool_iff. Qed.

Lemma qleb_gt a b : qleb a b = false <-> (b < a)%Qc.
Proof.
  rewrite <- not_true_iff_false, qleb_le. split.
  - apply Qcnot_le_lt.
  - apply Qclt_not_le.
Qed.

Lemma qltb_lt a b : qltb a b = true <-> (a < b)%Qc.
Proof. unfold qltb. rewrite negb_true_iff. apply (qleb_gt b a). Qed.

Lemma qltb_ge a b : qltb a b = false <-> (b <= a)%Qc.
Proof. unfold qltb. rewrite negb_false_iff. apply (qleb_le b a). Qed.

Lemma qleb_refl a : qleb a a = true.
Proof. apply qleb_le, Qcle_refl. Qed.

Lemma nleb_refl x : isNaN x = false -> nleb x x = true.
Proof. destruct x; cbn; try done. intros _. apply qleb_refl. Qed.

Lemma nleb_total x y : isNaN x = false -> isNaN y = false -> nleb x y = true \/ nleb y x = true.
Proof.
  destruct x as [a| | |], y as [b| | |]; cbn; try done; auto. intros _ _.
  destruct (qleb a b) eqn:E; [by left|right]. apply qleb_le, Qclt_le_weak. by apply qleb_gt.
Qed.

Lemma nleb_trans x y z : nleb x y = true -> nleb y z = true -> nleb x z = true.
Proof.
  destruct x as [a| | |], y as [b| | |], z as [c| | |]; cbn; try done.
  rewrite !qleb_le. apply Qcle_trans.
Qed.

Lemma nleb_antisym x y : nleb x y = true -> nleb y x = true -> x = y.
Proof.
  destruct x as [a| | |], y as [b| | |]; cbn; try done.
  rewrite !qleb_le. intros. f_equal. by apply Qcle_antisym.
Qed.

Lemma nleb_not_NaN x y : nleb x y = true -> isNaN x = false /\ isNaN y = false.
Proof. by destruct x, y. Qed.

Lemma Math_max_cases x y :
  isNaN x = false -> isNaN y = false -> Math_max x y = if nleb x y then y else x.
Proof. by destruct x, y. Qed.

Lemma Math_min_cases x y :
  isNaN x = false -> isNaN y = false -> Math_min x y = if nleb x y then x else y.
Proof. by destruct x, y. Qed.

(** X1: [clamp] keeps a number within its bounds. *)
Theorem clamp_within (n mn mx : number) :
  nleb mn mx = true ->
  App.clamp NaN mn mx = NaN /\
  (isNaN n = false ->
     nleb mn (App.clamp n mn mx) = true /\ nleb (App.clamp n mn mx) mx = true /\
     (nleb mn n = true -> nleb n mx = true -> App.clamp n mn mx = n) /\
     (nleb n mn = true -> App.clamp n mn mx = mn) /\
     (nleb mx n = true -> App.clamp n mn mx = mx)).
Proof.
  intros Hb. destruct (nleb_not_NaN _ _ Hb) as [Nmn Nmx].
  split; [by destruct mn, mx|]. intros Nn.
  unfold App.clamp. rewrite (Math_max_cases mn n) by done.
  assert (isNaN (if nleb mn n then n else mn) = false) as Nt by (by destruct (nleb mn n)).
  rewrite Math_min_cases by done.
  pose proof (nleb_refl mx Nmx) as Rmx. pose proof (nleb_refl mn Nmn) as Rmn.
  destruct (nleb mn n) eqn:E1.
  - destruct (nleb mx n) eqn:E2.
    + repeat split; try done.
      * intros _ H. by apply nleb_antisym.
      * intros H. rewrite (nleb_antisym _ _ H E1) in E2. by apply nleb_antisym.
    + destruct (nleb_total mx n Nmx Nn) as [H|H]; [congruence|].
      repeat split; try done. intros H'. by apply nleb_antisym.
  - destruct (nleb_total mn n Nmn Nn) as [H|H]; [congruence|].
    destruct (nleb mx mn) eqn:E2.
    + pose proof (nleb_antisym _ _ Hb E2) as ->. repeat split; try done.
    + repeat split; try done.
      intros H'. pose proof (nleb_trans _ _ _ H' H). congruence.
Qed.

Lemma clamp_within_witness :
  App.clamp (ofZ 120) (ofZ 7) (ofZ 3650) = ofZ 120 /\
  App.clamp (ofZ 2) (ofZ 7) (ofZ 3650) = ofZ 7 /\
  App.clamp PInf (ofZ 7) (ofZ 3650) = ofZ 3650.
Proof.
  assert (nleb (ofZ 7) (ofZ 3650) = true) as Hb by (vm_compute; reflexivity).
  split; [|split].
  - apply (proj2 (clamp_within (ofZ 120) _ _ Hb)); vm_compute; reflexivity.
  - apply (proj2 (clamp_within (ofZ 2) _ _ Hb)); vm_compute; reflexivity.
  - apply (proj2 (clamp_within PInf _ _ Hb)); vm_compute; reflexivity.
Defined.

Lemma this_add a b : (this (a + b)%Qc == this a + this b)%Q.
Proof. unfold Qcplus, Q2Qc. cbn [this]. apply Qred_correct. Qed.

Lemma this_mul a b : (this (a * b)%Qc == this a * this b)%Q.
Proof. unfold Qcmult, Q2Qc. cbn [this]. apply Qred_correct. Qed.

Lemma this_opp a : (this (- a)%Qc == - this a)%Q.
Proof. unfold Qcopp, Q2Qc. cbn [this]. apply Qred_correct. Qed.

Lemma this_sub a b : (this (a - b)%Qc == this a - this b)%Q.
Proof. unfold Qcminus. rewrite this_add, this_opp. reflexivity. Qed.

Lemma this_Q2Qc x : (this (Q2Qc x) == x)%Q.
Proof. cbn [this Q2Qc]. apply Qred_correct. Qed.

Lemma Qc_eq_this a b : (this a == this b)%Q -> a = b.
Proof. apply Qc_is_canon. Qed.

Lemma qfloor_spec q :
  (inject_Z (qfloor q) <= this q)%Q /\ (this q < inject_Z (qfloor q) + 1)%Q.
Proof.
  assert (qfloor q = Qfloor (this q)) as -> by (unfold qfloor; by destruct (this q)).
  split; [apply Qfloor_le|]. pose proof (Qlt_floor (this q)) as H.
  rewrite inject_Z_plus in H. exact H.
Qed.

Lemma qfloor_unique q z :
  (inject_Z z <= this q)%Q -> (this q < inject_Z z + 1)%Q -> qfloor q = z.
Proof.
  intros H1 H2. destruct (qfloor_spec q) as [F1 F2].
  assert (inject_Z z < inject_Z (qfloor q + 1))%Q as A by (rewrite inject_Z_plus; change (inject_Z 1) with 1%Q; lra).
  assert (inject_Z (qfloor q) < inject_Z (z + 1))%Q as B by (rewrite inject_Z_plus; change (inject_Z 1) with 1%Q; lra).
  rewrite <- Zlt_Qlt in A, B. lia.
Qed.

Lemma hundredths_spec a :
  (inject_Z (hundredths a) <= this a * 100 + (1 # 2))%Q /\
  (this a * 100 + (1 # 2) < inject_Z (hundredths a) + 1)%Q.
Proof.
  destruct (qfloor_spec (a * qz 100 + Q2Qc (1 # 2))%Qc) as [F1 F2]. fold (hundredths a) in F1, F2.
  rewrite this_add, this_mul, this_qz, this_Q2Qc in F1, F2. split; [exact F1|exact F2].
Qed.

Lemma this_hundredth n : (this (qz n / qz 100)%Qc * 100 == inject_Z n)%Q.
Proof.
  unfold Qcdiv. rewrite this_mul, this_qz.
  assert (this (/ qz 100)%Qc == / 100)%Q as ->.
  { unfold Qcinv. rewrite this_Q2Qc, this_qz. reflexivity. }
  field.
Qed.

Lemma qltb_zero q : qltb q (qz 0) = true <-> (this q < 0)%Q.
Proof. rewrite qltb_lt. unfold Qclt. by rewrite this_qz. Qed.

Lemma qltb_zero_false q : qltb q (qz 0) = false <-> (0 <= this q)%Q.
Proof. rewrite qltb_ge. unfold Qcle. by rewrite this_qz. Qed.

Lemma toFixed2_near q :
  (this q - (1 # 200) <= this (toFixed2 q))%Q /\ (this (toFixed2 q) <= this q + (1 # 200))%Q.
Proof.
  unfold toFixed2. cbv zeta.
  destruct (qltb q (qz 0)) eqn:Hs.
  - destruct (qleb (qz (10 ^ 21)) (- q)%Qc); [split; lra|].
    fold (hundredths (- q)%Qc).
    destruct (hundredths_spec (- q)%Qc) as [H1 H2]. rewrite this_opp in H1, H2.
    pose proof (this_hundredth (hundredths (- q)%Qc)) as E.
    rewrite this_opp. split; lra.
  - destruct (qleb (qz (10 ^ 21)) q); [split; lra|].
    fold (hundredths q).
    destruct (hundredths_spec q) as [H1 H2].
    pose proof (this_hundredth (hundredths q)) as E. split; lra.
Qed.

Lemma hundredths_of n : hundredths (qz n / qz 100)%Qc = n.
Proof.
  apply qfloor_unique; rewrite this_add, this_mul, this_qz, this_Q2Qc;
    pose proof (this_hundredth n) as E; change (inject_Z 100) with 100%Q; lra.
Qed.

Lemma hundredth_opp n : (- (qz n / qz 100))%Qc = (qz (- n) / qz 100)%Qc.
Proof.
  apply Qc_eq_this. rewrite this_opp.
  pose proof (this_hundredth n) as E1. pose proof (this_hundredth (- n)) as E2.
  rewrite inject_Z_opp in E2. lra.
Qed.

Lemma toFixed2_hundredth n : toFixed2 (qz n / qz 100)%Qc = (qz n / qz 100)%Qc.
Proof.
  unfold toFixed2. cbv zeta.
  destruct (qltb (qz n / qz 100)%Qc (qz 0)).
  - destruct (qleb (qz (10 ^ 21)) (- (qz n / qz 100))%Qc); [done|].
    fold (hundredths (- (qz n / qz 100))%Qc).
    rewrite (hundredth_opp n), hundredths_of, hundredth_opp. by rewrite Z.opp_involutive.
  - destruct (qleb (qz (10 ^ 21)) (qz n / qz 100)%Qc); [done|].
    fold (hundredths (qz n / qz 100)%Qc). by rewrite hundredths_of.
Qed.

Lemma toFixed2_cases q :
  toFixed2 q = q \/
  (qleb (qz (10 ^ 21)) q = false /\ qleb (qz (10 ^ 21)) (- q)%Qc = false /\
   exists m, toFixed2 q = (qz m / qz 100)%Qc).
Proof.
  unfold toFixed2. cbv zeta.
  destruct (qltb q (qz 0)) eqn:Hs.
  - destruct (qleb (qz (10 ^ 21)) (- q)%Qc) eqn:Hb; [by left|right].
    split; [|split; [done|]].
    + apply qleb_gt. apply qltb_zero in Hs. unfold Qclt. rewrite this_qz.
      assert (0 < inject_Z (10 ^ 21))%Q by (rewrite <- (Zlt_Qlt 0); lia).
      change (inject_Z 0) with 0%Q in *. lra.
    + eexists. apply hundredth_opp.
  - destruct (qleb (qz (10 ^ 21)) q) eqn:Hb; [by left|right].
    split; [done|split; [|by eexists]].
    apply qleb_gt. apply qltb_zero_false in Hs. unfold Qclt. rewrite this_qz, this_opp.
    assert (0 < inject_Z (10 ^ 21))%Q by (rewrite <- (Zlt_Qlt 0); lia).
    change (inject_Z 0) with 0%Q in *. lra.
Qed.

Lemma toFixed2_idem q : toFixed2 (toFixed2 q) = toFixed2 q.
Proof.
  destruct (toFixed2_cases q) as [E|(_ & _ & m & E)].
  - by rewrite !E.
  - rewrite E. apply toFixed2_hundredth.
Qed.

Lemma int_lt_succ a b : (inject_Z a < inject_Z b + 1)%Q -> a <= b.
Proof.
  intros H.
  assert (inject_Z a < inject_Z (b + 1))%Q as A
    by (rewrite inject_Z_plus; change (inject_Z 1) with 1%Q; lra).
  rewrite <- Zlt_Qlt in A. lia.
Qed.

Lemma hundredth_le a b : a <= b -> (qz a / qz 100 <= qz b / qz 100)%Qc.
Proof.
  intros H. unfold Qcle.
  pose proof (this_hundredth a) as Ea. pose proof (this_hundredth b) as Eb.
  rewrite Zle_Qle in H. lra.
Qed.

(** the two ways [toFixed2] goes: from 10^21 on the number itself, below
    it the hundredth found by rounding half away from zero *)
Lemma toFixed2_shape q :
  (toFixed2 q = q /\
   ((inject_Z (10 ^ 21) <= this q)%Q \/ (this q <= - inject_Z (10 ^ 21))%Q)) \/
  ((- inject_Z (10 ^ 21) < this q)%Q /\ (this q < inject_Z (10 ^ 21))%Q /\
   exists m, toFixed2 q = (qz m / qz 100)%Qc /\
     ((0 <= this q)%Q /\ (inject_Z m <= this q * 100 + (1 # 2))%Q /\
      (this q * 100 + (1 # 2) < inject_Z m + 1)%Q \/
      (this q < 0)%Q /\ (inject_Z m - 1 < this q * 100 - (1 # 2))%Q /\
      (this q * 100 - (1 # 2) <= inject_Z m)%Q)).
Proof.
  assert (0 < inject_Z (10 ^ 21))%Q as Hpos by (rewrite <- (Zlt_Qlt 0); lia).
  unfold toFixed2. cbv zeta.
  destruct (qltb q (qz 0)) eqn:Hs.
  - apply qltb_zero in Hs.
    destruct (qleb (qz (10 ^ 21)) (- q)%Qc) eqn:Hb.
    + left. split; [done|]. right. apply qleb_le in Hb. unfold Qcle in Hb.
      rewrite this_qz, this_opp in Hb. lra.
    + right. apply qleb_gt in Hb. unfold Qclt in Hb. rewrite this_qz, this_opp in Hb.
      split; [lra|]. split; [lra|].
      fold (hundredths (- q)%Qc). exists (- hundredths (- q)%Qc).
      split; [apply hundredth_opp|]. right.
      destruct (hundredths_spec (- q)%Qc) as [H1 H2]. rewrite this_opp in H1, H2.
      rewrite inject_Z_opp. split; [done|]. split; lra.
  - apply qltb_zero_false in Hs.
    destruct (qleb (qz (10 ^ 21)) q) eqn:Hb.
    + left. split; [done|]. left. apply qleb_le in Hb. unfold Qcle in Hb.
      by rewrite this_qz in Hb.
    + right. apply qleb_gt in Hb. unfold Qclt in Hb. rewrite this_qz in Hb.
      split; [lra|]. split; [lra|].
      fold (hundredths q). exists (hundredths q). split; [done|]. left.
      destruct (hundredths_spec q) as [H1 H2]. split; [done|]. by split.
Qed.

Lemma toFixed2_mono q1 q2 : (q1 <= q2)%Qc -> (toFixed2 q1 <= toFixed2 q2)%Qc.
Proof.
  intros H. pose proof H as Hq. unfold Qcle in Hq.
  assert (inject_Z (10 ^ 21) * 100 == inject_Z (10 ^ 23))%Q as Ebig
    by (change 100%Q with (inject_Z 100); rewrite <- inject_Z_mult; reflexivity).
  destruct (toFixed2_shape q1) as [[E1 B1]|(L1 & U1 & m1 & E1 & S1)],
    (toFixed2_shape q2) as [[E2 B2]|(L2 & U2 & m2 & E2 & S2)]; rewrite E1, E2.
  - exact H.
  - assert (- 10 ^ 23 <= m2) as Hm.
    { assert (inject_Z (- 10 ^ 23) < inject_Z m2 + 1)%Q as A
        by (rewrite inject_Z_opp; destruct S2 as [(? & ? & ?)|(? & ? & ?)]; lra).
      apply int_lt_succ in A. exact A. }
    unfold Qcle. pose proof (this_hundredth m2) as Em.
    rewrite Zle_Qle, inject_Z_opp in Hm. lra.
  - assert (m1 <= 10 ^ 23) as Hm.
    { apply int_lt_succ. destruct S1 as [(? & ? & ?)|(? & ? & ?)]; lra. }
    unfold Qcle. pose proof (this_hundredth m1) as Em.
    rewrite Zle_Qle in Hm. lra.
  - apply hundredth_le. apply int_lt_succ.
    destruct S1 as [(? & ? & ?)|(? & ? & ?)], S2 as [(? & ? & ?)|(? & ? & ?)]; lra.
Qed.

(** X8: [round2] returns null on an absent, infinite or undefined number and
    a finite number on a finite one.  What it returns it leaves in place
    when it is applied again, it keeps the order of two numbers, and its
    result is at most 0.01 away from its argument.  The second copy's
    [Number(x.toFixed(2))] gives the same number. *)
Theorem round2_order_and_fixpoint :
  (forall n, App.round2 n = None <->
             n = None \/ exists x, n = Some x /\ isFinite x = false) /\
  (forall q, exists r,
     App.round2 (Some (Fin q)) = Some (Fin r) /\
     Alt.fixed2 (Fin q) = Fin r /\
     App.round2 (Some (Fin r)) = Some (Fin r) /\
     (q - Q2Qc (1 # 100) <= r)%Qc /\ (r <= q + Q2Qc (1 # 100))%Qc) /\
  (forall x y rx ry,
     nleb x y = true ->
     App.round2 (Some x) = Some rx -> App.round2 (Some y) = Some ry ->
     nleb rx ry = true).
Proof.
  split; [|split].
  - intros [[q| | |]|]; cbn [App.round2].
    + split; [discriminate|]. intros [E|(x & [= <-] & F)]; discriminate.
    + split; [|done]. intros _. right. by exists PInf.
    + split; [|done]. intros _. right. by exists NInf.
    + split; [|done]. intros _. right. by exists NaN.
    + split; [by left|done].
  - intros q. exists (toFixed2 q). split; [done|]. split; [done|].
    split; [cbn [App.round2]; by rewrite toFixed2_idem|].
    destruct (toFixed2_near q) as [N1 N2].
    split; unfold Qcle; [rewrite this_sub, this_Q2Qc|rewrite this_add, this_Q2Qc]; lra.
  - intros [q1| | |] [q2| | |] rx ry Hle; try discriminate.
    cbn [App.round2]. intros [= <-] [= <-]. cbn [nleb] in *.
    apply qleb_le. apply toFixed2_mono. by apply qleb_le.
Qed.

Lemma round2_order_and_fixpoint_witness :
  nleb (Fin (toFixed2 (Q2Qc (12344 # 1000)))) (Fin (toFixed2 (Q2Qc (12345 # 1000)))) = true.
Proof.
  apply (proj2 (proj2 round2_order_and_fixpoint)
           (Fin (Q2Qc (12344 # 1000))) (Fin (Q2Qc (12345 # 1000)))).
  - vm_compute. reflexivity.
  - reflexivity.
  - reflexivity.
Defined.

(* ====================================================================== *)
(** * Values taken from a chart, and the sorted store *)
(* ====================================================================== *)

(** X7: [asFiniteNumber] never returns NaN or an infinity: it returns the
    number its argument converts to when that is finite and null otherwise;
    it is the identity on finite numbers, and it reads [null] and the empty
    string as 0. *)
Theorem asFiniteNumber_finite (v : option json) :
  (forall x, App.asFiniteNumber v = Some x -> isFinite x = true /\ x = App.numberOf v) /\
  (App.asFiniteNumber v = None <-> isFinite (App.numberOf v) = false) /\
  (forall x, isFinite x = true -> App.asFiniteNumber (Some (JNum x)) = Some x) /\
  App.asFiniteNumber None = None /\
  App.asFiniteNumber (Some JNull) = Some (ofZ 0) /\
  App.asFiniteNumber (Some (JStr "")) = Some (ofZ 0).
Proof.
  assert (forall w, App.asFiniteNumber w =
                    if isFinite (App.numberOf w) then Some (App.numberOf w) else None) as E.
  { intros [[]|]; try reflexivity. cbn -[isFinite]. by destruct (isFinite n). }
  rewrite !E. split; [|split; [|split; [|split; [|split]]]].
  - intros x. destruct (isFinite (App.numberOf v)) eqn:F; [|discriminate]. by intros [= <-].
  - by destruct (isFinite (App.numberOf v)).
  - intros x F. rewrite E. cbn [App.numberOf ToNumber]. by rewrite F.
  - reflexivity.
  - reflexivity.
  - by_compute.
Qed.

Lemma asFiniteNumber_finite_witness :
  App.asFiniteNumber (Some (JNum (ofZ 5))) = Some (ofZ 5).
Proof.
  apply (proj1 (proj2 (proj2 (asFiniteNumber_finite None)))). reflexivity.
Defined.

Lemma isoLe_total : Total App.isoLe.
Proof.
  intros a b. unfold App.isoLe. rewrite !sortISO_compare, (String.compare_antisym a b).
  destruct (String.compare b a); cbn; lia.
Qed.

#[local] Existing Instance isoLe_total.

Lemma isoLe_trans : Transitive App.isoLe.
Proof. intros a b c. unfold App.isoLe. apply sortISO_le_trans. Qed.

#[local] Existing Instance isoLe_trans.

Lemma isoLe_antisym a b : App.isoLe a b -> App.isoLe b a -> a = b.
Proof.
  unfold App.isoLe. rewrite !sortISO_compare, (String.compare_antisym a b).
  destruct (String.compare b a) eqn:E; cbn; try lia. intros _ _.
  by apply String.compare_eq_iff in E.
Qed.

Lemma byDate_total : Total App.byDate.
Proof. intros a b. unfold App.byDate. apply isoLe_total. Qed.

#[local] Existing Instance byDate_total.

Lemma byDate_trans : Transitive App.byDate.
Proof. intros a b c. unfold App.byDate. apply isoLe_trans. Qed.

#[local] Existing Instance byDate_trans.

Lemma entries_elem (m : gmap string number) d g :
  App.mkPoint d g ∈ App.entries m <-> m !! d = Some g.
Proof.
  unfold App.entries. rewrite list_elem_of_fmap. split.
  - intros ([k v] & [= -> ->] & H). by apply elem_of_map_to_list in H.
  - intros H. exists (d, g). split; [done|]. by apply elem_of_map_to_list.
Qed.

Lemma entries_dates (m : gmap string number) : NoDup (App.date <$> App.entries m).
Proof.
  unfold App.entries. rewrite <- list_fmap_compose.
  replace (App.date ∘ (fun kv : string * number => App.mkPoint kv.1 kv.2))
    with (@fst string number) by done.
  apply NoDup_fst_map_to_list.
Qed.

Lemma lookupOf_lookup l k v :
  NoDup (App.date <$> l) -> (App.lookupOf l !! k = Some v <-> App.mkPoint k v ∈ l).
Proof.
  induction l as [|p l IH] using rev_ind; intros Hn.
  - unfold App.lookupOf. cbn. rewrite lookup_empty. split; [done|]. by intros ?%elem_of_nil.
  - rewrite fmap_app in Hn. apply list.NoDup_app in Hn as (Hl & Hdis & _).
    rewrite lookupOf_snoc, elem_of_app, list_elem_of_singleton.
    destruct (decide (App.date p = k)) as [<-|Hne].
    + rewrite lookup_insert_eq. split.
      * intros [= Hv]. subst v. right. by destruct p.
      * intros [Hin|E]; [|by rewrite <- E]. exfalso. apply (Hdis (App.date p)).
        -- apply list_elem_of_fmap. by exists (App.mkPoint (App.date p) v).
        -- cbn. left.
    + rewrite lookup_insert_ne by done. rewrite IH by done. split; [tauto|].
      intros [H|E]; [done|]. exfalso. apply Hne. by rewrite <- E.
Qed.

Lemma sorted_strict (l : list App.DailyPoint) :
  NoDup (App.date <$> l) -> StronglySorted App.byDate l ->
  StronglySorted (fun a b => String.ltb (App.date a) (App.date b) = true) l.
Proof.
  induction 2 as [|a l Hs IH Ha]; [constructor|].
  cbn in H. apply list.NoDup_cons in H as [Hni Hn].
  constructor; [by apply IH|].
  apply list.Forall_forall. intros b Hb.
  rewrite list.Forall_forall in Ha. specialize (Ha b Hb).
  unfold App.byDate, App.isoLe in Ha. rewrite sortISO_compare in Ha.
  rewrite ltb_compare. destruct (String.compare (App.date a) (App.date b)) eqn:E; try done.
  apply String.compare_eq_iff in E. exfalso. apply Hni. rewrite E.
  apply list_elem_of_fmap. by exists b.
Qed.

Lemma byDate_unique (l1 l2 : list App.DailyPoint) :
  NoDup (App.date <$> l1) -> l1 ≡ₚ l2 ->
  StronglySorted App.byDate l1 -> StronglySorted App.byDate l2 -> l1 = l2.
Proof.
  intros Hn Hp S1 S2. apply (StronglySorted_unique_strong App.byDate); try done.
  intros x1 x2 H1 H2 R1 R2. rewrite <- Hp in H2.
  pose proof (isoLe_antisym _ _ R1 R2) as Ed.
  apply list_elem_of_lookup in H1 as [i Hi]. apply list_elem_of_lookup in H2 as [j Hj].
  assert ((App.date <$> l1) !! i = Some (App.date x1)) as Di by (by rewrite list_lookup_fmap, Hi).
  assert ((App.date <$> l1) !! j = Some (App.date x2)) as Dj by (by rewrite list_lookup_fmap, Hj).
  rewrite <- Ed in Dj. pose proof (NoDup_lookup _ _ _ _ Hn Di Dj) as ->. congruence.
Qed.

(** X15: [sortedDaily] lists the entries of the store, each once, in strictly
    ascending order of their keys; the order in which the entries were
    inserted does not matter, and the lookup map built from the list is the
    store again. *)
Theorem sortedDaily_sorted (m : gmap string number) :
  (forall d g, App.mkPoint d g ∈ App.sortedDaily m <-> m !! d = Some g) /\
  NoDup (App.date <$> App.sortedDaily m) /\
  StronglySorted (fun a b => String.ltb (App.date a) (App.date b) = true) (App.sortedDaily m) /\
  (forall l, l ≡ₚ App.entries m -> merge_sort App.byDate l = App.sortedDaily m) /\
  App.lookupOf (App.sortedDaily m) = m /\
  length (App.sortedDaily m) = size m.
Proof.
  assert (App.sortedDaily m ≡ₚ App.entries m) as Hp by apply merge_sort_Permutation.
  assert (NoDup (App.date <$> App.sortedDaily m)) as Hn
    by (rewrite Hp; apply entries_dates).
  assert (forall d g, App.mkPoint d g ∈ App.sortedDaily m <-> m !! d = Some g) as He
    by (intros; rewrite Hp; apply entries_elem).
  split; [done|]. split; [done|]. split.
  { apply sorted_strict; [done|]. apply StronglySorted_merge_sort; apply _. }
  split.
  { intros l Hl. unfold App.sortedDaily.
    apply byDate_unique; try (apply StronglySorted_merge_sort; apply _).
    - rewrite merge_sort_Permutation, Hl. apply entries_dates.
    - by rewrite !merge_sort_Permutation. }
  split.
  { apply map_eq. intros k. apply option_eq. intros v.
    rewrite lookupOf_lookup by done. apply He. }
  rewrite Hp. unfold App.entries. by rewrite length_fmap, length_map_to_list.
Qed.

Lemma sortedDaily_sorted_witness :
  merge_sort App.byDate
    [App.mkPoint "2024-01-02" (ofZ 1)] = App.sortedDaily {[ "2024-01-02" := ofZ 1 ]}.
Proof.
  apply (sortedDaily_sorted {[ "2024-01-02" := ofZ 1 ]}).
  unfold App.entries. by rewrite map_to_list_singleton.
Defined.

(* ====================================================================== *)
(** * Labels *)
(* ====================================================================== *)

Lemma format_key s :
  isoPattern s = true ->
  exists t,
    App.formatDDMMYYYY s = t /\ Alt.formatDDMMYYYY s = t /\ displayPattern t = true /\
    dayField t = dayOf s /\ monthField t = monthOf s /\ yearField t = yearOf s /\
    s = slice 6 10 t +:+ "-" +:+ slice 3 5 t +:+ "-" +:+ slice 0 2 t.
Proof.
  intros H. destruct (iso_decompose s H) as (y1 & y2 & y3 & y4 & m1 & m2 & d1 & d2 & -> & Hs).
  destruct Hs as (Y1 & Y2 & Y3 & Y4 & M1 & M2 & D1 & D2).
  destruct (format_of_digits d1 d2 m1 m2 y1 y2 y3 y4 D1 D2 M1 M2 Y1 Y2 Y3 Y4) as [F1 F2].
  eexists. split; [exact F1|]. split; [exact F2|].
  split; [cbn [displayPattern]; by rewrite D1, D2, M1, M2, Y1, Y2, Y3, Y4|].
  repeat split.
Qed.

(** X3: [formatDDMMYYYY] of [src/App.tsx] returns the dash marker for every
    text that is not of the form YYYY-MM-DD; on a text of that form both
    copies return the same text of the form DD-MM-YYYY with the same three
    fields, and two different keys never get the same label. *)
Theorem formatDDMMYYYY_shape :
  (forall s, isoPattern s = false -> App.formatDDMMYYYY s = App.dash) /\
  (forall s, isoPattern s = true ->
     displayPattern (App.formatDDMMYYYY s) = true /\
     Alt.formatDDMMYYYY s = App.formatDDMMYYYY s /\
     dayField (App.formatDDMMYYYY s) = dayOf s /\
     monthField (App.formatDDMMYYYY s) = monthOf s /\
     yearField (App.formatDDMMYYYY s) = yearOf s) /\
  (forall s t, isoPattern s = true -> isoPattern t = true ->
     App.formatDDMMYYYY s = App.formatDDMMYYYY t -> s = t).
Proof.
  split; [|split].
  - intros s H. unfold App.formatDDMMYYYY. rewrite H. cbn [negb]. by rewrite orb_true_r.
  - intros s H. destruct (format_key s H) as (t & -> & -> & ? & ? & ? & ? & _). done.
  - intros s t Hs Ht E.
    destruct (format_key s Hs) as (u & Eu & _ & _ & _ & _ & _ & ->).
    destruct (format_key t Ht) as (v & Ev & _ & _ & _ & _ & _ & ->).
    rewrite Eu, Ev in E. by rewrite E.
Qed.

Lemma formatDDMMYYYY_shape_witness :
  App.formatDDMMYYYY "2024-02-29" = "29-02-2024" /\ App.formatDDMMYYYY "2024-2-29" = App.dash.
Proof.
  destruct formatDDMMYYYY_shape as (H1 & H2 & _). split.
  - destruct (H2 "2024-02-29" eq_refl) as (_ & <- & _). vm_compute. reflexivity.
  - apply H1. reflexivity.
Defined.

Lemma isoText_key s :
  isoPattern s = true -> 1000 <= yearOf s -> isoText (yearOf s) (monthOf s) (dayOf s) = s.
Proof.
  intros H Hy. destruct (iso_text s H) as (Es & Ry & Rm & Rd).
  unfold isoText. rewrite !padStart2_intToString by lia.
  rewrite !pad2_twoDigits by lia. rewrite intToString_nonneg by lia.
  rewrite natToString_fourDigits by lia. by rewrite <- Es.
Qed.

Lemma parse_of_format e s :
  realKey s -> 1000 <= yearOf s -> App.parseInputDate e (App.formatDDMMYYYY s) = Some s.
Proof.
  intros [Hp Hr] Hy. destruct (format_key s Hp) as (t & -> & _ & Ht & Fd & Fm & Fy & _).
  destruct (iso_text s Hp) as (_ & Ry & _ & _).
  assert (trim t = t) as Et by (apply trim_chars; by apply displayPattern_chars).
  rewrite parseInputDate_display by (by rewrite Et). rewrite Et, Fd, Fm, Fy.
  rewrite displayResult_of_real by (done || lia). by rewrite isoText_key.
Qed.

(* ====================================================================== *)
(** * Merging twice, and what an import returns *)
(* ====================================================================== *)

Lemma setAll_app m a b : setAll m (a ++ b) = setAll (setAll m a) b.
Proof. unfold setAll. by rewrite foldl_app. Qed.

Lemma setAll_again m a : setAll (setAll m a) a = setAll m a.
Proof.
  apply map_eq. intros d. rewrite !setAll_lookup. by destruct (lastFor d a).
Qed.

(** X11: merging one batch and then another gives a map with the contents of
    merging the two batches at once; merging the empty batch gives a copy
    of the store, and merging the same batch a second time changes no
    entry. *)
Theorem mergeRecords_composes (h : App.heap) (existing : nat) (m : gmap string number)
    (a b : list App.DailyPoint) :
  h !! existing = Some m ->
  exists h1 n1 h2 n2 h3 n3 h4 n4,
    App.mergeRecords h existing a = (h1, n1) /\
    App.mergeRecords h1 n1 b = (h2, n2) /\
    App.mergeRecords h existing (a ++ b)%list = (h3, n3) /\
    App.mergeRecords h1 n1 a = (h4, n4) /\
    h2 !! n2 = h3 !! n3 /\ h3 !! n3 = Some (setAll m (a ++ b)%list) /\
    h4 !! n4 = h1 !! n1 /\ h1 !! n1 = Some (setAll m a) /\
    (a = [] -> h1 !! n1 = Some m) /\
    h4 !! existing = Some m /\ h2 !! existing = Some m.
Proof.
  intros Hm.
  pose proof (fresh_heap h) as Hf.
  assert (fresh (dom h) <> existing) as Hne by (intros E; rewrite E in Hf; congruence).
  set (n1 := fresh (dom h)) in *. set (h1 := <[n1 := setAll m a]> h).
  assert (h1 !! n1 = Some (setAll m a)) as H1 by (unfold h1; by rewrite lookup_insert_eq).
  pose proof (fresh_heap h1) as Hf1.
  assert (fresh (dom h1) <> n1) as Hne1 by (intros E; rewrite E in Hf1; congruence).
  assert (fresh (dom h1) <> existing) as Hne2.
  { intros E. rewrite E in Hf1. unfold h1 in Hf1. rewrite lookup_insert_ne in Hf1 by done.
    congruence. }
  exists h1, n1, (<[fresh (dom h1) := setAll (setAll m a) b]> h1), (fresh (dom h1)),
    (<[n1 := setAll m (a ++ b)%list]> h), n1,
    (<[fresh (dom h1) := setAll (setAll m a) a]> h1), (fresh (dom h1)).
  split; [by apply mergeRecords_eq|]. split; [by apply mergeRecords_eq|].
  split; [by apply mergeRecords_eq|]. split; [by apply mergeRecords_eq|].
  rewrite !lookup_insert_eq. rewrite setAll_app, setAll_again.
  repeat split; try done.
  - by intros ->.
  - rewrite lookup_insert_ne by done. unfold h1. by rewrite lookup_insert_ne.
  - rewrite lookup_insert_ne by done. unfold h1. by rewrite lookup_insert_ne.
Qed.

Lemma mergeRecords_composes_witness :
  exists h1 n1 h2 n2,
    App.mergeRecords {[ 0%nat := ∅ ]} 0 [App.mkPoint "2025-01-01" (ofZ 1)] = (h1, n1) /\
    App.mergeRecords h1 n1 [App.mkPoint "2025-01-01" (ofZ 2)] = (h2, n2) /\
    h2 !! n2 = Some (setAll ∅ [App.mkPoint "2025-01-01" (ofZ 1); App.mkPoint "2025-01-01" (ofZ 2)]).
Proof.
  destruct (mergeRecords_composes {[ 0%nat := ∅ ]} 0 ∅ [App.mkPoint "2025-01-01" (ofZ 1)]
              [App.mkPoint "2025-01-01" (ofZ 2)])
    as (h1 & n1 & h2 & n2 & h3 & n3 & _ & _ & E1 & E2 & _ & _ & E3 & E4 & _); [reflexivity|].
  exists h1, n1, h2, n2. split; [exact E1|]. split; [exact E2|]. by rewrite E3, E4.
Defined.

Lemma natToString_short :
  forallb (fun n => Nat.ltb (String.length (natToString n)) 4) (seqZ 0 1000) = true.
Proof. vm_compute. reflexivity. Qed.

Lemma isoText_length y m d :
  100 <= y <= 9999 -> 0 <= m < 100 -> 0 <= d < 100 ->
  String.length (isoText y m d) = 10%nat -> 1000 <= y.
Proof.
  intros Hy Hm Hd Hl. destruct (Z.lt_ge_cases y 1000) as [Hlt|]; [exfalso|done].
  pose proof natToString_short as T. rewrite forallb_forall in T.
  specialize (T y). rewrite <- list_elem_of_In, elem_of_seqZ in T.
  specialize (T ltac:(lia)). apply Nat.ltb_lt in T.
  unfold isoText in Hl. rewrite !padStart2_intToString, !pad2_twoDigits in Hl by lia.
  rewrite !length_app in Hl. rewrite intToString_nonneg in Hl by lia.
  cbn [String.length twoDigits] in Hl. lia.
Qed.

Lemma displayResult_year y m d iso :
  0 <= y <= 9999 -> displayResult y m d = Some iso -> 100 <= y.
Proof.
  intros Hy H. pose proof (displayResult_real y m d iso H) as ([Hm Hd] & _ & Y & _).
  destruct (Z.lt_ge_cases y 100) as [Hlt|]; [exfalso|done].
  unfold displayResult in H.
  assert (MakeFullYear y = 1900 + y) as E.
  { unfold MakeFullYear. destruct (Z.leb_spec 0 y), (Z.leb_spec y 99); cbn; lia. }
  rewrite E in H. destruct (TimeClip _) as [x|] eqn:Hx; [|discriminate].
  unfold TimeClip in Hx. destruct (_ <=? _); [|discriminate]. injection Hx as <-.
  destruct (Z.eqb_spec (YearFromDay (MakeDay (1900 + y) (m - 1) d)) y) as [Ey|]; [|discriminate].
  pose proof (YearFromDay_spec (MakeDay (1900 + y) (m - 1) d)) as S. rewrite Ey in S.
  unfold MakeDay in S. replace ((m - 1) / 12) with 0 in S by zlia. rewrite Z.add_0_r in S.
  pose proof (monthStart_bounds ((m - 1) mod 12) (leapDay (1900 + y)) (leapDay_range _)).
  pose proof (DayFromYear_mono (y + 1) (1900 + y) ltac:(lia)). lia.
Qed.

Lemma isoText_realKey y m d :
  1000 <= y <= 9999 -> realDate y m d ->
  realKey (isoText y m d) /\ dayNumber (isoText y m d) = MakeDay y (m - 1) d.
Proof.
  intros Hy [Hm Hd]. pose proof (DaysInMonth_ge y m).
  destruct (MakeDay_civil y m d Hm Hd) as (Y & M & D).
  assert (inEra (MakeDay y (m - 1) d)) as He.
  { unfold inEra. pose proof (YearFromDay_spec (MakeDay y (m - 1) d)) as S. rewrite Y in S.
    pose proof (DayFromYear_mono 0 y ltac:(lia)).
    pose proof (DayFromYear_mono (y + 1) 10000 ltac:(lia)). lia. }
  assert (isoText y m d = isoOfDay (MakeDay y (m - 1) d)) as ->.
  { rewrite isoOfDay_text by done. rewrite Y, M, D.
    replace (m - 1 + 1) with m by lia.
    unfold isoText. rewrite !padStart2_intToString by lia.
    rewrite !pad2_twoDigits by lia. rewrite intToString_nonneg by lia.
    by rewrite natToString_fourDigits by lia. }
  by apply day_realKey.
Qed.

Lemma display_fields_range t :
  displayPattern t = true ->
  0 <= yearField t <= 9999 /\ 0 <= monthField t < 100 /\ 0 <= dayField t < 100.
Proof.
  intros H. destruct (display_decompose t H)
    as (d1 & d2 & m1 & m2 & y1 & y2 & y3 & y4 & -> & D1 & D2 & M1 & M2 & Y1 & Y2 & Y3 & Y4).
  unfold yearField, monthField, dayField. cbn [slice substring Nat.sub].
  destruct (twoDigits_value d1 d2 D1 D2) as [Rd _].
  destruct (twoDigits_value m1 m2 M1 M2) as [Rm _].
  destruct (fourDigits_value y1 y2 y3 y4 Y1 Y2 Y3 Y4) as (Ry & _ & _).
  lia.
Qed.

(** a ten-character result of [parseInputDate] is a key [parseISOKey] accepts *)
Lemma parseInputDate_storable e s iso :
  App.parseInputDate e s = Some iso -> String.length iso = 10%nat ->
  App.parseISOKey e iso = Some iso.
Proof.
  intros H Hl. destruct (displayPattern (trim s)) eqn:Hd.
  - rewrite parseInputDate_display in H by done.
    destruct (display_fields_range _ Hd) as (Ry & Rm & Rd).
    pose proof (displayResult_year _ _ _ _ Ry H) as Hy.
    destruct (displayResult_real _ _ _ _ H) as (Hreal & -> & _).
    assert (100 <= yearField (trim s) <= 9999) as Hy' by lia.
    pose proof (isoText_length _ _ _ Hy' Rm Rd Hl).
    apply parseISOKey_realKey. by apply isoText_realKey; [lia|].
  - unfold App.parseInputDate in H. cbv zeta in H. rewrite Hd in H.
    destruct (isoPattern (trim s)); [|discriminate].
    pose proof (parseISOKey_same _ _ _ H) as ->. exact H.
Qed.

Lemma nltb_nleb g : isFinite g = true -> nltb g (ofZ 0) = false -> nleb (ofZ 0) g = true.
Proof.
  destruct g as [q| | |]; try discriminate. intros _. cbn [nltb nleb ofZ].
  unfold qltb. by rewrite negb_false_iff.
Qed.

Lemma records_in e rows r : forall i,
  r ∈ recordsOf (outcomesFrom e i rows) ->
  exists j row, row ∈ rows /\ App.rowOutcome e j row = inl r.
Proof.
  unfold recordsOf, outcomesFrom. intros i. rewrite list_elem_of_omap.
  intros (o & Ho & Hr). apply elem_of_lookup_imap in Ho as (j & row & -> & Hrow).
  exists (i + j)%nat, row. split; [by eapply list_elem_of_lookup_2|].
  by destruct (App.rowOutcome e (i + j) row) as [r'|]; [injection Hr as ->|].
Qed.

(** X13: every record [csvParse] returns carries a finite value that is not
    negative and a key that is not empty; when the key has the usual ten
    characters, the record passes the validation that start-up applies to
    a persisted entry. *)
Theorem csvParse_records_storable (e : engine) (text : string) :
  Forall (fun r =>
            isFinite (App.generation_gwh r) = true /\
            nleb (ofZ 0) (App.generation_gwh r) = true /\
            App.date r <> "" /\
            (String.length (App.date r) = 10%nat ->
             validEntry e (App.date r) (App.generation_gwh r)))
         (App.csvParse e text).1.
Proof.
  apply list.Forall_forall. intros r Hr.
  unfold App.csvParse in Hr. rewrite csvLoop_outcomes in Hr. cbn [fst app] in Hr.
  apply records_in in Hr as (j & row & _ & Ho).
  destruct (rowOutcome_cases e j row)
    as [(d & g & E & Hd & -> & Hf & Hn)|[E|E]]; rewrite E in Ho; try discriminate.
  injection Ho as <-. cbn [App.date App.generation_gwh].
  pose proof (nltb_nleb _ Hf Hn) as Hp.
  split; [done|]. split; [done|]. split; [by eapply parseInputDate_nonempty|].
  intros Hl. split; [by eapply parseInputDate_storable|done].
Qed.

Lemma csvParse_records_storable_witness :
  validEntry StrictDays "2025-12-18" (ofZ 4140).
Proof.
  pose proof (csvParse_records_storable StrictDays "18-12-2025,4140") as H.
  assert (App.csvParse StrictDays "18-12-2025,4140" =
          ([App.mkPoint "2025-12-18" (ofZ 4140)], [])) as E by (vm_compute; reflexivity).
  rewrite E in H. cbn [fst] in H. apply Forall_inv in H as (_ & _ & _ & H).
  apply H. reflexivity.
Defined.

(* ====================================================================== *)
(** * Texts without commas, and the import action *)
(* ====================================================================== *)

Lemma split_without c s : occurs c s = false -> split c s = [s].
Proof.
  induction s as [|a s IH]; [done|]. cbn [occurs split]. intros H.
  apply orb_false_iff in H as [H1 H2]. rewrite H1, (IH H2). reflexivity.
Qed.

Lemma trimStart_without c s : occurs c s = false -> occurs c (trimStart s) = false.
Proof.
  induction s as [|a s IH]; [done|]. cbn [occurs trimStart]. intros H.
  destruct (isWhiteSpace a); [|exact H]. apply orb_false_iff in H as [_ H]. by apply IH.
Qed.

Lemma trimEnd_without c s : occurs c s = false -> occurs c (trimEnd s) = false.
Proof.
  induction s as [|a s IH]; [done|]. cbn [occurs trimEnd]. intros H.
  apply orb_false_iff in H as [H1 H2]. specialize (IH H2).
  destruct (trimEnd s) eqn:E.
  - destruct (isWhiteSpace a); [done|]. cbn [occurs]. by rewrite H1.
  - cbn [occurs] in *. by rewrite H1, IH.
Qed.

Lemma trim_without c s : occurs c s = false -> occurs c (trim s) = false.
Proof. intros H. unfold trim. by apply trimEnd_without, trimStart_without. Qed.

Lemma consHead_without c a l :
  Ascii.eqb a c = false -> Forall (fun s => occurs c s = false) l ->
  Forall (fun s => occurs c s = false) (consHead a l).
Proof.
  intros Ha Hl. destruct l as [|h t]; cbn [consHead].
  - constructor; [|constructor]. cbn [occurs]. by rewrite Ha.
  - inversion Hl as [|? ? Hh Ht]; subst. constructor; [|done]. cbn [occurs]. by rewrite Ha, Hh.
Qed.

Lemma splitLines_without c s :
  occurs c s = false -> Forall (fun l => occurs c l = false) (splitLines s).
Proof.
  remember (String.length s) as n eqn:Hn. revert s Hn.
  induction n as [n IH] using lt_wf_ind. intros s Hn H.
  destruct s as [|a r]; [by repeat constructor|].
  cbn [occurs] in H. apply orb_false_iff in H as [Ha Hr].
  cbn [String.length] in Hn.
  assert (Forall (fun l => occurs c l = false) (splitLines r)) as Hrest
    by (apply (IH (String.length r)); [lia|done|done]).
  cbn [splitLines]. destruct (Ascii.eqb a LF); [by constructor|].
  destruct r as [|b r']; [by apply consHead_without|].
  destruct (Ascii.eqb a CR && Ascii.eqb b LF); [|by apply consHead_without].
  constructor; [done|]. cbn [occurs] in Hr. apply orb_false_iff in Hr as [_ Hr'].
  apply (IH (String.length r')); [cbn [String.length] in Hn; lia|done|done].
Qed.

Lemma filter_none {A : Type} (P : A -> Prop) `{forall x, Decision (P x)} (l : list A) :
  Forall (fun x => ~ P x) l -> filter P l = [].
Proof.
  induction 1 as [|x l Hx Hl IH]; [done|]. by rewrite filter_cons_False.
Qed.

Lemma csvRows_without_commas text : occurs "," text = false -> App.csvRows text = [].
Proof.
  intros H. unfold App.csvRows. apply filter_none.
  apply Forall_fmap. apply list.Forall_forall. intros line Hline. cbn.
  apply list_elem_of_filter in Hline as [_ Hline].
  apply list_elem_of_fmap in Hline as (raw & -> & Hraw).
  pose proof (splitLines_without "," text H) as F. rewrite list.Forall_forall in F.
  rewrite split_without by (apply trim_without; by apply F). cbn. lia.
Qed.

(** X14: a text without any comma parses to nothing: [csvParse] returns no
    record and no error message for it, whatever its lines hold. *)
Theorem csvParse_without_commas (e : engine) (text : string) :
  occurs "," text = false -> App.csvParse e text = ([], []).
Proof.
  intros H. unfold App.csvParse. by rewrite csvRows_without_commas.
Qed.

Lemma csvParse_without_commas_witness :
  App.csvParse StrictDays "18-12-2025;4140" = ([], []).
Proof. apply csvParse_without_commas. reflexivity. Defined.



Lemma sample_records e :
  App.csvParse e App.sampleCSV =
  ([App.mkPoint "2025-12-18" (ofZ 4140); App.mkPoint "2025-12-19" (ofZ 4215);
    App.mkPoint "2025-12-20" (ofZ 4198)], []).
Proof. destruct e; vm_compute; reflexivity. Qed.

(** X23: [loadSample] leaves the store it starts from untouched and makes the
    store a new map: the old entries, with 18, 19 and 20 December 2025 set
    to 4140, 4215 and 4198; the errors shown stay as they are. *)
Theorem loadSample_adds_three_days (e : engine) (st : App.State) (m : gmap string number) :
  App.st_heap st !! App.st_dataMap st = Some m ->
  let st' := App.loadSample e st in
  App.st_heap st' !! App.st_dataMap st' =
    Some (<["2025-12-20" := ofZ 4198]> (<["2025-12-19" := ofZ 4215]>
            (<["2025-12-18" := ofZ 4140]> m))) /\
  App.st_heap st' !! App.st_dataMap st = Some m /\
  App.st_dataMap st' <> App.st_dataMap st /\
  App.st_msg st' = Some "Loaded sample data." /\
  App.st_errors st' = App.st_errors st.
Proof.
  intros Hm st'. subst st'. unfold App.loadSample. rewrite sample_records.
  rewrite (mergeRecords_eq _ _ m _ Hm).
  cbn [App.st_heap App.st_dataMap App.st_msg App.st_errors].
  pose proof (fresh_heap (App.st_heap st)) as Hf.
  assert (fresh (dom (App.st_heap st)) <> App.st_dataMap st) as Hne
    by (intros E; rewrite E in Hf; congruence).
  split; [by rewrite lookup_insert_eq|]. split; [by rewrite lookup_insert_ne|]. done.
Qed.

Lemma loadSample_adds_three_days_witness :
  App.st_msg (App.loadSample StrictDays (App.mkState {[ 0%nat := ∅ ]} 0 None [])) =
  Some "Loaded sample data.".
Proof.
  apply (loadSample_adds_three_days StrictDays (App.mkState {[ 0%nat := ∅ ]} 0 None []) ∅).
  reflexivity.
Defined.

(* ====================================================================== *)
(** * Export *)
(* ====================================================================== *)

Lemma allDigits_app s t : allDigits (s +:+ t) = allDigits s && allDigits t.
Proof.
  induction s as [|a s IH]; [done|].
  change (String a s +:+ t) with (String a (s +:+ t)). cbn [allDigits].
  by rewrite IH, andb_assoc.
Qed.

Lemma digitsValue_app s t : forall a,
  digitsValue a (s +:+ t) = digitsValue (digitsValue a s) t.
Proof.
  induction s as [|c s IH]; intros a; [done|].
  change (String c s +:+ t) with (String c (s +:+ t)). cbn [digitsValue]. apply IH.
Qed.

Lemma decimalDigits_S f n acc :
  decimalDigits (S f) n acc =
  if n / 10 =? 0 then String (digitChar (n mod 10)) acc
  else decimalDigits f (n / 10) (String (digitChar (n mod 10)) acc).
Proof. reflexivity. Qed.

Lemma decimalDigits_spec f : forall n acc,
  0 <= n < 2 ^ Z.of_nat (S f) ->
  exists ds, decimalDigits (S f) n acc = ds +:+ acc /\
             allDigits ds = true /\ ds <> "" /\ digitsValue 0 ds = n.
Proof.
  induction f as [|f IH]; intros n acc Hn.
  - exists (String (digitChar (n mod 10)) "").
    change (2 ^ Z.of_nat 1) with 2 in Hn.
    rewrite decimalDigits_S. replace (n / 10 =? 0) with true by (symmetry; apply Z.eqb_eq; zlia).
    split; [done|]. cbn [allDigits digitsValue].
    rewrite isDigit_digitChar, digitVal_digitChar by zlia. repeat split; try done. zlia.
  - rewrite decimalDigits_S. destruct (Z.eqb_spec (n / 10) 0) as [E|E].
    + exists (String (digitChar (n mod 10)) "").
      split; [done|]. cbn [allDigits digitsValue].
      rewrite isDigit_digitChar, digitVal_digitChar by zlia. repeat split; try done. zlia.
    + rewrite Nat2Z.inj_succ, Z.pow_succ_r in Hn by lia.
      destruct (IH (n / 10) (String (digitChar (n mod 10)) acc)) as (ds & E1 & A & N & V);
        [zlia|].
      exists (ds +:+ String (digitChar (n mod 10)) "").
      split; [by rewrite E1, string_app_assoc|].
      rewrite allDigits_app, digitsValue_app, A, V. cbn [allDigits digitsValue].
      rewrite isDigit_digitChar, digitVal_digitChar by zlia.
      repeat split; try done; [|zlia]. by destruct ds.
Qed.

Lemma natToString_digits n :
  0 <= n ->
  allDigits (natToString n) = true /\ natToString n <> "" /\
  digitsValue 0 (natToString n) = n.
Proof.
  intros Hn. unfold natToString.
  destruct (decimalDigits_spec (Z.to_nat (Z.log2 n)) n "") as (ds & E & A & N & V).
  - rewrite Nat2Z.inj_succ, Z2Nat.id by apply Z.log2_nonneg.
    destruct (Z.eq_dec n 0) as [->|]; [done|].
    pose proof (Z.log2_spec n ltac:(lia)). lia.
  - rewrite E, append_empty_r. done.
Qed.

Lemma Number_digit a : isDigit a = true -> Number (String a "") = ofZ (digitVal a).
Proof.
  intros H. destruct a as [[] [] [] [] [] [] [] []]; try discriminate H; by_compute.
Qed.

Lemma Number_allDigits s :
  allDigits s = true -> s <> "" -> digitsValue 0 s < overflowZ ->
  Number s = ofZ (digitsValue 0 s).
Proof.
  intros H Hne Hv. destruct s as [|a [|b s]]; [done| |].
  - cbn [allDigits] in H. rewrite andb_true_r in H. rewrite Number_digit by done.
    cbn [digitsValue]. f_equal.
  - apply Number_digits_value; [done| |done]. cbn [String.length]. lia.
Qed.

Lemma Number_natToString n : 0 <= n < overflowZ -> Number (natToString n) = ofZ n.
Proof.
  intros [H Hb]. destruct (natToString_digits n H) as (A & N & V).
  rewrite Number_allDigits, V; [done..|]. by rewrite V.
Qed.

Lemma noSpace_app s t : noSpace (s +:+ t) = noSpace s && noSpace t.
Proof.
  induction s as [|a s IH]; [done|].
  change (String a s +:+ t) with (String a (s +:+ t)). cbn [noSpace].
  by rewrite IH, andb_assoc.
Qed.

Lemma occurs_app c s t : occurs c (s +:+ t) = occurs c s || occurs c t.
Proof.
  induction s as [|a s IH]; [done|].
  change (String a s +:+ t) with (String a (s +:+ t)). cbn [occurs].
  by rewrite IH, orb_assoc.
Qed.

Lemma trimEnd_noSpace s : noSpace s = true -> trimEnd s = s.
Proof.
  induction s as [|a s IH]; [done|]. cbn [noSpace trimEnd]. intros H.
  apply andb_true_iff in H as [Ha Hs]. rewrite (IH Hs).
  apply negb_true_iff in Ha. rewrite Ha. by destruct s.
Qed.

Lemma trim_noSpace s : noSpace s = true -> trim s = s.
Proof.
  intros H. unfold trim.
  assert (trimStart s = s) as ->.
  { destruct s as [|a s]; [done|]. cbn [noSpace trimStart] in *.
    apply andb_true_iff in H as [Ha _]. apply negb_true_iff in Ha. by rewrite Ha. }
  by apply trimEnd_noSpace.
Qed.

Lemma dateChars_plain s : dateChars s = true -> noSpace s = true /\ occurs "," s = false.
Proof.
  induction s as [|a s IH]; [done|]. cbn [dateChars noSpace occurs]. intros H.
  apply andb_true_iff in H as [Ha Hs]. destruct (IH Hs) as [-> ->].
  rewrite (dateChar_not_space a Ha), (dateChar_neq a "," Ha ltac:(outside)). done.
Qed.

Lemma allDigits_plain s : allDigits s = true -> noSpace s = true /\ occurs "," s = false.
Proof.
  induction s as [|a s IH]; [done|]. cbn [allDigits noSpace occurs]. intros H.
  apply andb_true_iff in H as [Ha Hs]. destruct (IH Hs) as [-> ->].
  rewrite (digit_not_space a Ha), (digit_neq a "," Ha ltac:(outside)). done.
Qed.

Lemma removeAll_without c s : occurs c s = false -> removeAll c s = s.
Proof.
  induction s as [|a s IH]; [done|]. cbn [occurs removeAll]. intros H.
  apply orb_false_iff in H as [-> H]. by rewrite (IH H).
Qed.

Lemma split_at c s t :
  occurs c s = false -> split c (s +:+ String c t) = s :: split c t.
Proof.
  induction s as [|a s IH]; intros H.
  - change ("" +:+ String c t) with (String c t). apply split_eq.
  - cbn [occurs] in H. apply orb_false_iff in H as [Ha Hs].
    change (String a s +:+ String c t) with (String a (s +:+ String c t)).
    rewrite split_neq by done. by rewrite (IH Hs).
Qed.

Lemma splitLines_single s : noSpace s = true -> splitLines s = [s].
Proof.
  induction s as [|a s IH]; [done|]. cbn [noSpace]. intros H.
  apply andb_true_iff in H as [Ha Hs]. apply negb_true_iff in Ha.
  assert (Ascii.eqb a LF = false) as E1.
  { destruct (Ascii.eqb_spec a LF) as [->|]; [discriminate Ha|done]. }
  assert (Ascii.eqb a CR = false) as E2.
  { destruct (Ascii.eqb_spec a CR) as [->|]; [discriminate Ha|done]. }
  cbn [splitLines]. rewrite E1, E2. cbn [andb]. rewrite (IH Hs).
  by destruct s.
Qed.

Lemma splitLines_at s t :
  noSpace s = true -> splitLines (s +:+ String LF t) = s :: splitLines t.
Proof.
  induction s as [|a s IH]; intros H.
  - change ("" +:+ String LF t) with (String LF t). reflexivity.
  - cbn [noSpace] in H. apply andb_true_iff in H as [Ha Hs]. apply negb_true_iff in Ha.
    assert (Ascii.eqb a LF = false) as E1.
    { destruct (Ascii.eqb_spec a LF) as [->|]; [discriminate Ha|done]. }
    assert (Ascii.eqb a CR = false) as E2.
    { destruct (Ascii.eqb_spec a CR) as [->|]; [discriminate Ha|done]. }
    change (String a s +:+ String LF t) with (String a (s +:+ String LF t)).
    cbn [splitLines]. rewrite E1, E2. cbn [andb]. rewrite (IH Hs).
    by destruct (s +:+ String LF t).
Qed.

Lemma splitLines_join ls :
  ls <> [] -> Forall (fun l => noSpace l = true) ls ->
  splitLines (join (String LF "") ls) = ls.
Proof.
  induction ls as [|l ls IH]; [done|]. intros _ H.
  inversion H as [|? ? Hl Hls]; subst.
  destruct ls as [|l' ls].
  - cbn [join]. by apply splitLines_single.
  - change (join (String LF "") (l :: l' :: ls))
      with (l +:+ String LF "" +:+ join (String LF "") (l' :: ls)).
    change (String LF "" +:+ join (String LF "") (l' :: ls))
      with (String LF (join (String LF "") (l' :: ls))).
    rewrite splitLines_at by done. by rewrite IH.
Qed.

Lemma exportLine_parts r :
  exportable r ->
  exists t n,
    App.formatDDMMYYYY (App.date r) = t /\ numberToString (App.generation_gwh r) = natToString n /\
    App.generation_gwh r = ofZ n /\ 0 <= n <= 9007199254740991 /\
    dateChars t = true /\ t <> "" /\ allDigits (natToString n) = true /\ natToString n <> "".
Proof.
  intros ([Hp Hr] & Hy & n & Hn & Hg).
  destruct (format_key _ Hp) as (t & Ht & _ & Hd & _).
  destruct (natToString_digits n ltac:(lia)) as (A & N & _).
  exists t, n. rewrite Hg, numberToString_ofZ, intToString_nonneg by lia.
  repeat split; try done; try lia.
  - by apply displayPattern_chars.
  - intros ->. discriminate.
Qed.

Lemma exportLine_row r :
  exportable r ->
  noSpace (App.exportLine r) = true /\ App.exportLine r <> "" /\
  trim <$> split "," (App.exportLine r) = exportRow r.
Proof.
  intros H. destruct (exportLine_parts r H) as (t & n & Ht & Hv & _ & _ & Dt & Nt & Dv & Nv).
  unfold App.exportLine, exportRow. rewrite Ht, Hv.
  destruct (dateChars_plain t Dt) as [St Ct]. destruct (allDigits_plain _ Dv) as [Sv Cv].
  split; [|split].
  - rewrite !noSpace_app, St, Sv. reflexivity.
  - destruct t; [done|discriminate].
  - change ("," +:+ natToString n) with (String "," (natToString n)).
    rewrite split_at, split_without by done. cbn [fmap list_fmap].
    by rewrite !trim_noSpace.
Qed.

Lemma exportRow_outcome e i r :
  exportable r -> App.rowOutcome e i (exportRow r) = inl r.
Proof.
  intros H. destruct (exportLine_parts r H) as (t & n & Ht & Hv & Hg & Hn & _ & _ & Dv & Nv).
  destruct H as (Hk & Hy & _).
  unfold App.rowOutcome, exportRow. cbv zeta. cbn [lookup_total list_lookup_total].
  rewrite (parse_of_format e _ Hk Hy).
  assert (String.eqb (App.date r) "" = false) as ->.
  { destruct Hk as [Hp _]. destruct (App.date r); [discriminate Hp|done]. }
  rewrite Hv, removeAll_without by (by apply allDigits_plain).
  assert (9007199254740991 < overflowZ) as Hbig by (vm_compute; reflexivity).
  rewrite Number_natToString by lia. cbn [isFinite ofZ negb orb nltb].
  assert (qltb (qz n) (qz 0) = false) as ->.
  { apply qltb_ge, qleb_le. rewrite qleb_qz. apply Z.leb_le. lia. }
  destruct r as [d g]. cbn in Hg. by rewrite Hg.
Qed.

Lemma csvLoop_export e l : forall i parsed errors,
  Forall exportable l ->
  App.csvLoop e i (exportRow <$> l) parsed errors = ((parsed ++ l)%list, errors).
Proof.
  induction l as [|r l IH]; intros i parsed errors H.
  - cbn. by rewrite app_nil_r.
  - inversion H as [|? ? Hr Hl]; subst. cbn [fmap list_fmap App.csvLoop].
    rewrite exportRow_outcome by done. rewrite IH by done. by rewrite <- app_assoc.
Qed.

Lemma header_row :
  trim <$> split "," "date,generation_gwh" = ["date"; "generation_gwh"] /\
  noSpace "date,generation_gwh" = true /\
  App.isHeader ["date"; "generation_gwh"] = true.
Proof. repeat split; vm_compute; reflexivity. Qed.

Lemma csvRows_export l :
  Forall exportable l ->
  App.csvRows (join (String LF "") ("date,generation_gwh" :: (App.exportLine <$> l))) =
  ["date"; "generation_gwh"] :: (exportRow <$> l).
Proof.
  intros H. destruct header_row as (Hh & Hs & _).
  unfold App.csvRows.
  rewrite splitLines_join; [|done|].
  2:{ constructor; [done|]. apply Forall_fmap. apply list.Forall_forall. intros r Hr. cbn.
      rewrite list.Forall_forall in H. by apply exportLine_row, H. }
  assert (trim <$> ("date,generation_gwh" :: (App.exportLine <$> l)) =
          "date,generation_gwh" :: (App.exportLine <$> l)) as ->.
  { cbn [fmap list_fmap]. f_equal. rewrite <- list_fmap_compose.
    apply list_fmap_ext. intros j r Hj. cbn. apply trim_noSpace.
    apply exportLine_row. rewrite list.Forall_forall in H. apply H.
    by eapply list_elem_of_lookup_2. }
  assert (filter (fun s : string => s <> "") ("date,generation_gwh" :: (App.exportLine <$> l)) =
          "date,generation_gwh" :: (App.exportLine <$> l)) as ->.
  { rewrite filter_cons_True by done. f_equal.
    clear Hh Hs. induction H as [|r l Hr Hl IH]; [done|]. cbn [fmap list_fmap].
    rewrite filter_cons_True by (by apply exportLine_row). by rewrite IH. }
  cbn [fmap list_fmap]. fold (@fmap list _ _ _ trim). rewrite Hh.
  rewrite filter_cons_True by (cbn; lia). f_equal.
  clear Hh Hs. induction H as [|r l Hr Hl IH]; [done|]. cbn [fmap list_fmap].
  fold (@fmap list _ _ _ trim).
  destruct (exportLine_row r Hr) as (_ & _ & ->).
  rewrite filter_cons_True by (cbn; lia). by rewrite IH.
Qed.

(** X22: importing what was exported gives the records back: on records whose
    keys name real days from the year 1000 on and whose values are whole
    numbers from 0 to 2^53 - 1, [csvParse] of the text that [exportCSV]
    writes returns exactly these records, in the same order, and no error. *)
Theorem export_then_import (e : engine) (now : Z) (l : list App.DailyPoint) :
  Forall exportable l ->
  exists name text,
    App.exportCSV now l = Some (name, text) /\
    App.csvParse e text = (l, []).
Proof.
  intros H. unfold App.exportCSV. cbv zeta. cbn [toISOString mbind option_bind].
  eexists _, _. split; [reflexivity|].
  unfold App.csvParse. rewrite csvRows_export by done.
  cbn [App.stripHeader]. rewrite (proj2 (proj2 header_row)).
  by rewrite csvLoop_export.
Qed.

Lemma export_then_import_witness :
  exists name text,
    App.exportCSV 0 [App.mkPoint "2025-12-18" (ofZ 4140)] = Some (name, text) /\
    App.csvParse StrictDays text = ([App.mkPoint "2025-12-18" (ofZ 4140)], []).
Proof.
  apply export_then_import. constructor; [|constructor].
  split; [|split].
  - split; [reflexivity|]. vm_compute. repeat split; discriminate.
  - vm_compute. discriminate.
  - exists 4140. split; [lia|reflexivity].
Defined.

(* ====================================================================== *)
(** * The rollup in order, and the monthly chart *)
(* ====================================================================== *)

Lemma build_months l mk :
  is_Some (App.buildMonthDayMap l !! mk) <-> mk ∈ (App.monthKey ∘ App.date <$> l).
Proof.
  induction l as [|p l IH] using rev_ind.
  - unfold App.buildMonthDayMap. cbn. rewrite lookup_empty. split; [by intros [? ?]|].
    by intros ?%elem_of_nil.
  - rewrite build_snoc, fmap_app, elem_of_app. cbn [fmap list_fmap]. rewrite list_elem_of_singleton.
    unfold App.addToMonth. cbv zeta.
    destruct (decide (App.monthKey (App.date p) = mk)) as [<-|Hne].
    + rewrite lookup_insert_eq. split; [by right|by eexists].
    + rewrite lookup_insert_ne by done. rewrite IH. split; [by left|]. intros [H|H]; [done|].
      cbn in H. congruence.
Qed.

Lemma strings_strict (l : list string) :
  NoDup l -> StronglySorted App.isoLe l ->
  StronglySorted (fun a b => String.ltb a b = true) l.
Proof.
  induction 2 as [|a l Hs IH Ha]; [constructor|].
  apply list.NoDup_cons in H as [Hni Hn].
  constructor; [by apply IH|].
  apply list.Forall_forall. intros b Hb.
  rewrite list.Forall_forall in Ha. specialize (Ha b Hb).
  unfold App.isoLe in Ha. rewrite sortISO_compare in Ha.
  rewrite ltb_compare. destruct (String.compare a b) eqn:E; try done.
  apply String.compare_eq_iff in E. by subst.
Qed.

Lemma toMonthly_months l :
  App.month <$> App.toMonthly l =
  App.sortKeys (map_to_list (App.buildMonthDayMap l)).*1.
Proof.
  unfold App.toMonthly. cbv zeta. rewrite <- list_fmap_compose.
  rewrite <- (list_fmap_id (App.sortKeys _)) at 2. by apply list_fmap_ext.
Qed.

Lemma toMonthly_sorted (l : list App.DailyPoint) :
  StronglySorted (fun a b => String.ltb a b = true) (App.month <$> App.toMonthly l).
Proof.
  rewrite toMonthly_months. unfold App.sortKeys.
  apply strings_strict; [|apply StronglySorted_merge_sort; apply _].
  rewrite merge_sort_Permutation. apply NoDup_fst_map_to_list.
Qed.

(** X12: [toMonthly] returns one row for every month that has a stored day
    and no other row, in strictly ascending order of the month keys. *)
Theorem toMonthly_ascending (l : list App.DailyPoint) :
  StronglySorted (fun a b => String.ltb a b = true) (App.month <$> App.toMonthly l) /\
  NoDup (App.month <$> App.toMonthly l) /\
  (forall mk, mk ∈ (App.month <$> App.toMonthly l) <->
              exists p, p ∈ l /\ App.monthKey (App.date p) = mk) /\
  (l = [] -> App.toMonthly l = []).
Proof.
  split; [apply toMonthly_sorted|].
  rewrite toMonthly_months. unfold App.sortKeys.
  assert (NoDup (map_to_list (App.buildMonthDayMap l)).*1) as Hn
    by apply NoDup_fst_map_to_list.
  assert (NoDup (merge_sort App.isoLe (map_to_list (App.buildMonthDayMap l)).*1)) as Hn'
    by (by rewrite merge_sort_Permutation).
  split; [done|split].
  - intros mk. rewrite merge_sort_Permutation.
    rewrite list_elem_of_fmap. split.
    + intros ([k r] & -> & H). apply elem_of_map_to_list in H. cbn.
      assert (is_Some (App.buildMonthDayMap l !! k)) as Hs by (by eexists).
      apply build_months, list_elem_of_fmap in Hs as (p & -> & Hp). by exists p.
    + intros (p & Hp & <-).
      assert (App.monthKey (App.date p) ∈ (App.monthKey ∘ App.date <$> l)) as Hin
        by (apply list_elem_of_fmap; by exists p).
      apply build_months in Hin as [r Hr].
      exists (App.monthKey (App.date p), r). split; [done|]. by apply elem_of_map_to_list.
  - by intros ->.
Qed.

Lemma toMonthly_ascending_witness :
  App.toMonthly [] = [].
Proof. by apply (toMonthly_ascending []). Defined.

Lemma monthlyForChart_eq rows :
  App.monthlyForChart rows = chartRow <$> drop (length rows - 24) rows.
Proof. by destruct rows. Qed.

Lemma sorted_app_lt (l1 l2 : list string) :
  StronglySorted (fun a b => String.ltb a b = true) (l1 ++ l2) ->
  forall a b, a ∈ l1 -> b ∈ l2 -> String.ltb a b = true.
Proof.
  induction l1 as [|x l1 IH]; intros H a b Ha Hb; [by apply elem_of_nil in Ha|].
  cbn in H. inversion H as [|? ? Hs Hx]; subst.
  apply elem_of_cons in Ha as [->|Ha].
  - rewrite list.Forall_forall in Hx. apply Hx, elem_of_app. by right.
  - by apply IH.
Qed.

(** X20: the monthly chart shows the last 24 rows of the rollup, or all of
    them when there are fewer, each rounded to two decimals; drawn from the
    rollup of a store, every month it leaves out is earlier than every
    month it shows. *)
Theorem monthlyForChart_latest (rows : list App.MonthlyRecord) :
  length (App.monthlyForChart rows) = Nat.min 24 (length rows) /\
  App.monthlyForChart rows = chartRow <$> drop (length rows - 24) rows /\
  ((length rows <= 24)%nat -> App.monthlyForChart rows = chartRow <$> rows) /\
  (forall l, rows = App.toMonthly l ->
     forall a b,
       a ∈ (App.month <$> take (length rows - 24) rows) ->
       b ∈ (App.mc_month <$> App.monthlyForChart rows) ->
       String.ltb a b = true).
Proof.
  rewrite monthlyForChart_eq. split; [rewrite length_fmap, length_drop; lia|].
  split; [done|]. split.
  { intros H. replace (length rows - 24)%nat with 0%nat by lia. done. }
  intros l -> a b Ha Hb.
  pose proof (toMonthly_sorted l) as Hs.
  rewrite <- (take_drop (length (App.toMonthly l) - 24) (App.toMonthly l)) in Hs at 1.
  rewrite fmap_app in Hs. apply (sorted_app_lt _ _ Hs); [done|].
  rewrite <- list_fmap_compose in Hb. exact Hb.
Qed.

Lemma monthlyForChart_latest_witness :
  App.monthlyForChart [App.mkMonthly "2024-02" (ofZ 100) (ofZ 28) None None] =
  chartRow <$> [App.mkMonthly "2024-02" (ofZ 100) (ofZ 28) None None].
Proof.
  apply (monthlyForChart_latest [App.mkMonthly "2024-02" (ofZ 100) (ofZ 28) None None]).
  cbn. lia.
Defined.

(* ====================================================================== *)
(** * The chart series *)
(* ====================================================================== *)

Lemma eqb_empty s : s <> "" -> String.eqb s "" = false.
Proof. intros H. by destruct s. Qed.

Lemma leb_trans a b c : String.leb a b = true -> String.leb b c = true -> String.leb a c = true.
Proof.
  rewrite !leb_compare. intros H1 H2.
  pose proof (sortISO_le_trans a b c) as T. rewrite !sortISO_compare in T.
  destruct (String.compare a b), (String.compare b c), (String.compare a c);
    try done; exfalso; lia.
Qed.

Lemma ltb_not_leb a b : String.ltb a b = true -> String.leb b a = false.
Proof.
  rewrite ltb_compare, leb_compare, (String.compare_antisym b a).
  by destruct (String.compare a b).
Qed.

(** X17: [dailyForChart] of [src/App.tsx] takes the two ends of the range in
    either order; the second copy does not: when the start is after the end
    its chart is empty. *)
Theorem dailyForChart_range_order (e : engine) (fuel : nat) (l : list App.DailyPoint)
    (rangeDays : number) (a b : string) :
  a <> "" -> b <> "" ->
  (forall freq, App.dailyForChart e fuel l rangeDays a b freq =
                App.dailyForChart e fuel l rangeDays b a freq) /\
  (String.ltb b a = true ->
     Alt.dailyForChart e fuel l a b Alt.daily = App.Ret [] /\
     (fuel <> 0%nat -> Alt.dailyForChart e fuel l a b Alt.rolling30 = App.Ret [])).
Proof.
  intros Ha Hb. split.
  - intros freq. unfold App.dailyForChart.
    destruct (list.last l) as [p|]; [|done].
    rewrite !eqb_empty by done. cbn [App.bind].
    destruct (String.leb a b) eqn:E1, (String.leb b a) eqn:E2; try done.
    + by rewrite (String.leb_antisym _ _ E1 E2).
    + destruct (String.leb_total a b); congruence.
  - intros Hlt. pose proof (ltb_not_leb _ _ Hlt) as Hle.
    unfold Alt.dailyForChart. destruct l as [|p l]; [done|]. split.
    + f_equal. rewrite filter_none; [done|].
      apply list.Forall_forall. intros r _ H. apply Is_true_true in H.
      apply andb_true_iff in H as [H1 H2]. pose proof (leb_trans _ _ _ H1 H2). congruence.
    + intros Hf. destruct fuel as [|f]; [done|]. cbn [Alt.rollingLoop]. by rewrite Hle.
Qed.

Lemma dailyForChart_range_order_witness :
  Alt.dailyForChart StrictDays 1 januaryOnly "2024-02-01" "2024-01-01" Alt.rolling30 =
  App.Ret [].
Proof.
  apply (dailyForChart_range_order StrictDays 1 januaryOnly NaN "2024-02-01" "2024-01-01");
    try discriminate. vm_compute. reflexivity.
Defined.

Lemma app_rollingPoint_mom e store fuel cur pt :
  App.rollingPoint e store fuel cur = App.Ret pt -> App.c_mom_pct pt = None.
Proof.
  unfold App.rollingPoint.
  destruct (App.orThrow _) as [start| |]; cbn [App.bind]; try discriminate.
  destruct (App.sumRangeInclusive _ _ _ _ _) as [currSum| |]; cbn [App.bind]; try discriminate.
  destruct (App.orThrow _) as [cpy| |]; cbn [App.bind]; try discriminate.
  destruct (App.orThrow _) as [spy| |]; cbn [App.bind]; try discriminate.
  destruct (App.sumRangeInclusive _ _ _ _ _) as [prevSum| |]; cbn [App.bind]; try discriminate.
  by intros [= <-].
Qed.

Lemma app_rollingLoop_mom e store fuel : forall cur t points ps,
  Forall (fun p => App.c_mom_pct p = None) points ->
  App.rollingLoop e store fuel cur t points = App.Ret ps ->
  Forall (fun p => App.c_mom_pct p = None) ps.
Proof.
  induction fuel as [|f IH]; intros cur t points ps Hp; [discriminate|].
  cbn [App.rollingLoop].
  destruct (String.leb cur t); [|by intros [= <-]].
  destruct (App.rollingPoint e store (S f) cur) as [pt| |] eqn:E; cbn [App.bind]; try discriminate.
  destruct (App.orThrow _) as [next| |]; cbn [App.bind]; try discriminate.
  apply IH. apply list.Forall_app. split; [done|]. constructor; [|constructor].
  by eapply app_rollingPoint_mom.
Qed.

Lemma alt_rollingPoint_mom e store cur pt :
  Alt.rollingPoint e store cur = App.Ret pt -> App.c_mom_pct pt = None.
Proof.
  unfold Alt.rollingPoint.
  destruct (Alt.windowSum _ _ _ _ _ _) as [[sum cnt]| |]; cbn [App.bind]; try discriminate.
  destruct (App.orThrow _) as [prevEnd| |]; cbn [App.bind]; try discriminate.
  destruct (Alt.windowSum _ _ _ _ _ _) as [[psum pcnt]| |]; cbn [App.bind]; try discriminate.
  by intros [= <-].
Qed.

Lemma alt_rollingLoop_mom e store fuel : forall cur t points ps,
  Forall (fun p => App.c_mom_pct p = None) points ->
  Alt.rollingLoop e store fuel cur t points = App.Ret ps ->
  Forall (fun p => App.c_mom_pct p = None) ps.
Proof.
  induction fuel as [|f IH]; intros cur t points ps Hp; [discriminate|].
  cbn [Alt.rollingLoop].
  destruct (String.leb cur t); [|by intros [= <-]].
  destruct (Alt.rollingPoint e store cur) as [pt| |] eqn:E; cbn [App.bind]; try discriminate.
  destruct (App.orThrow _) as [next| |]; cbn [App.bind]; try discriminate.
  apply IH. apply list.Forall_app. split; [done|]. constructor; [|constructor].
  by eapply alt_rollingPoint_mom.
Qed.

(** X19: no point of the chart series carries a month-over-month value:
    whatever the store, the range and the mode, every point that
    [dailyForChart] returns has a null [mom_pct], in both copies. *)
Theorem dailyForChart_never_mom (e : engine) (fuel : nat) (l : list App.DailyPoint)
    (rangeDays : number) (fromIso toIso : string) :
  (forall freq ps,
     App.dailyForChart e fuel l rangeDays fromIso toIso freq = App.Ret ps ->
     Forall (fun p => App.c_mom_pct p = None) ps) /\
  (forall freq ps,
     Alt.dailyForChart e fuel l fromIso toIso freq = App.Ret ps ->
     Forall (fun p => App.c_mom_pct p = None) ps).
Proof.
  split; intros freq ps.
  - unfold App.dailyForChart. destruct (list.last l) as [p|]; [|by intros [= <-]].
    destruct (if String.eqb fromIso "" then _ else _) as [ef| |]; cbn [App.bind]; try discriminate.
    destruct freq.
    + intros [= <-]. apply Forall_fmap, list.Forall_forall. by intros.
    + intros [= <-]. apply Forall_fmap, list.Forall_forall. by intros.
    + intros [= <-]. apply Forall_fmap, list.Forall_forall. by intros.
    + by apply app_rollingLoop_mom.
  - unfold Alt.dailyForChart. destruct l as [|p l]; [by intros [= <-]|].
    destruct freq.
    + intros [= <-]. apply Forall_fmap, list.Forall_forall. by intros.
    + by apply alt_rollingLoop_mom.
Qed.

Lemma dailyForChart_never_mom_witness :
  Forall (fun p => App.c_mom_pct p = None)
         [App.mkChart "01-06-2024" (Some (ofZ 0)) None None None].
Proof.
  apply (proj1 (dailyForChart_never_mom StrictDays 40 januaryOnly (ofZ 120)
                  "2024-06-01" "2024-06-01") App.rolling30).
  by_compute.
Defined.

Lemma sameDayPrevYear_key s :
  isoPattern s = true -> 1001 <= yearOf s -> App.sameDayPrevYear s = prevYearDay s.
Proof.
  intros H Hy. destruct (iso_text s H) as (_ & Ry & Rm & Rd). revert Hy Ry Rm Rd.
  destruct (iso_decompose s H)
    as (y1 & y2 & y3 & y4 & m1 & m2 & d1 & d2 & -> & Y1 & Y2 & Y3 & Y4 & M1 & M2 & D1 & D2).
  unfold App.sameDayPrevYear, prevYearDay, dayKey, monthText, yearOf, monthOf, dayOf.
  cbn [slice substring Nat.sub sliceFrom].
  destruct (twoDigits_value m1 m2 M1 M2) as [_ Em].
  destruct (twoDigits_value d1 d2 D1 D2) as [_ Ed].
  assert (Number (String y1 (String y2 (String y3 (String y4 "")))) =
          ofZ (digitsValue 0 (String y1 (String y2 (String y3 (String y4 "")))))) as ->.
  { apply Number_digits; [|simpl; lia]. cbn [allDigits]. by rewrite Y1, Y2, Y3, Y4. }
  intros Hy Ry Rm Rd.
  rewrite nsub_ofZ, numberToString_ofZ, intToString_nonneg by lia.
  rewrite natToString_fourDigits, pad4_fourDigits, !pad2_twoDigits by lia.
  rewrite Em, Ed. by rewrite !string_app_assoc.
Qed.

Lemma appDaily_eq store r :
  isoPattern (App.date r) = true -> 1001 <= yearOf (App.date r) ->
  App.dailyPoint store r = appDaily store r.
Proof.
  intros H Hy. unfold App.dailyPoint, appDaily. cbv zeta.
  rewrite sameDayPrevYear_key by done. by destruct (store !! prevYearDay (App.date r)).
Qed.

Lemma altDaily_eq store r :
  isoPattern (App.date r) = true -> 1001 <= yearOf (App.date r) ->
  Alt.dailyPoint store r = altDaily store r.
Proof.
  intros H Hy. unfold Alt.dailyPoint, altDaily. cbv zeta.
  rewrite sameDayPrevYear_key by done.
  by destruct (store !! prevYearDay (App.date r)).
Qed.

(** X18: in daily mode the chart has one point for every stored day of the
    range, in the order of the store, and running it needs no stepping
    through the calendar.  For keys from the year 1001 on the point
    compares the day with the same day and month one year earlier: the
    previous-year value is that day's rounded value, or null when the day
    is not stored.  When that value is 0, the growth is null in
    [src/App.tsx] and NaN in the second copy. *)
Theorem dailyForChart_daily (e : engine) (fuel : nat) (l : list App.DailyPoint)
    (rangeDays : number) (a b : string) :
  l <> [] -> a <> "" -> b <> "" -> String.leb a b = true ->
  Forall (fun r => isoPattern (App.date r) = true /\ 1001 <= yearOf (App.date r)) l ->
  let inRange := fun r => String.leb a (App.date r) && String.leb (App.date r) b in
  App.dailyForChart e fuel l rangeDays a b App.daily =
    App.Ret (appDaily (App.lookupOf l) <$> filter inRange l) /\
  Alt.dailyForChart e fuel l a b Alt.daily =
    App.Ret (altDaily (App.lookupOf l) <$> filter inRange l) /\
  (forall r, App.lookupOf l !! prevYearDay (App.date r) = Some (ofZ 0) ->
     App.c_yoy_pct (appDaily (App.lookupOf l) r) = None /\
     App.c_yoy_pct (altDaily (App.lookupOf l) r) = Some NaN) /\
  (forall r, App.lookupOf l !! prevYearDay (App.date r) = None ->
     App.prev_year_units (appDaily (App.lookupOf l) r) = None /\
     App.c_yoy_pct (appDaily (App.lookupOf l) r) = None /\
     App.prev_year_units (altDaily (App.lookupOf l) r) = None /\
     App.c_yoy_pct (altDaily (App.lookupOf l) r) = None).
Proof.
  intros Hl Ha Hb Hab Hk inRange.
  assert (forall (f g : App.DailyPoint -> App.ChartPoint),
            (forall r, isoPattern (App.date r) = true -> 1001 <= yearOf (App.date r) ->
                       f r = g r) ->
            f <$> filter inRange l = g <$> filter inRange l) as Hext.
  { intros f g Hfg. apply list_fmap_ext. intros i r Hi.
    apply list_elem_of_lookup_2, list_elem_of_filter in Hi as [_ Hi].
    rewrite list.Forall_forall in Hk. destruct (Hk r Hi). by apply Hfg. }
  split; [|split; [|split]].
  - unfold App.dailyForChart.
    destruct (list.last l) as [p|] eqn:E; [|by apply lookupOf_empty in E].
    rewrite !eqb_empty by done. cbn [App.bind]. rewrite Hab. f_equal.
    apply Hext. intros. by apply appDaily_eq.
  - unfold Alt.dailyForChart. destruct l as [|p l']; [done|]. f_equal.
    apply Hext. intros. by apply altDaily_eq.
  - intros r Hz. unfold appDaily, altDaily. cbv zeta. rewrite Hz.
    cbn [App.c_yoy_pct fmap option_fmap option_map]. split; [|f_equal]; by_compute.
  - intros r Hz. unfold appDaily, altDaily. cbv zeta. rewrite Hz. done.
Qed.

Lemma dailyForChart_daily_witness :
  App.dailyForChart StrictDays 0 januaryOnly (ofZ 120) "2024-01-01" "2024-01-31" App.daily =
  App.Ret (appDaily (App.lookupOf januaryOnly) <$>
           filter (fun r => String.leb "2024-01-01" (App.date r) &&
                            String.leb (App.date r) "2024-01-31") januaryOnly).
Proof.
  apply (dailyForChart_daily StrictDays 0 januaryOnly (ofZ 120) "2024-01-01" "2024-01-31");
    try discriminate; try reflexivity.
  constructor; [|constructor]. split; [reflexivity|]. vm_compute. discriminate.
Defined.

(* ====================================================================== *)
(** * The default range, and saving a day *)
(* ====================================================================== *)





(** X24: [saveDay] stores a day only when the date parses and the units read
    as a finite number that is not negative; then the store becomes a new
    map that holds the value under the parsed key and every other entry as
    before, and the map it had is not changed.  Otherwise the store stays
    as it is and one error is shown.  An empty units field saves 0. *)
Theorem saveDay_outcomes (e : engine) (st : Alt.State) (m : gmap string number) :
  Alt.st_heap st !! Alt.st_dataMap st = Some m ->
  let st' := Alt.saveDay e st in
  let val := Number (Alt.st_gwh st) in
  (forall iso,
     Alt.parseInputDate e (Alt.st_date st) = Some iso ->
     isFinite val = true -> nleb (ofZ 0) val = true ->
     Alt.st_heap st' !! Alt.st_dataMap st' = Some (<[iso := val]> m) /\
     Alt.st_heap st' !! Alt.st_dataMap st = Some m /\
     Alt.st_dataMap st' <> Alt.st_dataMap st /\
     Alt.st_errors st' = [] /\ Alt.st_gwh st' = "" /\
     Alt.st_msg st' = Some ("Saved " +:+ Alt.formatDDMMYYYY iso) /\
     (Alt.st_gwh st = "" -> val = ofZ 0)) /\
  (Alt.parseInputDate e (Alt.st_date st) = None ->
     st' = Alt.mkState (Alt.st_heap st) (Alt.st_dataMap st) (Alt.st_date st) (Alt.st_gwh st)
             (Alt.st_msg st) ["Invalid date (DD-MM-YYYY)"]) /\
  (forall iso,
     Alt.parseInputDate e (Alt.st_date st) = Some iso ->
     isFinite val = false \/ nltb val (ofZ 0) = true ->
     st' = Alt.mkState (Alt.st_heap st) (Alt.st_dataMap st) (Alt.st_date st) (Alt.st_gwh st)
             (Alt.st_msg st) ["Invalid units"]).
Proof.
  intros Hm st' val. subst st' val. unfold Alt.saveDay. cbv zeta.
  split; [|split].
  - intros iso Hi Hf Hp. rewrite Hi.
    assert (iso <> "") as Hne
      by (rewrite parseInputDate_Alt in Hi; by eapply parseInputDate_nonempty).
    rewrite eqb_empty by done. rewrite Hf. cbn [negb orb].
    assert (nltb (Number (Alt.st_gwh st)) (ofZ 0) = false) as ->.
    { destruct (Number (Alt.st_gwh st)) as [q| | |]; try done.
      cbn [nltb nleb ofZ] in *. unfold qltb. by rewrite negb_false_iff. }
    unfold Alt.copyAndSet, App.newMapFrom. rewrite Hm. cbn [default].
    unfold App.mapSet. rewrite lookup_insert_eq.
    cbn [Alt.st_heap Alt.st_dataMap Alt.st_errors Alt.st_gwh Alt.st_msg].
    pose proof (fresh_heap (Alt.st_heap st)) as Hfr.
    assert (fresh (dom (Alt.st_heap st)) <> Alt.st_dataMap st) as Hn
      by (intros E; rewrite E in Hfr; congruence).
    rewrite insert_insert_eq. rewrite lookup_insert_eq.
    split; [done|]. split; [by rewrite lookup_insert_ne|].
    repeat split; try done. by intros ->.
  - by intros ->.
  - intros iso Hi Hbad. rewrite Hi.
    assert (iso <> "") as Hne
      by (rewrite parseInputDate_Alt in Hi; by eapply parseInputDate_nonempty).
    rewrite eqb_empty by done.
    destruct Hbad as [-> | ->]; [done|]. by rewrite orb_true_r.
Qed.

Lemma saveDay_outcomes_witness :
  Alt.st_heap (Alt.saveDay StrictDays
                 (Alt.mkState {[ 0%nat := ∅ ]} 0 "29-02-2024" "" None ["old"]))
    !! Alt.st_dataMap (Alt.saveDay StrictDays
                         (Alt.mkState {[ 0%nat := ∅ ]} 0 "29-02-2024" "" None ["old"])) =
  Some (<["2024-02-29" := Number ""]> ∅).
Proof.
  set (st := Alt.mkState {[ 0%nat := ∅ ]} 0 "29-02-2024" "" None ["old"]).
  assert (Alt.st_heap st !! Alt.st_dataMap st = Some ∅) as H0 by reflexivity.
  apply (proj1 (saveDay_outcomes StrictDays st ∅ H0) "2024-02-29"); vm_compute; reflexivity.
Defined.

(* ====================================================================== *)
(** * The second copy's import, and loading what was saved *)
(* ====================================================================== *)

Lemma importRows_fold e next rows : forall (h : App.heap) m,
  h !! next = Some m ->
  foldl (Alt.importRow e next) h rows = <[next := foldl (storeRow e) m rows]> h.
Proof.
  induction rows as [|r rows IH]; intros h m Hm.
  - cbn. by rewrite insert_id.
  - cbn [foldl]. unfold Alt.importRow at 2, storeRow at 2. cbv zeta.
    destruct (Alt.parseInputDate e (split "," r !!! 0%nat)) as [k|]; [|by apply IH].
    destruct (negb (String.eqb k "") && isFinite _); [|by apply IH].
    unfold App.mapSet. rewrite Hm.
    rewrite (IH _ (<[k := match split "," r !! 1%nat with Some v => Number v | None => NaN end]> m))
      by (by rewrite lookup_insert_eq).
    by rewrite insert_insert_eq.
Qed.

Lemma storeRow_dom e m r : dom m ⊆ dom (storeRow e m r).
Proof.
  unfold storeRow. cbv zeta. destruct (Alt.parseInputDate e _) as [k|]; [|done].
  destruct (_ && _); [|done]. rewrite dom_insert. set_solver.
Qed.

Lemma storeRows_dom e rows : forall m, dom m ⊆ dom (foldl (storeRow e) m rows).
Proof.
  induction rows as [|r rows IH]; intros m; [done|]. cbn [foldl].
  etrans; [apply (storeRow_dom e m r)|apply IH].
Qed.

Lemma splitLines_first s t :
  noBreak s = true -> splitLines (s +:+ String LF t) = s :: splitLines t.
Proof.
  induction s as [|a s IH]; intros H.
  - change ("" +:+ String LF t) with (String LF t). reflexivity.
  - cbn [noBreak] in H. apply andb_true_iff in H as [Ha Hs].
    apply andb_true_iff in Ha as [E1 E2]. apply negb_true_iff in E1, E2.
    change (String a s +:+ String LF t) with (String a (s +:+ String LF t)).
    cbn [splitLines]. rewrite E1, E2. cbn [andb]. rewrite (IH Hs).
    by destruct (s +:+ String LF t).
Qed.

(** X25: [importCSV] of the second copy changes no object that existed before
    and loses no stored day; it always skips the first line of the file,
    shows no error, and stores every later row whose date parses and whose
    value reads as a finite number, a negative one included. *)
Theorem importCSV_second_copy (e : engine) (st : Alt.State) (file : App.fileArg)
    (m : gmap string number) :
  Alt.st_heap st !! Alt.st_dataMap st = Some m ->
  let st' := Alt.importCSV e st file in
  (forall l v, Alt.st_heap st !! l = Some v -> Alt.st_heap st' !! l = Some v) /\
  Alt.st_errors st' = Alt.st_errors st /\ Alt.st_msg st' = Alt.st_msg st /\
  (file = App.NoFile \/ file = App.Unreadable -> st' = st) /\
  (forall text, file = App.Readable text ->
     Alt.st_heap st' !! Alt.st_dataMap st' =
       Some (foldl (storeRow e) m (drop 1 (splitLines text))) /\
     dom m ⊆ dom (foldl (storeRow e) m (drop 1 (splitLines text)))) /\
  (forall first rest, noBreak first = true ->
     drop 1 (splitLines (first +:+ String LF rest)) = splitLines rest) /\
  (forall acc d v iso,
     Alt.parseInputDate e d = Some iso ->
     occurs "," d = false -> occurs "," v = false -> isFinite (Number v) = true ->
     storeRow e acc (d +:+ "," +:+ v) = <[iso := Number v]> acc).
Proof.
  intros Hm st'. subst st'. pose proof (fresh_heap (Alt.st_heap st)) as Hf.
  assert (forall text,
    Alt.importCSV e st (App.Readable text) =
    Alt.mkState (<[fresh (dom (Alt.st_heap st)) :=
                     foldl (storeRow e) m (drop 1 (splitLines text))]> (Alt.st_heap st))
      (fresh (dom (Alt.st_heap st))) (Alt.st_date st) (Alt.st_gwh st) (Alt.st_msg st)
      (Alt.st_errors st)) as Er.
  { intros text. unfold Alt.importCSV, App.newMapFrom. rewrite Hm. cbn [default].
    rewrite (importRows_fold e _ _ _ m) by (by rewrite lookup_insert_eq).
    by rewrite insert_insert_eq. }
  split; [|split; [|split; [|split; [|split; [|split]]]]].
  - intros l v Hl. destruct file as [| |text]; try done. rewrite Er. cbn [Alt.st_heap].
    rewrite lookup_insert_ne by (intros <-; congruence). done.
  - destruct file as [| |text]; try done; by rewrite Er.
  - destruct file as [| |text]; try done; by rewrite Er.
  - by intros [-> | ->].
  - intros text ->. rewrite Er. cbn [Alt.st_heap Alt.st_dataMap].
    split; [by rewrite lookup_insert_eq|apply storeRows_dom].
  - intros first rest H. by rewrite splitLines_first.
  - intros acc d v iso Hi Hd Hv Hfin. unfold storeRow. cbv zeta.
    change ("," +:+ v) with (String "," v). rewrite split_at, split_without by done.
    cbn [lookup_total list_lookup_total lookup list_lookup]. rewrite Hi.
    assert (iso <> "") as Hne
      by (rewrite parseInputDate_Alt in Hi; by eapply parseInputDate_nonempty).
    by rewrite eqb_empty, Hfin.
Qed.

Lemma importCSV_second_copy_witness :
  storeRow StrictDays ∅ ("18-12-2025" +:+ "," +:+ "-5") = <["2025-12-18" := Number "-5"]> ∅.
Proof.
  set (st := Alt.mkState {[ 0%nat := (∅ : gmap string number) ]} 0 "" "" None []).
  assert (Alt.st_heap st !! Alt.st_dataMap st = Some ∅) as H0 by reflexivity.
  apply (importCSV_second_copy StrictDays st App.NoFile ∅ H0); vm_compute; reflexivity.
Defined.

Lemma validEntry_nonempty e k g : validEntry e k g -> String.eqb k "" = false.
Proof.
  intros [H _]. apply parseISOKey_char in H as [H _]. by destruct k.
Qed.

Lemma load_valid e l : forall acc,
  Forall (fun kv => validEntry e kv.1 kv.2) l ->
  foldl (App.loadEntry e) acc ((fun kv : string * number => (kv.1, JNum kv.2)) <$> l) =
  foldl (fun m kv => <[kv.1 := kv.2]> m) acc l.
Proof.
  induction l as [|[k v] l IH]; intros acc H; [done|].
  inversion H as [|? ? Hv Hl]; subst. cbn [fmap list_fmap foldl].
  rewrite <- IH by done. f_equal.
  unfold App.loadEntry. cbv zeta. cbn [fst snd ToNumber] in *.
  pose proof (validEntry_nonempty _ _ _ Hv) as Hn. destruct Hv as (-> & -> & ->).
  by rewrite Hn.
Qed.

Lemma load_any l : forall acc : gmap string number,
  foldl (fun m (kv : string * json) => <[kv.1 := ToNumber kv.2]> m) acc
        ((fun kv : string * number => (kv.1, JNum kv.2)) <$> l) =
  foldl (fun m kv => <[kv.1 := kv.2]> m) acc l.
Proof. induction l as [|[k v] l IH]; intros acc; [done|]. cbn [fmap list_fmap foldl]. apply IH. Qed.

Lemma foldl_insert_lookup (l : list (string * number)) : forall (acc : gmap string number) k,
  NoDup l.*1 ->
  foldl (fun m kv => <[kv.1 := kv.2]> m) acc l !! k =
  match list_to_map (M := gmap string number) l !! k with
  | Some v => Some v
  | None => acc !! k
  end.
Proof.
  induction l as [|[k' v'] l IH]; intros acc k Hn; [done|].
  cbn [fmap list_fmap fst] in Hn. apply list.NoDup_cons in Hn as [Hni Hn].
  cbn [foldl list_to_map foldr fst snd]. rewrite IH by done.
  destruct (decide (k' = k)) as [->|Hne].
  - rewrite lookup_insert_eq.
    rewrite (not_elem_of_list_to_map_1 (M := gmap string) l k) by done.
    by rewrite lookup_insert_eq.
  - rewrite !lookup_insert_ne by done. done.
Qed.

Lemma entries_map (m : gmap string number) l :
  l ≡ₚ map_to_list m ->
  NoDup l.*1 /\ list_to_map (M := gmap string number) l = m.
Proof.
  intros Hp. assert (NoDup l.*1) as Hn by (rewrite Hp; apply NoDup_fst_map_to_list).
  split; [done|]. rewrite (list_to_map_proper _ _ Hn Hp). apply list_to_map_to_list.
Qed.

Lemma foldl_insert_map (m : gmap string number) l :
  l ≡ₚ map_to_list m -> foldl (fun acc kv => <[kv.1 := kv.2]> acc) ∅ l = m.
Proof.
  intros Hp. destruct (entries_map m l Hp) as [Hn Hm].
  apply map_eq. intros k. rewrite foldl_insert_lookup by done. rewrite Hm, lookup_empty.
  by destruct (m !! k).
Qed.

(** X26: loading gives back what was saved: when the persisted text parses to
    the object that holds the entries of a store, the second copy starts
    with exactly that store, and [src/App.tsx] does so whenever every entry
    has a key [parseISOKey] accepts and a finite value that is not
    negative. *)
Theorem hydrate_round_trip (JSON_parse : string -> option json) (e : engine)
    (m : gmap string number) (l : list (string * number)) (raw : string) :
  raw <> "" -> JSON_parse raw = Some (objectOf l) -> l ≡ₚ map_to_list m ->
  Alt.hydrate JSON_parse (Some raw) = m /\
  ((forall k v, m !! k = Some v -> validEntry e k v) ->
   App.hydrate JSON_parse e (Some raw) = m).
Proof.
  intros Hr Hp Hl. split.
  - unfold Alt.hydrate. rewrite eqb_empty, Hp by done. unfold objectOf.
    cbn [Object_entries]. rewrite load_any. by apply foldl_insert_map.
  - intros Hv. unfold App.hydrate. rewrite eqb_empty, Hp by done. unfold objectOf.
    cbn [jsonTruthy Object_entries]. rewrite load_valid; [by apply foldl_insert_map|].
    apply list.Forall_forall. intros [k v] Hin. apply Hv.
    rewrite Hl in Hin. by apply elem_of_map_to_list in Hin.
Qed.

Lemma hydrate_round_trip_witness :
  App.hydrate
    (fun s => if String.eqb s "saved" then Some (objectOf [("2024-02-29", ofZ 7)]) else None)
    StrictDays (Some "saved") = {[ "2024-02-29" := ofZ 7 ]}.
Proof.
  apply (hydrate_round_trip _ StrictDays {[ "2024-02-29" := ofZ 7 ]}
           [("2024-02-29", ofZ 7)] "saved").
  - discriminate.
  - reflexivity.
  - by rewrite map_to_list_singleton.
  - intros k v H. apply lookup_singleton_Some in H as [<- <-].
    split; [vm_compute; reflexivity|]. split; vm_compute; reflexivity.
Defined.

(* ====================================================================== *)
(** * Display texts and keys, and the rolling windows *)
(* ====================================================================== *)

Lemma isoText_fields y m d :
  1000 <= y <= 9999 -> realDate y m d ->
  yearOf (isoText y m d) = y /\ monthOf (isoText y m d) = m /\ dayOf (isoText y m d) = d.
Proof.
  intros Hy Hr. destruct (isoText_realKey y m d Hy Hr) as [Hk Hn].
  destruct Hk as [Hp [Hm Hd]]. destruct Hr as [Rm Rd].
  destruct (MakeDay_civil _ _ _ Hm Hd) as (Y & M & D). fold (dayNumber (isoText y m d)) in Y, M, D.
  destruct (MakeDay_civil _ _ _ Rm Rd) as (Y' & M' & D').
  rewrite Hn in Y, M, D. lia.
Qed.

(** X4: between the display texts and the keys of the real days of the
    years 1000 to 9999, [parseInputDate] and [formatDDMMYYYY] are inverse
    to each other: parsing a display text gives the key of the same day,
    which formats back to the text, and formatting a key gives a display
    text that parses back to the key. *)
Theorem display_key_inverse (e : engine) :
  (forall t,
     displayPattern t = true ->
     realDate (yearField t) (monthField t) (dayField t) -> 1000 <= yearField t ->
     exists s,
       App.parseInputDate e t = Some s /\ Alt.parseInputDate e t = Some s /\
       realKey s /\ yearOf s = yearField t /\ monthOf s = monthField t /\
       dayOf s = dayField t /\
       App.formatDDMMYYYY s = t /\ Alt.formatDDMMYYYY s = t) /\
  (forall s,
     realKey s -> 1000 <= yearOf s ->
     displayPattern (App.formatDDMMYYYY s) = true /\
     App.parseInputDate e (App.formatDDMMYYYY s) = Some s /\
     Alt.parseInputDate e (Alt.formatDDMMYYYY s) = Some s).
Proof.
  split.
  - intros t Hp Hr Hy.
    destruct (display_round_trip_from_1000 e t Hp Hr Hy) as (s & P1 & P2 & F1 & F2).
    destruct (display_fields_range t Hp) as (Ry & _ & _).
    assert (trim t = t) as Et by (apply trim_chars; by apply displayPattern_chars).
    pose proof P1 as P. rewrite parseInputDate_display in P by (by rewrite Et).
    rewrite Et in P. destruct (displayResult_real _ _ _ _ P) as (_ & -> & _).
    assert (1000 <= yearField t <= 9999) as Hy' by lia.
    destruct (isoText_realKey _ _ _ Hy' Hr) as [Hk _].
    destruct (isoText_fields _ _ _ Hy' Hr) as (? & ? & ?).
    exists (isoText (yearField t) (monthField t) (dayField t)).
    do 7 (split; [assumption|]). assumption.
  - intros s Hs Hy. pose proof (parse_of_format e s Hs Hy) as E.
    destruct (format_key s (proj1 Hs)) as (t & F1 & F2 & Ht & _).
    split; [by rewrite F1|]. split; [done|]. by rewrite parseInputDate_Alt, F2, <- F1.
Qed.

Lemma display_key_inverse_witness :
  App.parseInputDate StrictDays (App.formatDDMMYYYY "2024-02-29") = Some "2024-02-29".
Proof.
  apply (proj2 (display_key_inverse StrictDays) "2024-02-29").
  - split; [reflexivity|]. vm_compute. repeat split; discriminate.
  - vm_compute. discriminate.
Defined.



(* ====================================================================== *)
(** * Month arithmetic *)
(* ====================================================================== *)

Lemma allDigits_without (c : ascii) s :
  allDigits s = true -> (code c < 48 \/ 57 < code c) -> occurs c s = false.
Proof.
  intros H Hc. induction s as [|a s IH]; [done|]. cbn [allDigits occurs] in *.
  apply andb_true_iff in H as [Ha Hs]. by rewrite (digit_neq a c Ha Hc), IH.
Qed.

Lemma monthText_fields y m :
  0 <= y <= 9999 -> 0 <= m < 100 ->
  Number <$> split "-" (monthText y m) = [ofZ y; ofZ m].
Proof.
  intros Hy Hm. unfold monthText. rewrite pad4_fourDigits, pad2_twoDigits by lia.
  destruct (fourDigits_fields y ltac:(lia)) as [Ay Vy].
  destruct (twoDigits_fields m ltac:(lia)) as [Am Vm].
  change ("-" +:+ twoDigits m) with (String "-" (twoDigits m)).
  rewrite split_at by (apply allDigits_without; [done|outside]).
  rewrite split_without by (apply allDigits_without; [done|outside]).
  cbn [fmap list_fmap]. rewrite !Number_digits by (done || (cbn; lia)).
  by rewrite Vy, Vm.
Qed.

Lemma MakeDay_carry y k : MakeDay y k 1 = MakeDay (y + k / 12) (k mod 12) 1.
Proof.
  unfold MakeDay. replace (k mod 12 / 12) with 0 by zlia.
  replace (k mod 12 mod 12) with (k mod 12) by zlia. by rewrite Z.add_0_r.
Qed.

Lemma addMonths_text y m delta :
  100 <= y <= 9999 -> 1 <= m <= 12 ->
  1000 <= (y * 12 + (m - 1) + delta) / 12 <= 9999 ->
  App.addMonths (monthText y m) (ofZ delta) =
  monthText ((y * 12 + (m - 1) + delta) / 12) ((y * 12 + (m - 1) + delta) mod 12 + 1).
Proof.
  intros Hy Hm Hi. set (i := y * 12 + (m - 1) + delta) in *.
  unfold App.addMonths. cbv zeta. rewrite monthText_fields by lia.
  change ([ofZ y; ofZ m] !!! 0%nat) with (ofZ y).
  change ([ofZ y; ofZ m] !!! 1%nat) with (ofZ m).
  rewrite nsub_ofZ, nadd_ofZ, !Date_UTC_ofZ.
  assert (MakeFullYear y = y) as ->.
  { unfold MakeFullYear. destruct (Z.leb_spec y 99); [lia|]. by rewrite andb_false_r. }
  rewrite MakeDay_carry.
  replace (y + (m - 1 + delta) / 12) with (i / 12) by (unfold i; zlia).
  replace ((m - 1 + delta) mod 12) with (i mod 12 + 1 - 1) by (unfold i; zlia).
  assert (1 <= i mod 12 + 1 <= 12) as Hm' by zlia.
  pose proof (DaysInMonth_ge (i / 12) (i mod 12 + 1)) as Hdim.
  rewrite MakeDay_in_range by lia.
  destruct (MakeDay_civil (i / 12) (i mod 12 + 1) 1 Hm' ltac:(lia)) as (EY & EM & _).
  cbn [getUTCFullYear getUTCMonth]. rewrite EY, EM, nadd_ofZ.
  replace (i mod 12 + 1 - 1 + 1) with (i mod 12 + 1) by lia.
  apply monthText_of; lia.
Qed.

(** X30: [addMonths] is month arithmetic on the calendar: from a month of
    the years 0100 to 9999 it moves by a whole number of months, carrying
    into the year, as long as the result lies in the years 1000 to 9999;
    moving twice is moving by the sum, and from the year 1000 on moving
    back by the same number returns to the start. *)
Theorem addMonths_calendar (y m delta : Z) :
  100 <= y <= 9999 -> 1 <= m <= 12 ->
  1000 <= (y * 12 + (m - 1) + delta) / 12 <= 9999 ->
  App.addMonths (monthText y m) (ofZ delta) =
    monthText ((y * 12 + (m - 1) + delta) / 12) ((y * 12 + (m - 1) + delta) mod 12 + 1) /\
  (1000 <= y ->
     App.addMonths (App.addMonths (monthText y m) (ofZ delta)) (ofZ (- delta)) =
     monthText y m) /\
  (forall b, 1000 <= (y * 12 + (m - 1) + delta + b) / 12 <= 9999 ->
     App.addMonths (App.addMonths (monthText y m) (ofZ delta)) (ofZ b) =
     App.addMonths (monthText y m) (ofZ (delta + b))).
Proof.
  intros Hy Hm Hi.
  pose proof (addMonths_text y m delta Hy Hm Hi) as E.
  remember (y * 12 + (m - 1) + delta) as i eqn:Hdef.
  assert (1 <= i mod 12 + 1 <= 12) as Hm' by zlia.
  assert (i / 12 * 12 + (i mod 12 + 1 - 1) = i) as Ei by zlia.
  split; [exact E|]. rewrite E.
  assert (forall b, 1000 <= (i + b) / 12 <= 9999 ->
            App.addMonths (monthText (i / 12) (i mod 12 + 1)) (ofZ b) =
            monthText ((i + b) / 12) ((i + b) mod 12 + 1)) as Hstep.
  { intros b Hb.
    pose proof (addMonths_text (i / 12) (i mod 12 + 1) b ltac:(lia) Hm') as S.
    rewrite Ei in S. apply S. exact Hb. }
  split.
  - intros Hbig.
    assert (i + - delta = y * 12 + (m - 1)) as Eb by lia.
    assert (1000 <= (i + - delta) / 12 <= 9999) as Hr by (rewrite Eb; zlia).
    rewrite (Hstep _ Hr), Eb.
    assert ((y * 12 + (m - 1)) / 12 = y) as -> by zlia.
    assert ((y * 12 + (m - 1)) mod 12 + 1 = m) as -> by zlia.
    reflexivity.
  - intros b Hb. rewrite (Hstep _ Hb).
    assert (y * 12 + (m - 1) + (delta + b) = i + b) as Es by lia.
    assert (1000 <= (y * 12 + (m - 1) + (delta + b)) / 12 <= 9999) as Hr
      by (rewrite Es; exact Hb).
    rewrite (addMonths_text y m (delta + b) Hy Hm Hr), Es. reflexivity.
Qed.

Lemma addMonths_calendar_witness :
  App.addMonths (monthText 2024 1) (ofZ (-1)) = monthText 2023 12.
Proof.
  assert (100 <= 2024 <= 9999) as H1 by lia.
  assert (1 <= 1 <= 12) as H2 by lia.
  assert (1000 <= (2024 * 12 + (1 - 1) + -1) / 12 <= 9999) as H3
    by (vm_compute; split; discriminate).
  pose proof (proj1 (addMonths_calendar 2024 1 (-1) H1 H2 H3)) as E.
  change ((2024 * 12 + (1 - 1) + -1) / 12) with 2023 in E.
  change ((2024 * 12 + (1 - 1) + -1) mod 12 + 1) with 12 in E.
  exact E.
Defined.

(* ====================================================================== *)
(** * The import, row by row *)
(* ====================================================================== *)







(** a value beyond the range of binary64 is refused like any other
    infinity *)
Lemma csvParse_refuses_overflow e :
  App.csvParse e "18-12-2025,1e400" =
  ([], ["Row 1: invalid generation '1e400' (expected non-negative number)"]).
Proof. destruct e; by_compute. Qed.


